(** * ip-scanner: a shallow embedding of [main.py] and its specification

    The program samples IPv4 addresses from CDN pools, probes each of them
    with one HTTP request and writes the responsive ones to a CSV file.

    Everything the program touches outside its own code (the hidden state of
    module [random], the monotonic clock, the network, the terminal, the file
    system, the thread pool's scheduling) is a component of [World]; every
    function of [main.py] becomes a computation in the monad [Py], which
    threads the world and propagates Python exceptions.

    A text is the [string] of its characters.  [str.strip], [str.lower] and
    [int] are those of Python on ASCII text; beyond ASCII they follow the
    Unicode tables, which are not carried here, so the statements about the
    lines a user types speak of ASCII lines: by hypothesis
    ([pystr.isascii]), or because what they assume of the line (that it
    names a pool, that [int] reads it) holds of no other line. *)

From Stdlib Require Import ZArith QArith Qround Qabs String Ascii List Lia Lqa Bool.
From stdpp Require Import base option list gmap strings.
Import ListNotations.

Local Open Scope string_scope.
Local Open Scope list_scope.
Local Open Scope Z_scope.

(** ** Python exceptions *)

Inductive exn : Type :=
| IndexError
| ValueError
| TypeError
| AddressValueError
| RequestsTimeout          (* requests.exceptions.Timeout and subclasses *)
| RequestsConnectionError  (* refused, reset, unreachable, ... *)
| RequestsOther            (* any other requests.exceptions.RequestException *)
| HTTPError                (* raised by Response.raise_for_status *)
| JSONDecodeError
| OSError
| EOFError
| SystemExit (code : Z).   (* a BaseException, not an Exception *)

(** [isinstance(e, Exception)]. *)
Definition is_Exception (e : exn) : bool :=
  match e with
  | SystemExit _ => false
  | _ => true
  end.

(** [isinstance(e, requests.exceptions.Timeout)]. *)
Definition is_Timeout (e : exn) : bool :=
  match e with
  | RequestsTimeout => true
  | _ => false
  end.

(** [isinstance(e, ValueError)]; [AddressValueError] and [JSONDecodeError]
    derive from [ValueError]. *)
Definition is_ValueError (e : exn) : bool :=
  match e with
  | ValueError | AddressValueError | JSONDecodeError => true
  | _ => false
  end.

Inductive outcome (A : Type) : Type :=
| Ok (a : A)
| Raise (e : exn).
Arguments Ok {A} a.
Arguments Raise {A} e.

(** ** Strings and integers as Python has them *)

Module pystr.

Definition is_digit (c : ascii) : bool :=
  let n := N_of_ascii c in ((48 <=? n) && (n <=? 57))%N.

(** [s.isascii() and s.isdigit()]: non-empty, only [0]..[9]. *)
Definition isdigit (s : string) : bool :=
  match s with
  | EmptyString => false
  | _ => forallb is_digit (list_ascii_of_string s)
  end.

(** [s.isascii()]. *)
Definition isascii (s : string) : bool :=
  forallb (fun c => (N_of_ascii c <? 128)%N) (list_ascii_of_string s).

Definition digit_value (c : ascii) : Z := Z.of_N (N_of_ascii c) - 48.

(** [int(s, 10)] for a string of digits. *)
Definition int_of_digits (s : string) : Z :=
  fold_left (fun acc c => 10 * acc + digit_value c) (list_ascii_of_string s) 0.

Definition digit_char (d : Z) : ascii := ascii_of_N (Z.to_N (48 + d)).

Fixpoint digits_go (fuel : nat) (n : Z) (acc : string) : string :=
  match fuel with
  | O => acc
  | S fuel' =>
      let acc' := String (digit_char (n mod 10)) acc in
      if n / 10 =? 0 then acc' else digits_go fuel' (n / 10) acc'
  end.

(** [str(n)] for an integer [n]. *)
Definition str_of_int (n : Z) : string :=
  if n <? 0 then String "-" (digits_go (S (Z.to_nat (Z.log2 (- n)))) (- n) EmptyString)
  else digits_go (S (Z.to_nat (Z.log2 n))) n EmptyString.

(** [s.split(sep)] for a one-character separator. *)
Fixpoint split (sep : ascii) (s : string) : list string :=
  match s with
  | EmptyString => [EmptyString]
  | String c s' =>
      if Ascii.eqb c sep then EmptyString :: split sep s'
      else match split sep s' with
           | [] => [String c EmptyString]
           | h :: t => String c h :: t
           end
  end.

(** [sep.join(parts)]. *)
Fixpoint join (sep : string) (parts : list string) : string :=
  match parts with
  | [] => EmptyString
  | [p] => p
  | p :: rest => p +:+ sep +:+ join sep rest
  end.

(** [c in s]. *)
Definition contains (c : ascii) (s : string) : bool :=
  existsb (Ascii.eqb c) (list_ascii_of_string s).

(** [s.zfill(width)] for a string of digits. *)
Fixpoint zeros (k : nat) : string :=
  match k with
  | O => EmptyString
  | S k' => String "0" (zeros k')
  end.
Definition zfill (width : nat) (s : string) : string :=
  zeros (width - String.length s) +:+ s.

(** Whitespace as [str.strip] sees it, within ASCII. *)
Definition is_space (c : ascii) : bool :=
  let n := N_of_ascii c in
  (((9 <=? n) && (n <=? 13)) || ((28 <=? n) && (n <=? 32)))%N.

Fixpoint lstrip (s : string) : string :=
  match s with
  | EmptyString => EmptyString
  | String c s' => if is_space c then lstrip s' else s
  end.

Fixpoint rstrip (s : string) : string :=
  match s with
  | EmptyString => EmptyString
  | String c s' =>
      match rstrip s' with
      | EmptyString => if is_space c then EmptyString else String c EmptyString
      | r => String c r
      end
  end.

Definition strip (s : string) : string := rstrip (lstrip s).

Definition lower_char (c : ascii) : ascii :=
  let n := N_of_ascii c in
  if ((65 <=? n) && (n <=? 90))%N then ascii_of_N (n + 32) else c.

(** [s.lower()], within ASCII. *)
Fixpoint lower (s : string) : string :=
  match s with
  | EmptyString => EmptyString
  | String c s' => String (lower_char c) (lower s')
  end.

(** Rounding to the nearest integer, ties to the even one. *)
Definition round_half_even (q : Q) : Z :=
  let n := Qfloor q in
  match (q - inject_Z n ?= 1 # 2)%Q with
  | Lt => n
  | Gt => n + 1
  | Eq => if Z.even n then n else n + 1
  end.

(** [f"{x:.2f}"]: the value rounded to hundredths (ties to even), with
    its sign, the integer part and two decimals. *)
Definition format_2f (x : Q) : string :=
  let r := round_half_even (Qabs x * 100) in
  (if Qle_bool 0 x then EmptyString else "-")
    +:+ str_of_int (r / 100) +:+ "." +:+ zfill 2 (str_of_int (r mod 100)).

Definition underscore : ascii := "_".

(** The digits of an integer literal, where single underscores may
    separate digits. *)
Fixpoint int_body (prev_digit : bool) (cs : list ascii) : bool :=
  match cs with
  | [] => prev_digit
  | c :: cs' =>
      if is_digit c then int_body true cs'
      else if Ascii.eqb c underscore then prev_digit && int_body false cs'
      else false
  end.

(** Whitespace as [int] sees it, within ASCII: the six characters of C's
    [isspace].  The separators U+001C..U+001F, which [str.strip] removes,
    are not among them: [int] refuses a text that ends with one. *)
Definition is_c_space (c : ascii) : bool :=
  let n := N_of_ascii c in
  (((9 <=? n) && (n <=? 13)) || (n =? 32))%N.

Fixpoint lskip (s : string) : string :=
  match s with
  | EmptyString => EmptyString
  | String c s' => if is_c_space c then lskip s' else s
  end.

Fixpoint rskip (s : string) : string :=
  match s with
  | EmptyString => EmptyString
  | String c s' =>
      match rskip s' with
      | EmptyString => if is_c_space c then EmptyString else String c EmptyString
      | r => String c r
      end
  end.

(** [sys.get_int_max_str_digits()], as the interpreter sets it by default
    (CPython 3.11, and the security releases of 3.7 to 3.10). *)
Definition max_str_digits : Z := 4300.

(** [int(s)]: surrounding whitespace, an optional sign, decimal digits
    with single underscores between them; a text with more digits than
    [max_str_digits], leading zeros counted and underscores not, is
    refused. *)
Definition int_of_string (s : string) : outcome Z :=
  let t := rskip (lskip s) in
  let '(neg, body) :=
    match t with
    | String "-" b => (true, b)
    | String "+" b => (false, b)
    | _ => (false, t)
    end in
  let cs := list_ascii_of_string body in
  if int_body false cs
  then let ds := filter (fun c => is_digit c = true) cs in
       if max_str_digits <? Z.of_nat (length ds) then Raise ValueError
       else let v := fold_left (fun acc c => 10 * acc + digit_value c) ds 0 in
            Ok (if neg then - v else v)
  else Raise ValueError.

Definition newline : string := String (ascii_of_nat 10) EmptyString.
Definition crlf : string := String (ascii_of_nat 13) newline.

End pystr.

(** ** Floats *)

(** A Python float, as far as the program compares it and hands it on: a
    number, an infinity or a NaN.  [float] returns any of them (on [nan],
    [inf], [1e400], ...).  The times read on the clock are numbers and stay
    in [Q]. *)
Inductive pyfloat : Type :=
| Finite (q : Q)
| PosInf
| NegInf
| NaN.
Coercion Finite : Q >-> pyfloat.
Bind Scope Q_scope with pyfloat.

(** [x <= 0]: false on a NaN, as every comparison with one. *)
Definition float_le_zero (x : pyfloat) : bool :=
  match x with
  | Finite q => Qle_bool q 0
  | NegInf => true
  | PosInf | NaN => false
  end.

(** ** Values decoded from JSON *)

#[warnings="-register-all"]
Inductive json : Type :=
| JNull
| JBool (b : bool)
| JInt (n : Z)
| JFloat (q : Q)
| JStr (s : string)
| JArr (items : list json)
| JObj (members : list (string * json)).

(** [bool(x)]. *)
Definition truthy (x : json) : bool :=
  match x with
  | JNull => false
  | JBool b => b
  | JInt n => negb (n =? 0)
  | JFloat q => negb (Qeq_bool q 0)
  | JStr s => negb (String.eqb s EmptyString)
  | JArr items => match items with [] => false | _ => true end
  | JObj members => match members with [] => false | _ => true end
  end.

(** [len(x)]. *)
Definition py_len (x : json) : outcome nat :=
  match x with
  | JStr s => Ok (String.length s)
  | JArr items => Ok (length items)
  | JObj members => Ok (length members)
  | _ => Raise TypeError
  end.

(** The elements [for y in x] visits. *)
Definition py_iter (x : json) : outcome (list json) :=
  match x with
  | JStr s => Ok (map (fun c => JStr (String c EmptyString)) (list_ascii_of_string s))
  | JArr items => Ok items
  | JObj members => Ok (map (fun kv => JStr (fst kv)) members)
  | _ => Raise TypeError
  end.

(** ** ipaddress *)

Module ipaddress.

Definition ALL_ONES : Z := 2 ^ 32 - 1.
Definition max_prefixlen : Z := 32.

(** An [IPv4Address] object holds the integer [_ip]. *)
Record IPv4Address : Type := mkAddr { ip_int : Z }.

(** An [IPv4Network] object holds its network address and prefix length;
    netmask, hostmask, broadcast address and size are computed from them
    the way the library does. *)
Record IPv4Network : Type := mkNet {
  network_address : IPv4Address;
  prefixlen : Z
}.

(** [_ip_int_from_prefix]: [ALL_ONES ^ (ALL_ONES >> prefixlen)]. *)
Definition netmask (net : IPv4Network) : Z :=
  Z.lxor ALL_ONES (Z.shiftr ALL_ONES (prefixlen net)).

(** [hostmask]: [int(netmask) ^ ALL_ONES]. *)
Definition hostmask (net : IPv4Network) : Z :=
  Z.lxor (netmask net) ALL_ONES.

(** [broadcast_address]: [int(network_address) | int(hostmask)]. *)
Definition broadcast_address (net : IPv4Network) : IPv4Address :=
  mkAddr (Z.lor (ip_int (network_address net)) (hostmask net)).

(** [num_addresses]: [int(broadcast_address) - int(network_address) + 1]. *)
Definition num_addresses (net : IPv4Network) : Z :=
  ip_int (broadcast_address net) - ip_int (network_address net) + 1.

(** What the (strict) constructor [IPv4Network(...)] guarantees: a prefix
    length within range, a 32-bit address, no host bit set. *)
Definition wf_network (net : IPv4Network) : Prop :=
  0 <= prefixlen net <= max_prefixlen /\
  0 <= ip_int (network_address net) <= ALL_ONES /\
  Z.land (ip_int (network_address net)) (netmask net) = ip_int (network_address net).

(** [addr in net]: [addr._ip & net.netmask._ip == net.network_address._ip]. *)
Definition contains (net : IPv4Network) (addr : IPv4Address) : bool :=
  Z.land (ip_int addr) (netmask net) =? ip_int (network_address net).

(** [IPv4Address(n)] for an integer [n]. *)
Definition IPv4Address_of_int (n : Z) : outcome IPv4Address :=
  if (0 <=? n) && (n <=? ALL_ONES) then Ok (mkAddr n) else Raise AddressValueError.

(** [IPv4Address.__add__]: [self.__class__(int(self) + other)]. *)
Definition add (a : IPv4Address) (other : Z) : outcome IPv4Address :=
  IPv4Address_of_int (ip_int a + other).

(** [_parse_octet]. *)
Definition parse_octet (octet_str : string) : outcome Z :=
  if negb (pystr.isdigit octet_str) then Raise ValueError
  else if (3 <? String.length octet_str)%nat then Raise ValueError
  else if negb (String.eqb octet_str "0") && pystr.contains "0" (String.substring 0 1 octet_str)
       then Raise ValueError
  else let octet_int := pystr.int_of_digits octet_str in
       if 255 <? octet_int then Raise ValueError else Ok octet_int.

(** [_ip_int_from_string]. *)
Definition ip_int_from_string (ip_str : string) : outcome Z :=
  match ip_str with
  | EmptyString => Raise AddressValueError
  | _ =>
      match pystr.split "." ip_str with
      | [a; b; c; d] =>
          match parse_octet a, parse_octet b, parse_octet c, parse_octet d with
          | Ok a, Ok b, Ok c, Ok d => Ok (((a * 256 + b) * 256 + c) * 256 + d)
          | _, _, _, _ => Raise AddressValueError
          end
      | _ => Raise AddressValueError
      end
  end.

(** [IPv4Address(s)] for a string [s]. *)
Definition IPv4Address_of_string (s : string) : outcome IPv4Address :=
  if pystr.contains "/" s then Raise AddressValueError
  else match ip_int_from_string s with
       | Ok n => Ok (mkAddr n)
       | Raise e => Raise e
       end.

(** [IPv4Address(x)] for a value decoded from JSON: integers (and
    booleans, which are integers) are taken as they are, anything else
    goes through [str(x)]; only the [str] of a string can be a dotted
    quad. *)
Definition IPv4Address_new (x : json) : outcome IPv4Address :=
  match x with
  | JInt n => IPv4Address_of_int n
  | JBool b => IPv4Address_of_int (if b then 1 else 0)
  | JStr s => IPv4Address_of_string s
  | _ => Raise AddressValueError
  end.

(** [str(addr)]: ['.'.join(map(str, addr._ip.to_bytes(4, 'big')))]. *)
Definition str (addr : IPv4Address) : string :=
  let n := ip_int addr in
  pystr.join "." (map pystr.str_of_int
    [Z.shiftr n 24 mod 256; Z.shiftr n 16 mod 256; Z.shiftr n 8 mod 256; n mod 256]).

(** [_prefix_from_prefix_string]. *)
Definition prefix_from_prefix_string (prefixlen_str : string) : outcome Z :=
  if negb (pystr.isdigit prefixlen_str) then Raise ValueError
  else let p := pystr.int_of_digits prefixlen_str in
       if (0 <=? p) && (p <=? max_prefixlen) then Ok p else Raise ValueError.

(** [IPv4Network(s)] for a string [s], [strict=True].  Only the
    prefix-length form of the mask is covered; the dotted netmask form,
    which no table of the program uses, is reported as an error. *)
Definition IPv4Network_of_string (s : string) : outcome IPv4Network :=
  match pystr.split "/" s with
  | [addr] =>
      match IPv4Address_of_string addr with
      | Ok a => Ok (mkNet a max_prefixlen)
      | Raise e => Raise e
      end
  | [addr; mask] =>
      match IPv4Address_of_string addr with
      | Ok a =>
          match prefix_from_prefix_string mask with
          | Ok p =>
              let net := mkNet a p in
              if Z.land (ip_int a) (netmask net) =? ip_int a then Ok net
              else Raise ValueError
          | Raise e => Raise e
          end
      | Raise e => Raise e
      end
  | _ => Raise AddressValueError
  end.

End ipaddress.
Export ipaddress.

(** ** The world and the monad of Python computations *)

(** The hidden generator of module [random].  Its state is a tape of raw
    draws and a read position; each primitive reads one cell and reduces it
    into the range the library documents, so every sequence of results the
    real generator can produce is produced by some tape. *)
Record RandomState : Type := mkRandom {
  tape : nat -> Z;
  pos : nat
}.

(** An HTTP response, as far as the program looks at it. *)
Record Response : Type := mkResponse {
  status_code : Z;
  (** the decoded body; [None] when the body is not valid JSON *)
  body_json : option json
}.

(** What [requests.get] meets on the wire. *)
Inductive wire : Type :=
| Answered (r : Response)   (* an HTTP response, of any status *)
| NoAnswerInTime            (* the connect timeout elapsed, or the read timeout
                               before the head of the response arrived *)
| StalledInBody             (* the read timeout elapsed while the body was received *)
| ConnectionRefused
| ConnectionReset
| Unreachable
| ProtocolViolation         (* not HTTP, bad chunking, too many redirects, ... *)
| BadRequest.               (* the request could not be prepared *)

(** [took] is the wall-clock time the call lasts. *)
Record Reply : Type := mkReply {
  reply : wire;
  took : Q
}.

(** [datetime.now()]. *)
Record datetime : Type := mkDatetime {
  year : Z; month : Z; day : Z; hour : Z; minute : Z; second : Z
}.

Record World : Type := mkWorld {
  random_state : RandomState;
  (** [time.monotonic()] *)
  monotonic_clock : Q;
  (** the answer to [requests.get(url, timeout=t)] issued at a given time *)
  network : string -> pyfloat -> Q -> Reply;
  (** lines still to be typed at the prompts *)
  stdin : list string;
  (** what has been printed, oldest first *)
  stdout : list string;
  (** files opened for writing and closed again, oldest first *)
  written : list (string * string);
  files : gmap string string;
  wall_clock : datetime;
  cpu_count : Z;
  (** the thread pool: when the worker of the [i]-th submitted task starts
      it, and which of the pending futures completes next *)
  worker_start : nat -> Q;
  next_completed : nat -> nat
}.

Definition Py (A : Type) : Type := World -> outcome A * World.

Definition ret {A} (a : A) : Py A := fun w => (Ok a, w).

Definition bind {A B} (m : Py A) (k : A -> Py B) : Py B :=
  fun w => match m w with
           | (Ok a, w') => k a w'
           | (Raise e, w') => (Raise e, w')
           end.

Definition raise {A} (e : exn) : Py A := fun w => (Raise e, w).

(** [try: body except <handles>: handler]. *)
Definition try_except {A} (body : Py A) (handles : exn -> bool) (handler : exn -> Py A) : Py A :=
  fun w => match body w with
           | (Ok a, w') => (Ok a, w')
           | (Raise e, w') => if handles e then handler e w' else (Raise e, w')
           end.

Definition lift {A} (o : outcome A) : Py A := fun w => (o, w).

Declare Scope py_scope.
Delimit Scope py_scope with py.
Notation "x <- m ;; k" := (bind m (fun x => k))
  (at level 100, m at next level, right associativity) : py_scope.
Notation "m ;; k" := (bind m (fun _ => k))
  (at level 100, right associativity) : py_scope.
Local Open Scope py_scope.

(** [for x in xs: acc = body(x, acc)]. *)
Fixpoint for_each {A S} (xs : list A) (body : A -> S -> Py S) (acc : S) : Py S :=
  match xs with
  | [] => ret acc
  | x :: xs' => acc' <- body x acc ;; for_each xs' body acc'
  end.

(** [[f(x) for x in xs]]. *)
Fixpoint comprehension {A B} (f : A -> Py B) (xs : list A) : Py (list B) :=
  match xs with
  | [] => ret []
  | x :: xs' => y <- f x ;; ys <- comprehension f xs' ;; ret (y :: ys)
  end.

(** [[e for _ in range(k)]]. *)
Fixpoint replicateM {A} (k : nat) (m : Py A) : Py (list A) :=
  match k with
  | O => ret []
  | S k' => y <- m ;; ys <- replicateM k' m ;; ret (y :: ys)
  end.

(** Field updates of the world. *)
Definition set_random_state (g : RandomState) (w : World) : World :=
  mkWorld g (monotonic_clock w) (network w) (stdin w) (stdout w) (written w)
          (files w) (wall_clock w) (cpu_count w) (worker_start w) (next_completed w).
Definition set_monotonic_clock (t : Q) (w : World) : World :=
  mkWorld (random_state w) t (network w) (stdin w) (stdout w) (written w)
          (files w) (wall_clock w) (cpu_count w) (worker_start w) (next_completed w).
Definition set_stdin (l : list string) (w : World) : World :=
  mkWorld (random_state w) (monotonic_clock w) (network w) l (stdout w) (written w)
          (files w) (wall_clock w) (cpu_count w) (worker_start w) (next_completed w).
Definition set_stdout (l : list string) (w : World) : World :=
  mkWorld (random_state w) (monotonic_clock w) (network w) (stdin w) l (written w)
          (files w) (wall_clock w) (cpu_count w) (worker_start w) (next_completed w).
Definition set_files (l : list (string * string)) (m : gmap string string) (w : World) : World :=
  mkWorld (random_state w) (monotonic_clock w) (network w) (stdin w) (stdout w) l
          m (wall_clock w) (cpu_count w) (worker_start w) (next_completed w).

(** ** random *)

Module random.

(** Read one cell of the tape. *)
Definition draw : Py Z :=
  fun w => let g := random_state w in
           (Ok (tape g (pos g)), set_random_state (mkRandom (tape g) (S (pos g))) w).

(** [random()]: a float in [[0.0, 1.0)], a multiple of [2^-53]. *)
Definition random : Py Q :=
  r <- draw ;; ret (Qmake (r mod 2 ^ 53) (2 ^ 53)).

(** [_randbelow(n)] for [n > 0]: an integer in [[0, n)].  The library's
    rejection loop over [getrandbits] is modelled by its result. *)
Definition randbelow (n : Z) : Py Z :=
  r <- draw ;; ret (r mod n).

(** [randrange(start, stop)]. *)
Definition randrange (start stop : Z) : Py Z :=
  let width := stop - start in
  if 0 <? width then r <- randbelow width ;; ret (start + r)
  else raise ValueError.

(** [randint(a, b)]: [randrange(a, b+1)]. *)
Definition randint (a b : Z) : Py Z := randrange a (b + 1).

(** [itertools.accumulate]. *)
Fixpoint accumulate_from (acc : Z) (ws : list Z) : list Z :=
  match ws with
  | [] => []
  | x :: ws' => (acc + x) :: accumulate_from (acc + x) ws'
  end.
Definition accumulate (ws : list Z) : list Z := accumulate_from 0 ws.

(** [bisect.bisect(a, x, lo, hi)]:
    [while lo < hi: mid = (lo+hi)//2; if x < a[mid]: hi = mid else: lo = mid+1].
    The loop runs at most [hi - lo] times. *)
Fixpoint bisect_loop (fuel : nat) (a : list Z) (x : Q) (lo hi : nat) : nat :=
  match fuel with
  | O => lo
  | S fuel' =>
      if (lo <? hi)%nat then
        let mid := ((lo + hi) / 2)%nat in
        if negb (Qle_bool (inject_Z (nth mid a 0)) x)
        then bisect_loop fuel' a x lo mid
        else bisect_loop fuel' a x (S mid) hi
      else lo
  end.
Definition bisect (a : list Z) (x : Q) (lo hi : nat) : nat :=
  bisect_loop (hi - lo) a x lo hi.

(** [seq[i]]. *)
Definition item {A} (l : list A) (i : nat) : Py A :=
  match l !! i with
  | Some x => ret x
  | None => raise IndexError
  end.

(** [choices(population, weights=weights, k=k)].  The product
    [random() * total] is taken exactly, where the library multiplies two
    floats: the rounding of that product moves a few draws across the
    boundary of two blocks, so which block a draw selects is not a matter
    for the statements, which speak of every block of the population. *)
Definition choices {A} (population : list A) (weights : list Z) (k : Z) : Py (list A) :=
  let n := length population in
  let cum_weights := accumulate weights in
  if negb (length cum_weights =? n)%nat then raise ValueError
  else match last cum_weights with
       | None => raise IndexError
       | Some total =>
           if total <=? 0 then raise ValueError
           else
             let hi := (n - 1)%nat in
             replicateM (Z.to_nat k)
               (u <- random ;;
                item population (bisect cum_weights (u * inject_Z total)%Q 0 hi))
       end.

(** [setsize] of [sample]: [21], plus [4 ** ceil(log(k * 3, 4))] when [k > 5]. *)
Definition setsize (k : Z) : Z :=
  if 5 <? k then 21 + 4 ^ ((Z.log2_up (k * 3) + 1) / 2) else 21.

(** First branch of [sample]: selection from a shrinking pool.
    [for i in range(k): j = randbelow(n-i); result[i] = pool[j];
     pool[j] = pool[n-i-1]]; [m] is [n - i]. *)
Fixpoint sample_pool {A} (k : nat) (pool : list A) (m : nat) : Py (list A) :=
  match k with
  | O => ret []
  | S k' =>
      j <- randbelow (Z.of_nat m) ;;
      x <- item pool (Z.to_nat j) ;;
      y <- item pool (m - 1)%nat ;;
      rest <- sample_pool k' (<[Z.to_nat j := y]> pool) (m - 1)%nat ;;
      ret (x :: rest)
  end.

(** Second branch of [sample]: selection tracked in a set.
    [j = randbelow(n); while j in selected: j = randbelow(n)] is a
    rejection loop; it is modelled by its result, one draw among the
    indices not yet selected. *)
Definition draw_unselected (n : nat) (selected : gset nat) : Py nat :=
  let free := filter (fun j => j ∉ selected) (seq 0 n) in
  r <- randbelow (Z.of_nat (length free)) ;;
  item free (Z.to_nat r).

Fixpoint sample_set {A} (k : nat) (population : list A) (selected : gset nat) : Py (list A) :=
  match k with
  | O => ret []
  | S k' =>
      j <- draw_unselected (length population) selected ;;
      x <- item population j ;;
      rest <- sample_set k' population ({[j]} ∪ selected) ;;
      ret (x :: rest)
  end.

(** [sample(population, k)] for a sequence [population]. *)
Definition sample {A} (population : list A) (k : Z) : Py (list A) :=
  let n := Z.of_nat (length population) in
  if negb ((0 <=? k) && (k <=? n)) then raise ValueError
  else if n <=? setsize k then sample_pool (Z.to_nat k) population (length population)
  else sample_set (Z.to_nat k) population ∅.

End random.

(** ** AddressSampler *)

(** [generate_random_ips(networks, count)]. *)
Definition generate_random_ips (networks : list IPv4Network) (count : Z) : Py (list IPv4Address) :=
  let weights := map num_addresses networks in
  chosen_nets <- random.choices networks weights count ;;
  for_each chosen_nets
    (fun net ips =>
       offset <- (if 2 <? num_addresses net
                  then random.randint 1 (num_addresses net - 2)
                  else ret 0) ;;
       addr <- lift (ipaddress.add (network_address net) offset) ;;
       ret (ips ++ [addr]))
    [].

(** [random.sample(population, k)] on a value decoded from JSON: lists and
    strings are sequences, an object (a dict) is refused. *)
Definition sample_of (population : json) (k : Z) : Py (list json) :=
  match population with
  | JArr items => random.sample items k
  | JStr s => random.sample (map (fun c => JStr (String c EmptyString)) (list_ascii_of_string s)) k
  | _ => raise TypeError
  end.

(** [generate_random_ips_from_list(ip_list, count)]. *)
Definition generate_random_ips_from_list (ip_list : json) (count : Z) : Py (list IPv4Address) :=
  n <- lift (py_len ip_list) ;;
  if (n =? 0)%nat then ret []
  else if Z.of_nat n <=? count then
    items <- lift (py_iter ip_list) ;;
    comprehension (fun ip => lift (IPv4Address_new ip)) items
  else
    chosen_ips <- sample_of ip_list count ;;
    comprehension (fun ip => lift (IPv4Address_new ip)) chosen_ips.

(** ** Probe *)

Module time.
(** [time.monotonic()]. *)
Definition monotonic : Py Q := fun w => (Ok (monotonic_clock w), w).
End time.

Module requests.

(** The exception [requests.get] raises for what happened on the wire.
    A time-out before the head of the response is a [ConnectTimeout] or a
    [ReadTimeout], both of them [Timeout]; a read time-out while the body
    is received is re-raised by [Response.iter_content] as a
    [ConnectionError], which is not a [Timeout]. *)
Definition exception_of (x : wire) : option exn :=
  match x with
  | Answered _ => None
  | NoAnswerInTime => Some RequestsTimeout
  | StalledInBody => Some RequestsConnectionError
  | ConnectionRefused | ConnectionReset | Unreachable => Some RequestsConnectionError
  | ProtocolViolation | BadRequest => Some RequestsOther
  end.

(** [requests.get(url, timeout=timeout)]: the call lasts [took] and
    returns the response or raises.  A timeout [<= 0] is refused with a
    [ValueError] before anything is sent; what is made of a timeout that
    is infinite or not a number is left to the world. *)
Definition get (url : string) (timeout : pyfloat) : Py Response :=
  fun w =>
    let r := network w url timeout (monotonic_clock w) in
    let w' := set_monotonic_clock (monotonic_clock w + took r)%Q w in
    if float_le_zero timeout then (Raise ValueError, w')
    else
      match reply r with
      | Answered resp => (Ok resp, w')
      | x => match exception_of x with
             | Some e => (Raise e, w')
             | None => (Raise RequestsOther, w')
             end
      end.

(** [response.raise_for_status()]: raises for 4xx and 5xx. *)
Definition raise_for_status (response : Response) : Py unit :=
  if (400 <=? status_code response) && (status_code response <? 600)
  then raise HTTPError else ret tt.

(** [response.json()]. *)
Definition json_of (response : Response) : Py json :=
  match body_json response with
  | Some v => ret v
  | None => raise JSONDecodeError
  end.

End requests.

(** [try: body except <clauses>: ... else: orelse].  [clauses e] is the
    handler of the first clause that matches [e], if any. *)
Definition try_except_else {A B} (body : Py A) (clauses : exn -> option (Py B))
    (orelse : A -> Py B) : Py B :=
  fun w => match body w with
           | (Ok a, w') => orelse a w'
           | (Raise e, w') =>
               match clauses e with
               | Some handler => handler w'
               | None => (Raise e, w')
               end
           end.

(** [test_ip(ip, timeout)]: [None] on timeout, [(str(ip), elapsed)] otherwise. *)
Definition test_ip (ip : IPv4Address) (timeout : pyfloat) : Py (option (string * Q)) :=
  start <- time.monotonic ;;
  try_except_else
    (requests.get ("http://" +:+ ipaddress.str ip) timeout)
    (fun e =>
       if is_Timeout e then Some (ret None)
       else if is_Exception e then
         Some (now <- time.monotonic ;;
               let elapsed := (now - start)%Q in
               ret (Some (ipaddress.str ip, elapsed)))
       else None)
    (fun _ =>
       now <- time.monotonic ;;
       let elapsed := (now - start)%Q in
       ret (Some (ipaddress.str ip, elapsed))).

(** ** ProbeScheduler *)

Module futures.

(** A [ThreadPoolExecutor]: the outcomes of the tasks submitted so far.
    A [Future] is the index of its task. *)
Record Executor (A : Type) : Type := mkExecutor {
  max_workers : Z;
  outcomes : list (outcome A)
}.
Arguments mkExecutor {A}.
Arguments max_workers {A}.
Arguments outcomes {A}.

(** [ThreadPoolExecutor(max_workers=n)]. *)
Definition ThreadPoolExecutor {A} (n : Z) : Py (Executor A) :=
  if n <=? 0 then raise ValueError else ret (mkExecutor n []).

(** [executor.submit(task)].  The task runs on a worker thread, against
    the world as it is when that worker starts it; its return value or
    exception is kept in the future.  Of the task's own passage through
    the world only the outcome is kept: the tasks of this program change
    nothing but the clock. *)
Definition submit {A} (executor : Executor A) (task : Py A) : Py (Executor A * nat) :=
  fun w =>
    let i := length (outcomes executor) in
    let r := fst (task (set_monotonic_clock (worker_start w i) w)) in
    (Ok (mkExecutor (max_workers executor) (outcomes executor ++ [r]), i), w).

(** [future.result()]. *)
Definition result {A} (executor : Executor A) (future : nat) : Py A :=
  match outcomes executor !! future with
  | Some r => lift r
  | None => raise IndexError
  end.

(** [as_completed(fs)]: every future of [fs], each once, in the order
    they complete; [choose i] picks which pending future is the [i]-th to
    complete. *)
Fixpoint completion (fuel : nat) (pending : list nat) (choose : nat -> nat) (i : nat) : list nat :=
  match fuel with
  | O => []
  | S fuel' =>
      let j := (choose i mod length pending)%nat in
      match pending !! j with
      | Some f => f :: completion fuel' (delete j pending) choose (S i)
      | None => []
      end
  end.

Definition as_completed (fs : list nat) : Py (list nat) :=
  fun w => (Ok (completion (length fs) fs (next_completed w) 0), w).

End futures.

Module tqdm.

(** A progress bar: its total, its counter and the postfix it shows. *)
Record bar : Type := mkBar {
  total : nat;
  n : nat;
  postfix : list (string * string)
}.

(** [tqdm(total=total, desc=...)]. *)
Definition new (total : nat) : bar := mkBar total 0 [].

(** [pbar.set_postfix(ip=..., time=...)]. *)
Definition set_postfix (ip time : string) (pbar : bar) : bar :=
  mkBar (total pbar) (n pbar) [("ip", ip); ("time", time)].

(** [pbar.update()]. *)
Definition update (pbar : bar) : bar :=
  mkBar (total pbar) (S (n pbar)) (postfix pbar).

End tqdm.

(** [d[k]]. *)
Definition getitem {V} (d : gmap nat V) (k : nat) : Py V :=
  match d !! k with
  | Some v => ret v
  | None => raise IndexError
  end.

(** The body of [for future in as_completed(futures_map)]. *)
Definition on_completed (executor : futures.Executor (option (string * Q)))
    (futures_map : gmap nat IPv4Address) (future : nat)
    (st : list (string * Q) * tqdm.bar) : Py (list (string * Q) * tqdm.bar) :=
  let responsive := fst st in
  let pbar := snd st in
  ip <- getitem futures_map future ;;
  result <- futures.result executor future ;;
  match result with
  | Some (ip_str, elapsed) =>
      ret (responsive ++ [(ip_str, elapsed)],
           tqdm.update (tqdm.set_postfix ip_str (pystr.format_2f elapsed +:+ "s") pbar))
  | None =>
      ret (responsive, tqdm.update (tqdm.set_postfix (ipaddress.str ip) "timeout" pbar))
  end.

(** The submissions of [check_ips]: [futures_map[executor.submit(test_ip, ip, timeout)] = ip]. *)
Definition submit_all (ips : list IPv4Address) (timeout : pyfloat)
    (executor : futures.Executor (option (string * Q))) :
    Py (futures.Executor (option (string * Q)) * gmap nat IPv4Address) :=
  for_each ips
    (fun ip st =>
       r <- futures.submit (fst st) (test_ip ip timeout) ;;
       ret (fst r, <[snd r := ip]> (snd st)))
    (executor, ∅).

(** The successive values of [acc] in [for x in xs: acc = body(x, acc)],
    the initial one first. *)
Fixpoint for_each_trace {A S} (xs : list A) (body : A -> S -> Py S) (acc : S) : Py (list S) :=
  match xs with
  | [] => ret [acc]
  | x :: xs' =>
      acc' <- body x acc ;;
      rest <- for_each_trace xs' body acc' ;;
      ret (acc :: rest)
  end.

(** What [check_ips] has in hand when it enters its loop. *)
Record batch : Type := mkBatch {
  executor : futures.Executor (option (string * Q));
  futures_map : gmap nat IPv4Address;
  pbar : tqdm.bar;
  completed : list nat
}.

(** [check_ips] up to its loop: the pool, the submissions, the progress
    bar, and the futures as [as_completed] will yield them. *)
Definition check_ips_begin (ips : list IPv4Address) (workers : Z) (timeout : pyfloat) : Py batch :=
  executor <- futures.ThreadPoolExecutor workers ;;
  st <- submit_all ips timeout executor ;;
  let executor := fst st in
  let futures_map := snd st in
  let pbar := tqdm.new (size futures_map) in
  order <- futures.as_completed (elements (dom futures_map)) ;;
  ret (mkBatch executor futures_map pbar order).

(** [check_ips(ips, workers, timeout)], with the progress bar as it is when
    the function returns. *)
Definition check_ips_bar (ips : list IPv4Address) (workers : Z) (timeout : pyfloat) :
    Py (list (string * Q) * tqdm.bar) :=
  b <- check_ips_begin ips workers timeout ;;
  for_each (completed b) (on_completed (executor b) (futures_map b)) ([], pbar b).

(** [check_ips(ips, workers, timeout)]. *)
Definition check_ips (ips : list IPv4Address) (workers : Z) (timeout : pyfloat) :
    Py (list (string * Q)) :=
  st <- check_ips_bar ips workers timeout ;;
  ret (fst st).

(** The same run, observed: the responsive list and the progress bar
    before the loop and after each of its rounds. *)
Definition check_ips_progress (ips : list IPv4Address) (workers : Z) (timeout : pyfloat) :
    Py (list (list (string * Q) * tqdm.bar)) :=
  b <- check_ips_begin ips workers timeout ;;
  for_each_trace (completed b) (on_completed (executor b) (futures_map b)) ([], pbar b).

(** ** Terminal, files, CSV *)

(** [print(s)]. *)
Definition print (s : string) : Py unit :=
  fun w => (Ok tt, set_stdout (stdout w ++ [s +:+ pystr.newline]) w).

(** [input(prompt)]. *)
Definition input (prompt : string) : Py string :=
  fun w =>
    let w' := set_stdout (stdout w ++ [prompt]) w in
    match stdin w with
    | [] => (Raise EOFError, w')
    | line :: rest => (Ok line, set_stdin rest w')
    end.

(** [sys.exit(code)]. *)
Definition sys_exit {A} (code : Z) : Py A := raise (SystemExit code).

(** [with open(filename, "w", newline='') as f: f.write(content)]; opening
    for writing is taken to succeed. *)
Definition write_file (filename content : string) : Py unit :=
  fun w => (Ok tt, set_files (written w ++ [(filename, content)])
                             (<[filename := content]> (files w)) w).

Module csv.

Definition quotechar : ascii := ascii_of_nat 34.

(** A field is quoted when it holds the delimiter, the quote character or
    a character of the line terminator. *)
Definition needs_quoting (field : string) : bool :=
  existsb (fun c => Ascii.eqb c "," || Ascii.eqb c quotechar
                    || Ascii.eqb c (ascii_of_nat 13) || Ascii.eqb c (ascii_of_nat 10))
          (list_ascii_of_string field).

(** The quote character is doubled inside a quoted field. *)
Fixpoint escape (field : string) : string :=
  match field with
  | EmptyString => EmptyString
  | String c rest =>
      if Ascii.eqb c quotechar then String c (String c (escape rest))
      else String c (escape rest)
  end.

Definition render_field (field : string) : string :=
  if needs_quoting field
  then String quotechar (escape field) +:+ String quotechar EmptyString
  else field.

(** What [writer.writerow(fields)] appends to the file. *)
Definition writerow (fields : list string) : string :=
  pystr.join "," (map render_field fields) +:+ pystr.crlf.

End csv.

(** ** Provider fetch *)

(** [str(e)] for the exceptions the fetch reports.  The wording of the
    library is not carried: one text per kind of exception stands for it,
    and no statement speaks of the text. *)
Definition str_exn (e : exn) : string :=
  match e with
  | RequestsTimeout => "timed out"
  | RequestsConnectionError => "connection error"
  | HTTPError => "HTTP error"
  | JSONDecodeError => "invalid JSON"
  | _ => "error"
  end.

(** [fetch_bunny_ips()]. *)
Definition fetch_bunny_ips : Py json :=
  try_except
    (response <- requests.get "https://bunnycdn.com/api/system/edgeserverlist" 10 ;;
     requests.raise_for_status response ;;
     requests.json_of response)
    is_Exception
    (fun e =>
       print ("Error fetching Bunny CDN IPs: " +:+ str_exn e) ;;
       ret (JArr [])).

(** ** main *)

Definition FASTLY_CIDRS : list string := [
  "103.244.50.0/24"; "103.245.222.0/23"; "103.245.224.0/24";
  "104.156.80.0/20"; "146.75.0.0/16"; "151.101.0.0/16";
  "157.52.64.0/18"; "167.82.0.0/17"; "167.82.128.0/20";
  "167.82.160.0/20"; "167.82.224.0/20"; "172.111.64.0/18";
  "185.31.16.0/22"; "199.232.0.0/16"; "199.27.72.0/21";
  "23.235.32.0/20"; "43.249.72.0/22"
].

Definition CLOUDFLARE_CIDRS : list string := [
  "103.21.244.0/22"; "103.22.200.0/22"; "103.31.4.0/22";
  "104.16.0.0/13"; "104.24.0.0/14"; "108.162.192.0/18";
  "131.0.72.0/22"; "141.101.64.0/18"; "162.158.0.0/15";
  "172.64.0.0/13"; "173.245.48.0/20"; "188.114.96.0/20";
  "190.93.240.0/20"; "197.234.240.0/22"; "198.41.128.0/17"
].

(** [datetime.now().strftime("%Y%m%d_%H%M%S")], for years of four digits. *)
Definition strftime (d : datetime) : string :=
  pystr.zfill 4 (pystr.str_of_int (year d)) +:+ pystr.zfill 2 (pystr.str_of_int (month d))
  +:+ pystr.zfill 2 (pystr.str_of_int (day d)) +:+ "_"
  +:+ pystr.zfill 2 (pystr.str_of_int (hour d)) +:+ pystr.zfill 2 (pystr.str_of_int (minute d))
  +:+ pystr.zfill 2 (pystr.str_of_int (second d)).

Definition datetime_now : Py datetime := fun w => (Ok (wall_clock w), w).

Definition multiprocessing_cpu_count : Py Z := fun w => (Ok (cpu_count w), w).

(** The name of the output file: [f"responsive_ips_{choice}_{now_str}.csv"]. *)
Definition output_filename (choice now_str : string) : string :=
  "responsive_ips_" +:+ choice +:+ "_" +:+ now_str +:+ ".csv".

(** The rows [main] hands to the CSV writer. *)
Definition csv_rows (responsive : list (string * Q)) : list (list string) :=
  ["ip"; "response_time_s"]
    :: map (fun r => [fst r; pystr.format_2f (snd r)]) responsive.

Definition csv_content (responsive : list (string * Q)) : string :=
  String.concat EmptyString (map csv.writerow (csv_rows responsive)).

Section Main.

(** [float(s)] ([None]: a [ValueError]) and [str(x)] for a float [x] are
    left to the interpreter. *)
Variable float_of_string : string -> option pyfloat.
Variable str_of_float : pyfloat -> string.

(** The end of [main]: what is done with the responsive addresses. *)
Definition report (choice : string) (responsive : list (string * Q)) (timeout : pyfloat)
    : Py unit :=
  now <- datetime_now ;;
  let now_str := strftime now in
  let filename := output_filename choice now_str in
  match responsive with
  | _ :: _ =>
      print (pystr.newline +:+ "Responsive IPs and timings:") ;;
      for_each responsive
        (fun r _ => print (fst r +:+ ", " +:+ pystr.format_2f (snd r) +:+ "s")) tt ;;
      write_file filename (csv_content responsive) ;;
      print (pystr.newline +:+ "Saved responsive IPs to " +:+ filename)
  | [] =>
      print (pystr.newline +:+ "No IPs responded within " +:+ str_of_float timeout
             +:+ " second(s).")
  end.

(** The prompt for the count: a positive integer or exit status 1. *)
Definition read_count : Py Z :=
  try_except
    (line <- input "Enter number of IPs to check: " ;;
     count <- lift (pystr.int_of_string line) ;;
     if count <=? 0 then raise ValueError else ret count)
    is_ValueError
    (fun _ => print "Please enter a positive integer for count." ;; sys_exit 1).

(** The prompt for the number of workers. *)
Definition read_workers : Py Z :=
  cpu_cores <- multiprocessing_cpu_count ;;
  let recommended := cpu_cores in
  line <- input ("Enter number of worker threads [recommended "
                 +:+ pystr.str_of_int recommended +:+ "]: ") ;;
  let worker_input := pystr.strip line in
  if String.eqb worker_input EmptyString then ret recommended
  else
    try_except
      (workers <- lift (pystr.int_of_string worker_input) ;;
       if workers <=? 0 then raise ValueError else ret workers)
      is_ValueError
      (fun _ => print "Invalid worker count; using recommended value." ;; ret recommended).

(** The prompt for the timeout. *)
Definition read_timeout : Py pyfloat :=
  line <- input "Enter timeout in seconds [default 1]: " ;;
  let timeout_input := pystr.strip line in
  if String.eqb timeout_input EmptyString then ret (Finite 1)
  else
    try_except
      (match float_of_string timeout_input with
       | Some timeout => if float_le_zero timeout then raise ValueError else ret timeout
       | None => raise ValueError
       end)
      is_ValueError
      (fun _ => print "Invalid timeout; using default of 1 second." ;; ret (Finite 1)).

(** The pool [main] settles on: [networks] for the CIDR tables, [ip_list]
    for the fetched list; the other one is [None]. *)
Definition select_pool (choice : string) : Py (option (list IPv4Network) * option json) :=
  if String.eqb choice "bunny" then
    print "Fetching Bunny CDN IP addresses..." ;;
    bunny_ips <- fetch_bunny_ips ;;
    if negb (truthy bunny_ips) then
      print "Failed to fetch Bunny CDN IPs. Exiting." ;; sys_exit 1
    else
      len <- lift (py_len bunny_ips) ;;
      print ("Fetched " +:+ pystr.str_of_int (Z.of_nat len) +:+ " Bunny CDN IP addresses.") ;;
      ret (None, Some bunny_ips)
  else
    let cidr_list := if String.eqb choice "fastly" then FASTLY_CIDRS else CLOUDFLARE_CIDRS in
    networks <- comprehension (fun c => lift (ipaddress.IPv4Network_of_string c)) cidr_list ;;
    ret (Some networks, None).

(** [main()]. *)
Definition main : Py unit :=
  line <- input "Which network to test? [fastly/cloudflare/bunny]: " ;;
  let choice := pystr.lower (pystr.strip line) in
  if negb (existsb (String.eqb choice) ["fastly"; "cloudflare"; "bunny"]) then
    print "Please enter 'fastly', 'cloudflare', or 'bunny'." ;; sys_exit 1
  else
    pool <- select_pool choice ;;
    count <- read_count ;;
    workers <- read_workers ;;
    timeout <- read_timeout ;;
    ips_to_test <-
      (if String.eqb choice "bunny" then
         match snd pool with
         | Some ip_list => generate_random_ips_from_list ip_list count
         | None => raise TypeError
         end
       else
         match fst pool with
         | Some networks => generate_random_ips networks count
         | None => raise TypeError
         end) ;;
    responsive <- check_ips ips_to_test workers timeout ;;
    report choice responsive timeout.

End Main.


(** ** Vocabulary of the specification *)

(** How an address sampled from a block sits in it: strictly between the
    network and the broadcast address when the block has more than two
    addresses, on the network address otherwise. *)
Definition sampled_from (net : IPv4Network) (addr : IPv4Address) : Prop :=
  if 2 <? num_addresses net
  then ip_int (network_address net) < ip_int addr < ip_int (broadcast_address net)
  else addr = network_address net.

(** What the loop of [generate_random_ips] computes for a drawn block: the
    network address plus an offset, drawn in [[1, num_addresses - 2]] when
    the block has more than two addresses and [0] otherwise. *)
Definition drawn_from (net : IPv4Network) (addr : IPv4Address) : Prop :=
  exists offset,
    (if 2 <? num_addresses net then 1 <= offset <= num_addresses net - 2 else offset = 0) /\
    addr = mkAddr (ip_int (network_address net) + offset).

(** [addr] is [net.network_address + offset] for an offset between [0] and
    [bound]. *)
Definition offset_within (bound : Z) (net : IPv4Network) (addr : IPv4Address) : Prop :=
  exists offset, 0 <= offset <= bound /\
                 ip_int addr = ip_int (network_address net) + offset.

(** A computation that touches nothing of the world but the generator of
    module [random], and whose result is a function of that generator's
    state alone. *)
Definition random_only {A} (m : Py A) : Prop :=
  exists f : RandomState -> outcome A * RandomState,
    forall w, m w = (fst (f (random_state w)), set_random_state (snd (f (random_state w))) w).

(** Worlds to run the program in. *)
Definition sample_tape (i : nat) : Z := 7919 * Z.of_nat i + 13.

Definition quiet_network (url : string) (timeout : pyfloat) (issued : Q) : Reply :=
  mkReply ConnectionRefused (1 # 8).

Definition sample_world : World :=
  mkWorld (mkRandom sample_tape 0) 0 quiet_network [] [] [] ∅
          (mkDatetime 2024 3 9 7 5 30) 4 (fun _ => 0%Q) (fun i => i).

(** Pools to run the sampler on. *)
Definition small_pool : list IPv4Network :=
  [mkNet (mkAddr 167772160) 24; mkNet (mkAddr 167772416) 31].

Definition host_block : IPv4Network := mkNet (mkAddr 16909060) 32.

(** The elements of a flat pool converted to typed addresses, in order. *)
Definition typed_addresses (items : list json) (addrs : list IPv4Address) : Prop :=
  Forall2 (fun x a => ipaddress.IPv4Address_new x = Ok a) items addrs.

Definition twice_listed : list json := [JStr "1.2.3.4"; JStr "1.2.3.4"].
Definition two_listed : list json := [JStr "1.2.3.4"; JStr "5.6.7.8"].


(** The outcome of the probe behind the [f]-th future of a batch: the
    result of [test_ip] on the [f]-th address, run when its worker starts. *)
Definition probe_outcome (ips : list IPv4Address) (timeout : pyfloat) (w : World) (f : nat)
    : option (outcome (option (string * Q))) :=
  match ips !! f with
  | Some ip => Some (fst (test_ip ip timeout (set_monotonic_clock (worker_start w f) w)))
  | None => None
  end.

(** What that probe adds to the result set: its pair when it responded,
    nothing when it timed out. *)
Definition responded (ips : list IPv4Address) (timeout : pyfloat) (w : World) (f : nat)
    : option (string * Q) :=
  match probe_outcome ips timeout w f with
  | Some (Ok (Some r)) => Some r
  | _ => None
  end.

(** A network on which one address never answers and the others answer
    with an error status. *)
Definition patchy_network (url : string) (timeout : pyfloat) (issued : Q) : Reply :=
  if String.eqb url "http://10.0.0.2"
  then mkReply NoAnswerInTime (match timeout with Finite t => t | _ => 1 end)
  else mkReply (Answered (mkResponse 404 None)) (1 # 8).

Definition patchy_world : World :=
  mkWorld (mkRandom sample_tape 3) (5 # 2) patchy_network ["bunny"; "7"] ["booting"] []
          ∅ (mkDatetime 2024 3 9 7 5 30) 2 (fun i => inject_Z (Z.of_nat i)) (fun i => (2 * i + 1)%nat).

Definition three_addresses : list IPv4Address :=
  [mkAddr 167772161; mkAddr 167772162; mkAddr 167772163].

Definition late_world : World :=
  mkWorld (mkRandom sample_tape 0) (7 # 3) patchy_network ["x"] ["y"] [] ∅
          (mkDatetime 1999 12 31 23 59 59) 64 (fun _ => 1%Q) (fun _ => 0%nat).

(** A clock reading [strftime] renders on fifteen characters. *)
Definition four_digit_year (d : datetime) : Prop :=
  1000 <= year d <= 9999 /\ 1 <= month d <= 12 /\ 1 <= day d <= 31 /\
  0 <= hour d <= 23 /\ 0 <= minute d <= 59 /\ 0 <= second d <= 59.

(** The text of a number with two decimals: an optional sign, digits, a
    point, two digits. *)
Definition two_decimals (s : string) : Prop :=
  exists sign int_part frac,
    s = sign +:+ int_part +:+ "." +:+ frac /\
    (sign = EmptyString \/ sign = "-") /\
    pystr.isdigit int_part = true /\
    pystr.isdigit frac = true /\
    String.length frac = 2%nat.

(** The number a text with two decimals denotes: an optional minus sign, an
    integer part, a point and two digits of hundredths. *)
Definition decimal_value (s : string) : option Q :=
  let '(negative, body) :=
    match s with
    | String c b => if Ascii.eqb c "-" then (true, b) else (false, s)
    | EmptyString => (false, s)
    end in
  match pystr.split "." body with
  | [int_part; frac] =>
      if pystr.isdigit int_part && pystr.isdigit frac && (String.length frac =? 2)%nat
      then let v := (inject_Z (pystr.int_of_digits int_part)
                     + inject_Z (pystr.int_of_digits frac) / 100)%Q in
           Some (if negative then (- v)%Q else v)
      else None
  | _ => None
  end.

(** Reading [k] digits at the head of a text: their value and the rest. *)
Fixpoint read_digits (k : nat) (s : string) (acc : Z) : option (Z * string) :=
  match k with
  | O => Some (acc, s)
  | S k' =>
      match s with
      | String c s' =>
          if pystr.is_digit c then read_digits k' s' (10 * acc + pystr.digit_value c)
          else None
      | EmptyString => None
      end
  end.

(** The clock reading a stamp [YYYYMMDD_HHMMSS] denotes. *)
Definition stamp_value (s : string) : option datetime :=
  match read_digits 4 s 0 with
  | Some (y, s1) =>
  match read_digits 2 s1 0 with
  | Some (mo, s2) =>
  match read_digits 2 s2 0 with
  | Some (d, String "_" s3) =>
  match read_digits 2 s3 0 with
  | Some (h, s4) =>
  match read_digits 2 s4 0 with
  | Some (mi, s5) =>
  match read_digits 2 s5 0 with
  | Some (se, EmptyString) => Some (mkDatetime y mo d h mi se)
  | _ => None
  end
  | None => None
  end
  | None => None
  end
  | _ => None
  end
  | None => None
  end
  | None => None
  end.

(** A world in which the probed host sends the head of its response and
    then lets the body stall until the read timeout has elapsed. *)
Definition stalling_network (url : string) (timeout : pyfloat) (issued : Q) : Reply :=
  mkReply StalledInBody (match timeout with Finite t => t + (1 # 100) | _ => 1 end).

Definition stalling_world : World :=
  mkWorld (mkRandom sample_tape 0) 0 stalling_network [] [] [] ∅
          (mkDatetime 2024 3 9 7 5 30) 4 (fun _ => 0%Q) (fun i => i).

(** A world in which the provider answers with a JSON object. *)
Definition refusal : json := JObj [("Message", JStr "Unauthorized")].

Definition object_network (url : string) (timeout : pyfloat) (issued : Q) : Reply :=
  mkReply (Answered (mkResponse 200 (Some refusal))) (1 # 4).

Definition object_world : World :=
  mkWorld (mkRandom sample_tape 0) 0 object_network ["bunny"; "1"; ""; ""] [] [] ∅
          (mkDatetime 2024 3 9 7 5 30) 4 (fun _ => 0%Q) (fun i => i).

(** ** Vocabulary of the whole run *)

(** What the prompts of [main] leave alone: the files, the wall clock and
    the number of cores. *)
Definition host_unchanged (w w' : World) : Prop :=
  written w' = written w /\ files w' = files w /\
  wall_clock w' = wall_clock w /\ cpu_count w' = cpu_count w.

(** What the prompts and the fetch leave alone besides: the generator, the
    network and the thread pool. *)
Definition outside_unchanged (w w' : World) : Prop :=
  host_unchanged w w' /\ random_state w' = random_state w /\
  network w' = network w /\ worker_start w' = worker_start w.

(** The failures of the provider fetch, read on the wire. *)
Definition fetch_failed (x : wire) : Prop :=
  match x with
  | Answered response => 400 <= status_code response < 600 \/ body_json response = None
  | _ => True
  end.

(** The provider's endpoint. *)
Definition edgeserverlist : string := "https://bunnycdn.com/api/system/edgeserverlist".

(** A world in which the provider lists three addresses and a user asks
    for two of them. *)
Definition listed : list json := [JStr "10.0.0.1"; JStr "10.0.0.2"; JStr "10.0.0.3"].

Definition listing_network (url : string) (timeout : pyfloat) (issued : Q) : Reply :=
  if String.eqb url edgeserverlist then mkReply (Answered (mkResponse 200 (Some (JArr listed)))) (1 # 4)
  else patchy_network url timeout issued.

Definition listing_world : World :=
  mkWorld (mkRandom sample_tape 0) 0 listing_network [" Bunny "; "2"; ""; "abc"] [] [] ∅
          (mkDatetime 2024 3 9 7 5 30) 4 (fun _ => 0%Q) (fun i => i).

(** A world in which a user asks for three Fastly addresses. *)
Definition fastly_world : World :=
  mkWorld (mkRandom sample_tape 0) 0 patchy_network ["FASTLY"; " 3 "; "0"; "0.5"] [] [] ∅
          (mkDatetime 2024 3 9 7 5 30) 4 (fun _ => 0%Q) (fun i => i).

(** A count followed by the unit separator U+001F, which [str.strip]
    removes and [int] refuses. *)
Definition separated_count : string :=
  String "1" (String "2" (String (ascii_of_nat 31) EmptyString)).

(** [float(s)] on the few texts the sample runs type. *)
Definition sample_float (s : string) : option pyfloat :=
  if String.eqb s "0.5" then Some (Finite (1 # 2))
  else if String.eqb s "-2" then Some (Finite (-2))
  else if String.eqb s "nan" then Some NaN
  else None.

(** What the timeout prompt makes of a typed line, in the words of the
    specification: the default on a blank line, on a text that is not a
    float and on a float [<= 0]; the float typed otherwise. *)
Definition typed_timeout (float_of_string : string -> option pyfloat) (line : string) : pyfloat :=
  if String.eqb (pystr.strip line) EmptyString then Finite 1
  else match float_of_string (pystr.strip line) with
       | Some timeout => if float_le_zero timeout then Finite 1 else timeout
       | None => Finite 1
       end.

(** The patchy world with another scheduling of the completions. *)
Definition reordered_world : World :=
  mkWorld (mkRandom sample_tape 9) (5 # 2) patchy_network [] [] []
          ∅ (mkDatetime 2025 1 1 0 0 0) 8 (fun i => inject_Z (Z.of_nat i)) (fun _ => 0%nat).

(** An entry that [IPv4Address] refuses. *)
Definition unconvertible (x : json) : Prop :=
  forall a, ipaddress.IPv4Address_new x <> Ok a.

Definition mixed_listing : list json := [JStr "10.0.0.1"; JStr "2001:db8::1"].

(** [main] from the count prompt on, with the sampler it has settled on. *)
Definition run_with (float_of_string : string -> option pyfloat)
    (str_of_float : pyfloat -> string)
    (choice : string) (sampler : Z -> Py (list IPv4Address)) : Py unit :=
  count <- read_count ;;
  workers <- read_workers ;;
  timeout <- read_timeout float_of_string ;;
  ips_to_test <- sampler count ;;
  responsive <- check_ips ips_to_test workers timeout ;;
  report str_of_float choice responsive timeout.

(** The sampler of [main] for a pool: the flat list for [bunny], the CIDR
    table otherwise. *)
Definition sampler_of (choice : string) (pool : option (list IPv4Network) * option json)
    (count : Z) : Py (list IPv4Address) :=
  if String.eqb choice "bunny" then
    match snd pool with
    | Some ip_list => generate_random_ips_from_list ip_list count
    | None => raise TypeError
    end
  else
    match fst pool with
    | Some networks => generate_random_ips networks count
    | None => raise TypeError
    end.

(** What a run leaves in the log of written files: nothing when no address
    responded, the CSV file otherwise. *)
Definition output_of (choice : string) (now : datetime) (responsive : list (string * Q))
    : list (string * string) :=
  match responsive with
  | [] => []
  | _ :: _ => [(output_filename choice (strftime now), csv_content responsive)]
  end.

(** * Properties *)

(** ** Networks: masks, size, membership *)

Section Networks.

Variable net : IPv4Network.
Hypothesis Hwf : wf_network net.

Let h := 32 - prefixlen net.

Lemma ALL_ONES_ones : ipaddress.ALL_ONES = Z.ones 32.
Proof. reflexivity. Qed.

Lemma hostmask_shiftr : hostmask net = Z.shiftr ipaddress.ALL_ONES (prefixlen net).
Proof.
  unfold hostmask, netmask.
  rewrite (Z.lxor_comm ipaddress.ALL_ONES), Z.lxor_assoc, Z.lxor_nilpotent.
  apply Z.lxor_0_r.
Qed.

Lemma hostmask_ones : hostmask net = Z.ones h.
Proof.
  destruct Hwf as [Hp _]. unfold ipaddress.max_prefixlen in Hp.
  rewrite hostmask_shiftr, ALL_ONES_ones. apply Z.bits_inj'; intros i Hi.
  rewrite Z.shiftr_spec by lia.
  rewrite !Z.testbit_ones_nonneg by (subst h; lia).
  subst h. destruct (Z.ltb_spec (i + prefixlen net) 32), (Z.ltb_spec i (32 - prefixlen net)); lia.
Qed.

Lemma netmask_bits i :
  0 <= i -> Z.testbit (netmask net) i = (h <=? i) && (i <? 32).
Proof.
  intros Hi. destruct Hwf as [Hp _]. unfold ipaddress.max_prefixlen in Hp.
  unfold netmask. rewrite Z.lxor_spec, <- hostmask_shiftr, hostmask_ones, ALL_ONES_ones.
  rewrite !Z.testbit_ones_nonneg by (subst h; lia).
  subst h. destruct (Z.ltb_spec i 32), (Z.ltb_spec i (32 - prefixlen net)),
    (Z.leb_spec (32 - prefixlen net) i); simpl; lia.
Qed.

Lemma network_host_bits_clear :
  Z.land (ip_int (network_address net)) (hostmask net) = 0.
Proof.
  destruct Hwf as (Hp & _ & Hn). unfold ipaddress.max_prefixlen in Hp.
  rewrite <- Hn, <- Z.land_assoc.
  replace (Z.land (netmask net) (hostmask net)) with 0; [apply Z.land_0_r|].
  symmetry. apply Z.bits_inj'; intros i Hi.
  rewrite Z.land_spec, netmask_bits, hostmask_ones, Z.testbit_ones_nonneg, Z.bits_0
    by (subst h; lia).
  destruct (Z.leb_spec h i), (Z.ltb_spec i h); simpl;
    rewrite ?andb_false_r; try reflexivity; lia.
Qed.

Lemma broadcast_address_add :
  ip_int (broadcast_address net) = ip_int (network_address net) + (2 ^ h - 1).
Proof.
  unfold broadcast_address; simpl.
  rewrite <- Z.lxor_lor, <- Z.add_nocarry_lxor by apply network_host_bits_clear.
  rewrite hostmask_ones, Z.ones_equiv. lia.
Qed.

Lemma num_addresses_pow2 : num_addresses net = 2 ^ h.
Proof. unfold num_addresses. rewrite broadcast_address_add. lia. Qed.

Lemma num_addresses_pos : 1 <= num_addresses net.
Proof.
  rewrite num_addresses_pow2. destruct Hwf as [Hp _]. unfold ipaddress.max_prefixlen in Hp.
  assert (0 < 2 ^ h) by (apply Z.pow_pos_nonneg; subst h; lia). lia.
Qed.

Lemma broadcast_address_le_ALL_ONES :
  ip_int (broadcast_address net) <= ipaddress.ALL_ONES.
Proof.
  pose proof network_host_bits_clear as Hc.
  destruct Hwf as (Hp & [Ha0 Ha1] & _). unfold ipaddress.max_prefixlen in Hp.
  assert (Hh : 0 <= h) by (subst h; lia).
  rewrite hostmask_ones, Z.land_ones in Hc by lia.
  apply Z.mod_divide in Hc; [|apply Z.pow_nonzero; lia]. destruct Hc as [k Hk].
  rewrite broadcast_address_add, Hk. unfold ipaddress.ALL_ONES in *.
  assert (Hsplit : 2 ^ 32 = 2 ^ prefixlen net * 2 ^ h).
  { rewrite <- Z.pow_add_r by lia. f_equal. subst h; lia. }
  assert (0 < 2 ^ h) by (apply Z.pow_pos_nonneg; lia).
  assert (0 < 2 ^ prefixlen net) by (apply Z.pow_pos_nonneg; lia).
  rewrite Hsplit in *.
  generalize dependent (2 ^ h); generalize dependent (2 ^ prefixlen net); intros P HP X.
  intros. assert (k < P) by nia. nia.
Qed.

(** Adding an offset below the block size stays inside the block. *)
Lemma contains_add offset :
  0 <= offset < num_addresses net ->
  ipaddress.contains net (mkAddr (ip_int (network_address net) + offset)) = true.
Proof.
  intros Hoff. rewrite num_addresses_pow2 in Hoff.
  destruct Hwf as (Hp & [Ha0 Ha1] & Hn). unfold ipaddress.max_prefixlen in Hp.
  assert (Hh : 0 <= h) by (subst h; lia).
  unfold ipaddress.contains; simpl. apply Z.eqb_eq.
  assert (Hdisj : Z.land (ip_int (network_address net)) offset = 0).
  { apply Z.bits_inj'; intros i Hi. rewrite Z.land_spec, Z.bits_0.
    destruct (Z.lt_ge_cases i h).
    - pose proof network_host_bits_clear as Hc.
      apply (f_equal (fun z => Z.testbit z i)) in Hc.
      rewrite Z.land_spec, hostmask_ones, Z.testbit_ones_nonneg, Z.bits_0 in Hc by lia.
      destruct (Z.ltb_spec i h); [|lia]. rewrite andb_true_r in Hc. now rewrite Hc.
    - rewrite <- (Z.mod_small offset (2 ^ h)) by lia.
      rewrite Z.mod_pow2_bits_high by lia. apply andb_false_r. }
  rewrite Z.add_nocarry_lxor, Z.lxor_lor by exact Hdisj.
  rewrite Z.land_lor_distr_l, Hn.
  replace (Z.land offset (netmask net)) with 0; [apply Z.lor_0_r|].
  symmetry. apply Z.bits_inj'; intros i Hi. rewrite Z.land_spec, Z.bits_0, netmask_bits by lia.
  destruct (Z.lt_ge_cases i h).
  - destruct (Z.leb_spec h i); [lia|]. simpl. apply andb_false_r.
  - rewrite <- (Z.mod_small offset (2 ^ h)) by lia.
    now rewrite Z.mod_pow2_bits_high by lia.
Qed.

End Networks.


(** ** The constructors of [ipaddress] *)

Lemma digit_value_range c : pystr.is_digit c = true -> 0 <= pystr.digit_value c <= 9.
Proof.
  unfold pystr.is_digit, pystr.digit_value. intros Hc.
  apply andb_prop in Hc as [Hlo Hhi]. apply N.leb_le in Hlo, Hhi. lia.
Qed.

Lemma int_of_digits_nonneg s :
  pystr.isdigit s = true -> 0 <= pystr.int_of_digits s.
Proof.
  intros Hs. unfold pystr.int_of_digits.
  assert (Hcs : forallb pystr.is_digit (list_ascii_of_string s) = true)
    by (destruct s; [discriminate | exact Hs]).
  assert (Hgen : forall cs acc, forallb pystr.is_digit cs = true -> 0 <= acc ->
            0 <= fold_left (fun acc c => 10 * acc + pystr.digit_value c) cs acc).
  { induction cs as [|c cs IH]; intros acc Hall Hacc; [assumption|].
    cbn [forallb] in Hall. apply andb_prop in Hall as [Hc Hall].
    cbn [fold_left]. apply IH; [assumption|]. pose proof (digit_value_range c Hc). lia. }
  now apply Hgen.
Qed.

Lemma parse_octet_range s o : ipaddress.parse_octet s = Ok o -> 0 <= o <= 255.
Proof.
  unfold ipaddress.parse_octet. destruct (pystr.isdigit s) eqn:Hd; [|discriminate]. simpl.
  destruct (_ <? _)%nat; [discriminate|]. destruct (_ && _); [discriminate|].
  destruct (Z.ltb_spec 255 (pystr.int_of_digits s)); [discriminate|].
  intros [= <-]. pose proof (int_of_digits_nonneg s Hd). lia.
Qed.

Lemma IPv4Address_of_string_range s a :
  ipaddress.IPv4Address_of_string s = Ok a -> 0 <= ip_int a <= ipaddress.ALL_ONES.
Proof.
  unfold ipaddress.IPv4Address_of_string, ipaddress.ip_int_from_string.
  destruct (pystr.contains _ _); [discriminate|].
  destruct s as [|c0 s0]; [discriminate|].
  destruct (pystr.split "." (String c0 s0)) as [|o1 [|o2 [|o3 [|o4 [|? ?]]]]]; try discriminate.
  destruct (ipaddress.parse_octet o1) as [a1|] eqn:H1; [|discriminate].
  destruct (ipaddress.parse_octet o2) as [a2|] eqn:H2; [|discriminate].
  destruct (ipaddress.parse_octet o3) as [a3|] eqn:H3; [|discriminate].
  destruct (ipaddress.parse_octet o4) as [a4|] eqn:H4; [|discriminate].
  intros [= <-]. cbn [ip_int]. unfold ipaddress.ALL_ONES.
  apply parse_octet_range in H1, H2, H3, H4. lia.
Qed.

(** The networks [IPv4Network(...)] builds are well formed. *)
Lemma IPv4Network_of_string_wf s net :
  ipaddress.IPv4Network_of_string s = Ok net -> wf_network net.
Proof.
  unfold ipaddress.IPv4Network_of_string.
  destruct (pystr.split "/" s) as [|addr [|mask [|? ?]]]; try discriminate.
  - destruct (ipaddress.IPv4Address_of_string addr) as [a|] eqn:Ha; [|discriminate].
    intros [= <-]. apply IPv4Address_of_string_range in Ha.
    split; [unfold ipaddress.max_prefixlen; simpl; lia|]. split; [exact Ha|].
    cbn [network_address prefixlen].
    change (netmask (mkNet a ipaddress.max_prefixlen)) with (Z.ones 32).
    rewrite Z.land_ones by lia. apply Z.mod_small.
    unfold ipaddress.ALL_ONES in Ha. lia.
  - destruct (ipaddress.IPv4Address_of_string addr) as [a|] eqn:Ha; [|discriminate].
    unfold ipaddress.prefix_from_prefix_string.
    destruct (pystr.isdigit mask); [|discriminate]. simpl.
    destruct (Z.leb_spec 0 (pystr.int_of_digits mask)); [|discriminate].
    destruct (Z.leb_spec (pystr.int_of_digits mask) ipaddress.max_prefixlen); [|discriminate].
    simpl. destruct (Z.eqb_spec (Z.land (ip_int a) (netmask (mkNet a (pystr.int_of_digits mask))))
                                (ip_int a)) as [Hbits|]; [|discriminate].
    intros [= <-]. apply IPv4Address_of_string_range in Ha.
    split; [cbn [prefixlen]; lia|]. split; [exact Ha | exact Hbits].
Qed.

Lemma comprehension_networks cidrs networks w :
  comprehension (fun c => lift (ipaddress.IPv4Network_of_string c)) cidrs w = (Ok networks, w) ->
  Forall wf_network networks.
Proof.
  revert networks. induction cidrs as [|c cidrs IH]; intros networks.
  - intros [= <-]. constructor.
  - cbn [comprehension]. unfold bind at 1, lift at 1.
    destruct (ipaddress.IPv4Network_of_string c) as [net|] eqn:Hnet; [|discriminate].
    unfold bind at 1.
    destruct (comprehension _ cidrs w) as [[nets|] w1] eqn:Hrest; [|discriminate].
    unfold ret. intros [= <- <-]. constructor.
    + eapply IPv4Network_of_string_wf; eauto.
    + apply IH. reflexivity.
Qed.

(** Both tables of [main] are accepted by [IPv4Network]. *)
Lemma CIDR_tables_parse w :
  (exists networks,
     comprehension (fun c => lift (ipaddress.IPv4Network_of_string c)) FASTLY_CIDRS w
     = (Ok networks, w) /\ length networks = 17%nat) /\
  (exists networks,
     comprehension (fun c => lift (ipaddress.IPv4Network_of_string c)) CLOUDFLARE_CIDRS w
     = (Ok networks, w) /\ length networks = 15%nat).
Proof.
  split; eexists; (split; [vm_compute; reflexivity | reflexivity]).
Qed.

(** ** Running computations *)

Lemma random_state_set g w : random_state (set_random_state g w) = g.
Proof. reflexivity. Qed.

Lemma set_random_state_twice g g' w :
  set_random_state g' (set_random_state g w) = set_random_state g' w.
Proof. reflexivity. Qed.

Lemma set_random_state_same w : set_random_state (random_state w) w = w.
Proof. now destruct w. Qed.

Lemma bind_ok {A B} (m : Py A) (k : A -> Py B) w a w' :
  m w = (Ok a, w') -> bind m k w = k a w'.
Proof. unfold bind. now intros ->. Qed.

Lemma bind_raise {A B} (m : Py A) (k : A -> Py B) w e w' :
  m w = (Raise e, w') -> bind m k w = (Raise e, w').
Proof. unfold bind. now intros ->. Qed.

Lemma bind_inv_ok {A B} (m : Py A) (k : A -> Py B) w b w'' :
  bind m k w = (Ok b, w'') -> exists a w', m w = (Ok a, w') /\ k a w' = (Ok b, w'').
Proof.
  unfold bind. destruct (m w) as [[a|e] w']; [eauto | discriminate].
Qed.

(** ** Computations that only consume randomness *)

Lemma random_only_ret {A} (a : A) : random_only (ret a).
Proof.
  exists (fun g => (Ok a, g)). intros w; unfold ret; simpl. now rewrite set_random_state_same.
Qed.

Lemma random_only_raise {A} e : random_only (@raise A e).
Proof.
  exists (fun g => (Raise e, g)). intros w; unfold raise; simpl. now rewrite set_random_state_same.
Qed.

Lemma random_only_lift {A} (o : outcome A) : random_only (lift o).
Proof.
  exists (fun g => (o, g)). intros w; unfold lift; simpl. now rewrite set_random_state_same.
Qed.

Lemma random_only_bind {A B} (m : Py A) (k : A -> Py B) :
  random_only m -> (forall a, random_only (k a)) -> random_only (bind m k).
Proof.
  intros [f Hf] Hk.
  (* the continuation is run on some world carrying the generator state *)
  exists (fun g => match f g with
                   | (Ok a, g') => (fst (k a (set_random_state g' sample_world)),
                                    random_state (snd (k a (set_random_state g' sample_world))))
                   | (Raise e, g') => (Raise e, g')
                   end).
  intros w. unfold bind. rewrite Hf. destruct (f (random_state w)) as [[a|e] g']; simpl; [|reflexivity].
  destruct (Hk a) as [fk Hfk]. rewrite !Hfk; simpl. reflexivity.
Qed.

Lemma random_only_draw : random_only random.draw.
Proof.
  exists (fun g => (Ok (tape g (pos g)), mkRandom (tape g) (S (pos g)))). reflexivity.
Qed.

Lemma random_only_replicateM {A} (m : Py A) k :
  random_only m -> random_only (replicateM k m).
Proof.
  intros Hm. induction k as [|k IH]; simpl.
  - apply random_only_ret.
  - apply random_only_bind; [exact Hm|]. intros y.
    apply random_only_bind; [exact IH|]. intros ys. apply random_only_ret.
Qed.

Lemma random_only_comprehension {A B} (f : A -> Py B) xs :
  (forall x, random_only (f x)) -> random_only (comprehension f xs).
Proof.
  intros Hf. induction xs as [|x xs IH]; simpl.
  - apply random_only_ret.
  - apply random_only_bind; [apply Hf|]. intros y.
    apply random_only_bind; [exact IH|]. intros ys. apply random_only_ret.
Qed.

Lemma random_only_for_each {A S} (xs : list A) (body : A -> S -> Py S) acc :
  (forall x s, random_only (body x s)) -> random_only (for_each xs body acc).
Proof.
  intros Hb. revert acc. induction xs as [|x xs IH]; intros acc; simpl.
  - apply random_only_ret.
  - apply random_only_bind; [apply Hb|]. intros acc'. apply IH.
Qed.

Create HintDb random_only.
#[local] Hint Resolve random_only_ret random_only_raise random_only_lift random_only_draw : random_only.
#[local] Hint Extern 2 (random_only (bind _ _)) => apply random_only_bind; [|intro] : random_only.
#[local] Hint Extern 2 (random_only (replicateM _ _)) => apply random_only_replicateM : random_only.
#[local] Hint Extern 2 (random_only (comprehension _ _)) => apply random_only_comprehension; intro : random_only.
#[local] Hint Extern 2 (random_only (for_each _ _ _)) => apply random_only_for_each; intros : random_only.
#[local] Hint Extern 3 (random_only (if ?c then _ else _)) => destruct c : random_only.
#[local] Hint Extern 3 (random_only (match ?c with _ => _ end)) => destruct c : random_only.

Lemma random_only_random : random_only random.random.
Proof. unfold random.random. auto with random_only. Qed.

Lemma random_only_randbelow n : random_only (random.randbelow n).
Proof. unfold random.randbelow. auto with random_only. Qed.

Lemma random_only_item {A} (l : list A) i : random_only (random.item l i).
Proof. unfold random.item. auto with random_only. Qed.

#[local] Hint Resolve random_only_random random_only_randbelow random_only_item : random_only.

Lemma random_only_randint a b : random_only (random.randint a b).
Proof. unfold random.randint, random.randrange. auto with random_only. Qed.

Lemma random_only_choices {A} (population : list A) weights k :
  random_only (random.choices population weights k).
Proof. unfold random.choices. auto 7 with random_only. Qed.

Lemma random_only_sample_pool {A} k : forall (pool : list A) m,
  random_only (random.sample_pool k pool m).
Proof. induction k as [|k IH]; intros; simpl; auto 8 with random_only. Qed.

Lemma random_only_sample_set {A} k (population : list A) : forall selected,
  random_only (random.sample_set k population selected).
Proof.
  induction k as [|k IH]; intros; simpl; unfold random.draw_unselected;
    auto 8 with random_only.
Qed.

Lemma random_only_sample {A} (population : list A) k :
  random_only (random.sample population k).
Proof.
  unfold random.sample.
  destruct (negb _); [auto with random_only|].
  destruct (_ <=? _); [apply random_only_sample_pool | apply random_only_sample_set].
Qed.

#[local] Hint Resolve random_only_randint random_only_choices random_only_sample : random_only.

Lemma random_only_generate_random_ips networks count :
  random_only (generate_random_ips networks count).
Proof. unfold generate_random_ips. auto 8 with random_only. Qed.

Lemma random_only_generate_random_ips_from_list ip_list count :
  random_only (generate_random_ips_from_list ip_list count).
Proof.
  unfold generate_random_ips_from_list, sample_of. auto 8 with random_only.
Qed.

(** ** random.choices, random.randint *)

Lemma bisect_loop_bounds fuel a x : forall lo hi,
  (lo <= hi)%nat ->
  (lo <= random.bisect_loop fuel a x lo hi <= hi)%nat.
Proof.
  induction fuel as [|fuel IH]; intros lo hi Hle; cbn [random.bisect_loop]; [lia|].
  destruct (Nat.ltb_spec lo hi) as [Hlt|]; [|lia].
  assert (Hmid : (lo <= (lo + hi) / 2 < hi)%nat).
  { split.
    - apply Nat.div_le_lower_bound; lia.
    - apply Nat.Div0.div_lt_upper_bound; lia. }
  destruct (negb _).
  - pose proof (IH lo ((lo + hi) / 2)%nat (proj1 Hmid)). lia.
  - pose proof (IH (S ((lo + hi) / 2)) hi (proj2 Hmid)). lia.
Qed.

Lemma bisect_bounds a x hi : (random.bisect a x 0 hi <= hi)%nat.
Proof. unfold random.bisect. pose proof (bisect_loop_bounds (hi - 0) a x 0 hi). lia. Qed.

Lemma accumulate_from_length ws : forall acc,
  length (random.accumulate_from acc ws) = length ws.
Proof. induction ws as [|x ws IH]; intros acc; simpl; [reflexivity | now rewrite IH]. Qed.

Lemma accumulate_from_last ws : forall acc,
  ws <> [] -> Forall (fun x => 1 <= x) ws ->
  exists total, last (random.accumulate_from acc ws) = Some total /\ acc < total.
Proof.
  induction ws as [|x ws IH]; intros acc Hne Hpos; [congruence|].
  inversion Hpos as [|? ? Hx Hws]; subst. simpl.
  destruct ws as [|y ws].
  - exists (acc + x). simpl. split; [reflexivity | lia].
  - destruct (IH (acc + x)) as (total & Hlast & Hlt); [congruence | assumption |].
    exists total. split; [|lia].
    simpl in *. exact Hlast.
Qed.

Lemma replicateM_ok {A} (m : Py A) (P : A -> Prop) :
  (forall w, exists a w', m w = (Ok a, w') /\ P a) ->
  forall k w, exists l w', replicateM k m w = (Ok l, w') /\ length l = k /\ Forall P l.
Proof.
  intros Hm. induction k as [|k IH]; intros w; simpl.
  - exists [], w. repeat split. constructor.
  - destruct (Hm w) as (a & w1 & Ha & HP).
    destruct (IH w1) as (l & w2 & Hl & Hlen & HPl).
    exists (a :: l), w2. rewrite (bind_ok _ _ _ _ _ Ha), (bind_ok _ _ _ _ _ Hl).
    repeat split; simpl; [congruence | now constructor].
Qed.

Lemma item_ok {A} (l : list A) i w :
  (i < length l)%nat -> exists x, random.item l i w = (Ok x, w) /\ x ∈ l.
Proof.
  intros Hi. unfold random.item. destruct (lookup_lt_is_Some_2 l i Hi) as [x Hx].
  rewrite Hx. exists x. split; [reflexivity|]. eapply list_elem_of_lookup_2; eauto.
Qed.

Lemma randbelow_range n w :
  0 < n -> exists r w', random.randbelow n w = (Ok r, w') /\ 0 <= r < n.
Proof.
  intros Hn. unfold random.randbelow, random.draw, bind, ret.
  eexists _, _. split; [reflexivity|]. apply Z.mod_pos_bound. lia.
Qed.

Lemma randint_range a b w :
  a <= b -> exists r w', random.randint a b w = (Ok r, w') /\ a <= r <= b.
Proof.
  intros Hab. unfold random.randint, random.randrange.
  destruct (Z.ltb_spec 0 (b + 1 - a)); [|lia].
  destruct (randbelow_range (b + 1 - a) w) as (r & w' & Hr & Hrange); [lia|].
  exists (a + r), w'. rewrite (bind_ok _ _ _ _ _ Hr). split; [reflexivity | lia].
Qed.

Lemma randint_empty a b w : b < a -> random.randint a b w = (Raise ValueError, w).
Proof.
  intros Hab. unfold random.randint, random.randrange.
  destruct (Z.ltb_spec 0 (b + 1 - a)); [lia | reflexivity].
Qed.

Lemma choices_ok {A} (population : list A) weights k w :
  population <> [] -> length weights = length population ->
  Forall (fun x => 1 <= x) weights ->
  exists l w', random.choices population weights k w = (Ok l, w') /\
               length l = Z.to_nat k /\ Forall (fun x => x ∈ population) l.
Proof.
  intros Hne Hlen Hpos. unfold random.choices, random.accumulate.
  rewrite accumulate_from_length, Hlen, Nat.eqb_refl. simpl.
  destruct (accumulate_from_last weights 0) as (total & -> & Htot);
    [intros ->; destruct population; simpl in *; congruence | assumption |].
  destruct (Z.leb_spec total 0); [lia|].
  apply replicateM_ok. intros w0.
  unfold random.random, random.draw, bind at 1 2, ret at 1. simpl.
  match goal with |- context [random.item _ ?i] =>
    destruct (item_ok population i (set_random_state
        (mkRandom (tape (random_state w0)) (S (pos (random_state w0)))) w0)) as (x & Hx & Hin)
  end.
  - pose proof (bisect_bounds (random.accumulate_from 0 weights)
      ((tape (random_state w0) (pos (random_state w0)) `mod` 2 ^ 53 # 2 ^ 53) * inject_Z total)%Q
      (length population - 1)).
    destruct population; simpl in *; [congruence | lia].
  - eauto.
Qed.

Lemma choices_empty {A} k w :
  random.choices (@nil A) [] k w = (Raise IndexError, w).
Proof. reflexivity. Qed.

(** ** CIDR-mode sampling *)

Lemma drawn_from_sampled net addr : drawn_from net addr -> sampled_from net addr.
Proof.
  intros (offset & Hoff & ->). unfold sampled_from.
  destruct (2 <? num_addresses net); cbn [ip_int].
  - unfold num_addresses in Hoff. lia.
  - subst offset. rewrite Z.add_0_r. now destruct (network_address net).
Qed.

Lemma drawn_from_offset net addr :
  drawn_from net addr -> offset_within (Z.max 0 (num_addresses net - 2)) net addr.
Proof.
  intros (offset & Hoff & ->). exists offset. split; [|reflexivity].
  destruct (Z.ltb_spec 2 (num_addresses net)); lia.
Qed.

Lemma drawn_from_contains net addr :
  wf_network net -> drawn_from net addr -> ipaddress.contains net addr = true.
Proof.
  intros Hwf (offset & Hoff & ->). apply contains_add; [assumption|].
  pose proof (num_addresses_pos net Hwf).
  destruct (Z.ltb_spec 2 (num_addresses net)); lia.
Qed.

Lemma drawn_from_range net addr :
  drawn_from net addr ->
  ip_int (network_address net) <= ip_int addr /\
  (1 <= num_addresses net -> ip_int addr <= ip_int (broadcast_address net)).
Proof.
  intros (offset & Hoff & ->). cbn [ip_int]. unfold num_addresses in *.
  destruct (2 <? _); lia.
Qed.

(** One round of the loop of [generate_random_ips]. *)
Lemma sample_one_ok net (ips : list IPv4Address) w :
  wf_network net ->
  exists addr w',
    bind (if 2 <? num_addresses net
          then random.randint 1 (num_addresses net - 2) else ret 0)
         (fun offset => bind (lift (ipaddress.add (network_address net) offset))
                             (fun addr => ret (ips ++ [addr]))) w
    = (Ok (ips ++ [addr]), w') /\ drawn_from net addr.
Proof.
  intros Hwf.
  assert (Hadd : forall offset, 0 <= offset < num_addresses net ->
            ipaddress.add (network_address net) offset
            = Ok (mkAddr (ip_int (network_address net) + offset))).
  { intros offset Hoff. unfold ipaddress.add, ipaddress.IPv4Address_of_int.
    pose proof (broadcast_address_le_ALL_ONES net Hwf) as Hb.
    destruct Hwf as (_ & [Ha0 Ha1] & _). unfold num_addresses in Hoff.
    destruct (Z.leb_spec 0 (ip_int (network_address net) + offset)); [|lia].
    destruct (Z.leb_spec (ip_int (network_address net) + offset) ipaddress.ALL_ONES); [|lia].
    reflexivity. }
  pose proof (num_addresses_pos net Hwf) as Hpos.
  destruct (Z.ltb_spec 2 (num_addresses net)) as [Hbig|Hsmall].
  - destruct (randint_range 1 (num_addresses net - 2) w) as (r & w' & Hr & Hrange); [lia|].
    exists (mkAddr (ip_int (network_address net) + r)), w'.
    rewrite (bind_ok _ _ _ _ _ Hr). unfold bind, lift, ret. rewrite Hadd by lia.
    split; [reflexivity|]. exists r. split; [|reflexivity].
    destruct (Z.ltb_spec 2 (num_addresses net)); lia.
  - exists (mkAddr (ip_int (network_address net) + 0)), w.
    unfold bind, lift, ret. rewrite Hadd by lia.
    split; [reflexivity|]. exists 0. split; [|reflexivity].
    destruct (Z.ltb_spec 2 (num_addresses net)); lia.
Qed.

Lemma sample_each_ok chosen : forall (ips : list IPv4Address) w,
  Forall wf_network chosen ->
  exists addrs w',
    for_each chosen
      (fun net ips =>
         bind (if 2 <? num_addresses net
               then random.randint 1 (num_addresses net - 2) else ret 0)
              (fun offset => bind (lift (ipaddress.add (network_address net) offset))
                                  (fun addr => ret (ips ++ [addr]))))
      ips w
    = (Ok (ips ++ addrs), w') /\ Forall2 drawn_from chosen addrs.
Proof.
  induction chosen as [|net chosen IH]; intros ips w Hwf.
  - exists [], w. simpl. rewrite app_nil_r. split; [reflexivity | constructor].
  - inversion Hwf as [|? ? Hnet Hrest]; subst.
    destruct (sample_one_ok net ips w Hnet) as (addr & w1 & Hone & Hdrawn).
    destruct (IH (ips ++ [addr]) w1 Hrest) as (addrs & w2 & Hall & Hdrawns).
    exists (addr :: addrs), w2. cbn [for_each].
    rewrite (bind_ok _ _ _ _ _ Hone), Hall, <- app_assoc.
    split; [reflexivity | now constructor].
Qed.

(** What a run of [generate_random_ips] on a non-empty pool yields: as many
    addresses as asked for, each drawn from a block of the pool. *)
Lemma generate_random_ips_ok networks count w :
  networks <> [] -> Forall wf_network networks ->
  exists chosen ips w',
    generate_random_ips networks count w = (Ok ips, w') /\
    length ips = Z.to_nat count /\
    Forall (fun net => net ∈ networks) chosen /\
    Forall2 drawn_from chosen ips.
Proof.
  intros Hne Hwf. unfold generate_random_ips.
  destruct (choices_ok networks (map num_addresses networks) count w)
    as (chosen & w1 & Hch & Hlen & Hin).
  - assumption.
  - apply length_map.
  - apply Forall_map. eapply Forall_impl; [exact Hwf|]. intros net. apply num_addresses_pos.
  - assert (Hwfc : Forall wf_network chosen).
    { rewrite Forall_forall in *. intros net Hnet. apply Hwf, Hin, Hnet. }
    destruct (sample_each_ok chosen [] w1 Hwfc) as (addrs & w2 & Hall & Hdrawn).
    exists chosen, addrs, w2. rewrite (bind_ok _ _ _ _ _ Hch). split; [exact Hall|].
    split; [|split; assumption].
    apply Forall2_length in Hdrawn. congruence.
Qed.

Lemma generate_random_ips_empty count w :
  generate_random_ips [] count w = (Raise IndexError, w).
Proof. reflexivity. Qed.

Lemma generate_random_ips_inv networks count w ips w' :
  Forall wf_network networks ->
  generate_random_ips networks count w = (Ok ips, w') ->
  networks <> [] /\
  exists chosen,
    length ips = Z.to_nat count /\
    Forall (fun net => net ∈ networks) chosen /\
    Forall2 drawn_from chosen ips.
Proof.
  intros Hwf Hrun. destruct networks as [|net networks].
  - rewrite generate_random_ips_empty in Hrun. discriminate.
  - split; [discriminate|].
    destruct (generate_random_ips_ok (net :: networks) count w)
      as (chosen & ips0 & w0 & Hrun0 & Hlen & Hin & Hdrawn); [discriminate | assumption |].
    rewrite Hrun in Hrun0. injection Hrun0 as <- <-. eauto.
Qed.

Lemma small_pool_wf : Forall wf_network small_pool.
Proof. repeat constructor; vm_compute; congruence. Qed.

Lemma host_block_wf : wf_network host_block.
Proof. repeat constructor; vm_compute; congruence. Qed.

(** C2.  For every CIDR pool and count, an address sampled from a block with
    more than two addresses lies strictly between the block's network
    address and its broadcast address, and an address sampled from a block
    with two addresses or fewer is the block's network address.  (On a
    non-empty pool the sampler does return.) *)
Theorem sampled_addresses_within_block networks count w :
  Forall wf_network networks ->
  (networks <> [] ->
   exists ips w', generate_random_ips networks count w = (Ok ips, w')) /\
  (forall ips w',
     generate_random_ips networks count w = (Ok ips, w') ->
     exists chosen,
       Forall (fun net => net ∈ networks) chosen /\
       Forall2 (fun net addr =>
                  if 2 <? num_addresses net
                  then ip_int (network_address net) < ip_int addr
                       /\ ip_int addr < ip_int (broadcast_address net)
                  else addr = network_address net) chosen ips).
Proof.
  intros Hwf. split.
  - intros Hne.
    destruct (generate_random_ips_ok networks count w Hne Hwf) as (_ & ips & w' & Hrun & _).
    eauto.
  - intros ips w' Hrun.
    destruct (generate_random_ips_inv _ _ _ _ _ Hwf Hrun) as (_ & chosen & _ & Hin & Hdrawn).
    exists chosen. split; [assumption|].
    eapply Forall2_impl; [exact Hdrawn|]. intros net addr Hd.
    apply drawn_from_sampled in Hd. unfold sampled_from in Hd.
    destruct (2 <? num_addresses net); [lia | assumption].
Qed.

Lemma sampled_addresses_within_block_witness :
  exists ips w', generate_random_ips small_pool 5 sample_world = (Ok ips, w').
Proof.
  apply (proj1 (sampled_addresses_within_block small_pool 5 sample_world small_pool_wf)).
  discriminate.
Defined.

(** C10, as stated, fails on a pool that holds a single-address block: the
    offset drawn there is [0], which is above [num_addresses - 2 = -1]. *)
Lemma offset_bound_fails_on_host_block :
  wf_network host_block /\
  exists ips w',
    generate_random_ips [host_block] 1 sample_world = (Ok ips, w') /\
    ~ Forall (fun addr =>
                exists net, net ∈ [host_block] /\
                            offset_within (num_addresses net - 2) net addr) ips.
Proof.
  split; [exact host_block_wf|].
  eexists _, _. split; [vm_compute; reflexivity|].
  intros Hall. apply Forall_cons in Hall as [(net & Hnet & offset & Hoff & _) _].
  apply list_elem_of_singleton in Hnet. subst net.
  change (num_addresses host_block) with 1 in Hoff. lia.
Qed.

(** C10, amended.  Every address returned by CIDR-mode sampling is a member
    of one of the pool's networks: for each drawn block the result is
    [network_address + offset] with [0 <= offset <= max(0, num_addresses - 2)],
    which never exceeds the block's last address.  (On a non-empty pool the
    sampler does return.) *)
Theorem sampled_addresses_in_pool networks count w :
  Forall wf_network networks ->
  (networks <> [] ->
   exists ips w', generate_random_ips networks count w = (Ok ips, w')) /\
  (forall ips w',
     generate_random_ips networks count w = (Ok ips, w') ->
     Forall (fun addr =>
               exists net,
                 net ∈ networks /\
                 ipaddress.contains net addr = true /\
                 offset_within (Z.max 0 (num_addresses net - 2)) net addr /\
                 ip_int addr <= ip_int (broadcast_address net)) ips).
Proof.
  intros Hwf. split.
  - intros Hne.
    destruct (generate_random_ips_ok networks count w Hne Hwf) as (_ & ips & w' & Hrun & _).
    eauto.
  - intros ips w' Hrun.
    destruct (generate_random_ips_inv _ _ _ _ _ Hwf Hrun) as (_ & chosen & _ & Hin & Hdrawn).
    clear Hrun. induction Hdrawn as [|net addr chosen ips Hd Hrest IH]; [constructor|].
    inversion Hin as [|? ? Hnet Hin']; subst. constructor; [|now apply IH].
    assert (Hwfn : wf_network net) by (rewrite Forall_forall in Hwf; now apply Hwf).
    exists net. repeat split.
    + assumption.
    + now apply drawn_from_contains.
    + now apply drawn_from_offset.
    + apply drawn_from_range; [assumption | now apply num_addresses_pos].
Qed.

Lemma sampled_addresses_in_pool_witness :
  exists ips w', generate_random_ips [host_block] 1 sample_world = (Ok ips, w').
Proof.
  apply (proj1 (sampled_addresses_in_pool [host_block] 1 sample_world
                  (Forall_cons_2 _ _ _ host_block_wf (Forall_nil_2 _)))).
  discriminate.
Defined.

(** ** random.sample *)

(** Taking [pool[j]] and moving [pool[m-1]] into its place keeps the
    elements of the first [m] cells. *)
Lemma pool_swap_remove {A} (pool : list A) m j x y :
  (j < m)%nat -> pool !! j = Some x -> pool !! (m - 1)%nat = Some y ->
  x :: take (m - 1) (<[j := y]> pool) ≡ₚ take m pool.
Proof.
  intros Hj Hx Hy.
  replace m with (S (m - 1)) at 2 by lia. rewrite (take_S_r _ _ _ Hy).
  destruct (decide (j = m - 1)%nat) as [->|Hne].
  - rewrite take_insert_ge by lia. assert (x = y) by congruence. subst y.
    apply Permutation_cons_append.
  - rewrite take_insert_lt by lia.
    assert (Hx' : take (m - 1) pool !! j = Some x).
    { rewrite lookup_take. destruct (decide (j < m - 1)%nat); [assumption | lia]. }
    rewrite insert_take_drop by (apply lookup_lt_Some in Hx'; assumption).
    rewrite <- (take_drop_middle _ _ _ Hx') at 3.
    set (t1 := take j (take (m - 1) pool)). set (t2 := drop (S j) (take (m - 1) pool)).
    rewrite <- !Permutation_middle. simpl. rewrite app_nil_r. apply perm_swap.
Qed.

Lemma sample_pool_ok {A} k : forall (pool : list A) m w,
  (m <= length pool)%nat -> (k <= m)%nat ->
  exists l w', random.sample_pool k pool m w = (Ok l, w') /\
               length l = k /\ l ⊆+ take m pool.
Proof.
  induction k as [|k IH]; intros pool m w Hm Hk; cbn [random.sample_pool].
  - exists [], w. repeat split. apply submseteq_nil_l.
  - destruct (randbelow_range (Z.of_nat m) w) as (r & w1 & Hr & Hrange); [lia|].
    rewrite (bind_ok _ _ _ _ _ Hr).
    destruct (lookup_lt_is_Some_2 pool (Z.to_nat r)) as [x Hx]; [lia|].
    destruct (lookup_lt_is_Some_2 pool (m - 1)) as [y Hy]; [lia|].
    unfold random.item at 1. rewrite Hx. unfold bind at 1, ret at 1.
    unfold random.item at 1. rewrite Hy. unfold bind at 1, ret at 1.
    destruct (IH (<[Z.to_nat r := y]> pool) (m - 1)%nat w1) as (l & w2 & Hl & Hlen & Hsub).
    { rewrite length_insert. lia. }
    { lia. }
    exists (x :: l), w2. rewrite (bind_ok _ _ _ _ _ Hl). repeat split.
    + simpl. congruence.
    + rewrite <- (pool_swap_remove pool m (Z.to_nat r) x y) by (assumption || lia).
      now apply submseteq_skip.
Qed.

(** Indices not yet selected are left as long as fewer than [n] are taken. *)
Lemma unselected_length (l : list nat) : forall selected : gset nat,
  NoDup l ->
  (length l <= length (filter (fun j => j ∉ selected) l) + size selected)%nat.
Proof.
  intros selected Hnd.
  rewrite <- (filter_app_complement (fun j => j ∈ selected) l) at 1.
  rewrite length_app.
  assert (length (filter (fun j => j ∈ selected) l) <= size selected)%nat; [|lia].
  unfold size, set_size; simpl.
  apply submseteq_length, NoDup_submseteq; [now apply NoDup_filter|].
  intros j Hj. apply list_elem_of_filter in Hj as [Hj _]. now apply elem_of_elements.
Qed.

Lemma draw_unselected_ok n (selected : gset nat) w :
  (size selected < n)%nat ->
  exists j w', random.draw_unselected n selected w = (Ok j, w') /\
               (j < n)%nat /\ j ∉ selected.
Proof.
  intros Hsize. unfold random.draw_unselected.
  pose proof (unselected_length (seq 0 n) selected (NoDup_seq 0 n)) as Hfree.
  rewrite length_seq in Hfree.
  set (free := filter (fun j => j ∉ selected) (seq 0 n)) in *.
  destruct (randbelow_range (Z.of_nat (length free)) w) as (r & w1 & Hr & Hrange); [lia|].
  rewrite (bind_ok _ _ _ _ _ Hr).
  destruct (item_ok free (Z.to_nat r) w1) as (j & Hj & Hin); [lia|].
  exists j, w1. split; [assumption|].
  apply list_elem_of_filter in Hin as [Hnot Hseq]. apply elem_of_seq in Hseq.
  split; [lia | assumption].
Qed.

Lemma sample_set_ok {A} (population : list A) k : forall (selected : gset nat) w,
  (size selected + k <= length population)%nat ->
  exists js l w',
    random.sample_set k population selected w = (Ok l, w') /\
    length l = k /\
    Forall2 (fun j x => population !! j = Some x) js l /\
    NoDup js /\ Forall (fun j => j ∉ selected) js.
Proof.
  induction k as [|k IH]; intros selected w Hsize; cbn [random.sample_set].
  - exists [], [], w. repeat split; constructor.
  - destruct (draw_unselected_ok (length population) selected w)
      as (j & w1 & Hj & Hlt & Hnot); [lia|].
    rewrite (bind_ok _ _ _ _ _ Hj).
    destruct (lookup_lt_is_Some_2 population j Hlt) as [x Hx].
    unfold random.item. rewrite Hx. unfold bind at 1, ret at 1.
    destruct (IH ({[j]} ∪ selected) w1) as (js & l & w2 & Hl & Hlen & Hlook & Hnd & Hfresh).
    { rewrite size_union by set_solver. rewrite size_singleton. lia. }
    exists (j :: js), (x :: l), w2. rewrite (bind_ok _ _ _ _ _ Hl).
    split; [reflexivity|]. split; [simpl; congruence|]. split; [now constructor|]. split.
    + constructor; [|assumption]. intros Hin.
      rewrite Forall_forall in Hfresh. specialize (Hfresh j Hin). set_solver.
    + constructor; [assumption|].
      eapply Forall_impl; [exact Hfresh|]. intros j' Hj'. set_solver.
Qed.

(** Elements read at distinct positions of a list form a sub-multiset of it. *)
Lemma distinct_positions_submseteq {A} (population : list A) js l :
  NoDup js -> Forall2 (fun j x => population !! j = Some x) js l -> l ⊆+ population.
Proof.
  intros Hnd Hlook. destruct l as [|d l0]; [apply submseteq_nil_l|].
  set (l := d :: l0) in *.
  assert (Hl : l = (fun j => nth j population d) <$> js).
  { clearbody l. clear Hnd. induction Hlook as [|j x js l Hjx _ IH]; [reflexivity|].
    rewrite fmap_cons, <- IH. f_equal.
    symmetry. now apply nth_lookup_Some with (d := d) in Hjx. }
  assert (Hpop : population = (fun j => nth j population d) <$> seq 0 (length population)).
  { apply list_eq; intros i. rewrite list_lookup_fmap.
    destruct (population !! i) as [x|] eqn:Hi.
    - assert (Hs : seq 0 (length population) !! i = Some i).
      { apply lookup_seq. split; [reflexivity|]. eapply lookup_lt_Some; eauto. }
      rewrite Hs. simpl. f_equal. symmetry. now apply nth_lookup_Some with (d := d) in Hi.
    - rewrite (proj2 (lookup_ge_None (seq 0 (length population)) i)); [reflexivity|].
      rewrite length_seq. now apply lookup_ge_None. }
  assert (Hsub : (fun j => nth j population d) <$> js
                 ⊆+ (fun j => nth j population d) <$> seq 0 (length population)).
  { apply fmap_submseteq, NoDup_submseteq; [assumption|].
    intros j Hj. apply elem_of_seq.
    apply list_elem_of_lookup in Hj as [i Hi].
    destruct (Forall2_lookup_l _ _ _ _ _ Hlook Hi) as (x & _ & Hx).
    apply lookup_lt_Some in Hx. lia. }
  rewrite <- Hpop in Hsub. now rewrite Hl.
Qed.

(** [random.sample(population, k)] with [0 <= k <= len(population)]: [k]
    elements taken at distinct positions. *)
Lemma sample_ok {A} (population : list A) k w :
  0 <= k <= Z.of_nat (length population) ->
  exists l w', random.sample population k w = (Ok l, w') /\
               length l = Z.to_nat k /\ l ⊆+ population.
Proof.
  intros Hk. unfold random.sample.
  destruct (Z.leb_spec 0 k); [|lia].
  destruct (Z.leb_spec k (Z.of_nat (length population))); [|lia]. simpl.
  destruct (_ <=? random.setsize k).
  - destruct (sample_pool_ok (Z.to_nat k) population (length population) w)
      as (l & w' & Hl & Hlen & Hsub); [lia | lia |].
    exists l, w'. rewrite firstn_all in Hsub. auto.
  - destruct (sample_set_ok population (Z.to_nat k) ∅ w)
      as (js & l & w' & Hl & Hlen & Hlook & Hnd & _).
    { rewrite size_empty. lia. }
    exists l, w'. split; [assumption|]. split; [assumption|].
    eapply distinct_positions_submseteq; eauto.
Qed.

Lemma sample_out_of_range {A} (population : list A) k w :
  k < 0 \/ Z.of_nat (length population) < k ->
  random.sample population k w = (Raise ValueError, w).
Proof.
  intros Hk. unfold random.sample.
  destruct (Z.leb_spec 0 k), (Z.leb_spec k (Z.of_nat (length population)));
    simpl; try reflexivity; lia.
Qed.

(** ** Flat-list sampling *)

Lemma comprehension_lift_ok {A B} (f : A -> outcome B) xs ys w :
  Forall2 (fun x y => f x = Ok y) xs ys ->
  comprehension (fun x => lift (f x)) xs w = (Ok ys, w).
Proof.
  intros H. induction H as [|x y xs ys Hxy _ IH]; [reflexivity|].
  cbn [comprehension]. unfold bind at 1, lift at 1. rewrite Hxy.
  unfold bind at 1. now rewrite IH.
Qed.

Lemma typed_addresses_sub items addrs chosen :
  typed_addresses items addrs -> chosen ⊆+ items ->
  exists addrs', typed_addresses chosen addrs' /\ addrs' ⊆+ addrs.
Proof.
  intros Htyped Hsub.
  set (conv := fun x => match ipaddress.IPv4Address_new x with
                        | Ok a => a
                        | Raise _ => mkAddr 0
                        end).
  assert (Haddrs : addrs = conv <$> items).
  { clear Hsub. induction Htyped as [|x a items addrs Hx _ IH]; [reflexivity|].
    rewrite fmap_cons, <- IH. f_equal. unfold conv. now rewrite Hx. }
  exists (conv <$> chosen). split.
  - unfold typed_addresses. apply Forall2_fmap_r, Forall_Forall2_diag.
    apply Forall_forall. intros x Hx.
    assert (Hin : x ∈ items) by (eapply elem_of_submseteq; eauto).
    apply list_elem_of_lookup in Hin as [i Hi].
    destruct (Forall2_lookup_l _ _ _ _ _ Htyped Hi) as (a & _ & Ha).
    unfold conv, compose. now rewrite Ha.
  - rewrite Haddrs. now apply fmap_submseteq.
Qed.

Lemma generate_random_ips_from_list_ok items addrs count w :
  typed_addresses items addrs -> 0 <= count ->
  exists ips w',
    generate_random_ips_from_list (JArr items) count w = (Ok ips, w') /\
    Z.of_nat (length ips) = Z.min count (Z.of_nat (length items)) /\
    ips ⊆+ addrs /\
    (Z.of_nat (length items) <= count -> ips = addrs).
Proof.
  intros Htyped Hcount. pose proof (Forall2_length _ _ _ Htyped) as Hlen.
  unfold generate_random_ips_from_list. cbn [py_len py_iter sample_of].
  unfold bind at 1, lift at 1.
  destruct (Nat.eqb_spec (length items) 0) as [H0|H0].
  - exists [], w. split; [reflexivity|]. destruct addrs; [|simpl in *; lia].
    rewrite H0. repeat split; [simpl; lia | reflexivity].
  - destruct (Z.leb_spec (Z.of_nat (length items)) count) as [Hall|Hfew].
    + exists addrs, w. unfold bind at 1, lift at 1.
      rewrite (comprehension_lift_ok _ _ _ _ Htyped).
      repeat split; [lia | reflexivity].
    + destruct (sample_ok items count w) as (chosen & w' & Hs & Hslen & Hsub); [lia|].
      destruct (typed_addresses_sub _ _ _ Htyped Hsub) as (addrs' & Htyped' & Hsub').
      exists addrs', w'. rewrite (bind_ok _ _ _ _ _ Hs).
      rewrite (comprehension_lift_ok _ _ _ _ Htyped').
      apply Forall2_length in Htyped'.
      repeat split; [lia | assumption | lia].
Qed.

Lemma submseteq_NoDup {A} (l k : list A) : l ⊆+ k -> NoDup k -> NoDup l.
Proof.
  intros Hsub Hnd. apply submseteq_Permutation in Hsub as [k' Hk'].
  rewrite Hk' in Hnd. now apply NoDup_app in Hnd as [? _].
Qed.

(** C3, as stated, fails on a flat pool that lists an address twice: with
    [N = M = 2] the whole pool comes back, duplicate included. *)
Lemma duplicates_from_twice_listed_pool :
  exists ips w',
    generate_random_ips_from_list (JArr twice_listed) 2 sample_world = (Ok ips, w') /\
    2 <= Z.of_nat (length twice_listed) /\
    ~ NoDup ips.
Proof.
  eexists _, _. split; [vm_compute; reflexivity|]. split; [simpl; lia|].
  intros Hnd. apply NoDup_cons in Hnd as [Hnot _]. apply Hnot. constructor.
Qed.

(** C3, amended.  For every non-empty CIDR pool and every count [N],
    CIDR-mode sampling returns a sequence of exactly [N] addresses; for every
    flat list of [M] address literals and every count [N], flat-list sampling
    returns exactly [min(N, M)] addresses, taken at distinct positions of the
    pool, so without duplicates when [N <= M] and the pool lists no address
    twice; when [N >= M] it returns the entire pool converted to typed
    addresses in its original order. *)
Theorem sampler_returns_requested_count :
  (forall networks count w,
     networks <> [] -> Forall wf_network networks -> 0 <= count ->
     exists ips w',
       generate_random_ips networks count w = (Ok ips, w') /\
       Z.of_nat (length ips) = count) /\
  (forall items addrs count w,
     typed_addresses items addrs -> 0 <= count ->
     exists ips w',
       generate_random_ips_from_list (JArr items) count w = (Ok ips, w') /\
       Z.of_nat (length ips) = Z.min count (Z.of_nat (length items)) /\
       ips ⊆+ addrs /\
       (count <= Z.of_nat (length items) -> NoDup addrs -> NoDup ips) /\
       (Z.of_nat (length items) <= count -> ips = addrs)).
Proof.
  split.
  - intros networks count w Hne Hwf Hcount.
    destruct (generate_random_ips_ok networks count w Hne Hwf)
      as (_ & ips & w' & Hrun & Hlen & _).
    exists ips, w'. split; [assumption | lia].
  - intros items addrs count w Htyped Hcount.
    destruct (generate_random_ips_from_list_ok items addrs count w Htyped Hcount)
      as (ips & w' & Hrun & Hlen & Hsub & Hall).
    exists ips, w'. repeat split; try assumption.
    intros _ Hnd. eapply submseteq_NoDup; eauto.
Qed.

Lemma two_listed_typed :
  typed_addresses two_listed [mkAddr 16909060; mkAddr 84281096].
Proof. repeat constructor. Qed.

Lemma sampler_returns_requested_count_witness :
  (exists ips w',
     generate_random_ips small_pool 3 sample_world = (Ok ips, w') /\
     Z.of_nat (length ips) = 3) /\
  (exists ips w',
     generate_random_ips_from_list (JArr two_listed) 5 sample_world = (Ok ips, w') /\
     Z.of_nat (length ips) = Z.min 5 (Z.of_nat (length two_listed)) /\
     ips ⊆+ [mkAddr 16909060; mkAddr 84281096] /\
     (5 <= Z.of_nat (length two_listed) ->
      NoDup [mkAddr 16909060; mkAddr 84281096] -> NoDup ips) /\
     (Z.of_nat (length two_listed) <= 5 -> ips = [mkAddr 16909060; mkAddr 84281096])).
Proof.
  split.
  - apply (proj1 sampler_returns_requested_count small_pool 3 sample_world);
      [discriminate | exact small_pool_wf | lia].
  - apply (proj2 sampler_returns_requested_count two_listed
             [mkAddr 16909060; mkAddr 84281096] 5 sample_world);
      [exact two_listed_typed | lia].
Defined.

(** ** Input errors of the sampler *)

Lemma generate_random_ips_from_list_empty count w :
  generate_random_ips_from_list (JArr []) count w = (Ok [], w).
Proof. reflexivity. Qed.

Lemma generate_random_ips_from_list_negative items count w :
  items <> [] -> count < 0 ->
  generate_random_ips_from_list (JArr items) count w = (Raise ValueError, w).
Proof.
  intros Hne Hcount. unfold generate_random_ips_from_list. cbn [py_len sample_of].
  unfold bind at 1, lift at 1.
  destruct (Nat.eqb_spec (length items) 0) as [H0|_].
  - destruct items; [congruence | discriminate].
  - destruct (Z.leb_spec (Z.of_nat (length items)) count); [lia|].
    apply bind_raise, sample_out_of_range. lia.
Qed.

Lemma generate_random_ips_from_list_zero items w :
  generate_random_ips_from_list (JArr items) 0 w = (Ok [], w).
Proof.
  unfold generate_random_ips_from_list. cbn [py_len sample_of].
  unfold bind at 1, lift at 1.
  destruct (Nat.eqb_spec (length items) 0) as [H0|H0]; [reflexivity|].
  destruct (Z.leb_spec (Z.of_nat (length items)) 0); [lia|].
  unfold random.sample.
  destruct (Z.leb_spec 0 (Z.of_nat (length items))); [|lia]. simpl.
  destruct (_ <=? random.setsize 0); reflexivity.
Qed.

Lemma int_of_string_raises s e : pystr.int_of_string s = Raise e -> e = ValueError.
Proof.
  unfold pystr.int_of_string.
  destruct (match pystr.rskip (pystr.lskip s) with
            | String "-" b => (true, b)
            | String "+" b => (false, b)
            | _ => (false, pystr.rskip (pystr.lskip s))
            end) as [neg body].
  destruct (pystr.int_body _ _); [|congruence].
  destruct (_ <? _); [congruence | discriminate].
Qed.

(** The prompt of [main] lets only a positive count through. *)
Lemma read_count_spec w line rest :
  stdin w = line :: rest ->
  match pystr.int_of_string line with
  | Ok count =>
      if count <=? 0 then fst (read_count w) = Raise (SystemExit 1)
      else fst (read_count w) = Ok count
  | Raise _ => fst (read_count w) = Raise (SystemExit 1)
  end.
Proof.
  intros Hin. unfold read_count, try_except, bind, input, lift. rewrite Hin.
  destruct (pystr.int_of_string line) as [count|e] eqn:Hparse.
  - destruct (count <=? 0); reflexivity.
  - apply int_of_string_raises in Hparse. subst e. reflexivity.
Qed.

Lemma read_count_refuses w line rest :
  stdin w = line :: rest ->
  match pystr.int_of_string line with
  | Ok count => count <= 0
  | Raise _ => True
  end ->
  read_count w =
  (Raise (SystemExit 1),
   set_stdout (stdout w ++ ["Enter number of IPs to check: ";
                            "Please enter a positive integer for count." +:+ pystr.newline])
              (set_stdin rest w)).
Proof.
  intros Hin Hbad. unfold read_count, try_except, bind, input, lift, print, sys_exit, raise.
  rewrite Hin. cbn [stdout set_stdin set_stdout].
  destruct (pystr.int_of_string line) as [count|e] eqn:Hparse.
  - destruct (Z.leb_spec count 0); [|lia]. cbn [is_ValueError].
    unfold set_stdout, set_stdin. cbn [random_state monotonic_clock network stdin stdout
      written files wall_clock cpu_count worker_start next_completed].
    now rewrite <- app_assoc.
  - apply int_of_string_raises in Hparse. subst e. cbn [is_ValueError].
    unfold set_stdout, set_stdin. cbn [random_state monotonic_clock network stdin stdout
      written files wall_clock cpu_count worker_start next_completed].
    now rewrite <- app_assoc.
Qed.

(** With a CIDR pool chosen, [main] stops at the count prompt when the
    count is not positive: the generator of [random] has not been touched
    and no file is written. *)
Lemma main_refuses_count float_of_string str_of_float w line1 line2 rest :
  stdin w = line1 :: line2 :: rest ->
  pystr.lower (pystr.strip line1) = "fastly" \/ pystr.lower (pystr.strip line1) = "cloudflare" ->
  match pystr.int_of_string line2 with
  | Ok count => count <= 0
  | Raise _ => True
  end ->
  fst (main float_of_string str_of_float w) = Raise (SystemExit 1) /\
  random_state (snd (main float_of_string str_of_float w)) = random_state w /\
  written (snd (main float_of_string str_of_float w)) = written w.
Proof.
  intros Hin Hchoice Hbad.
  set (w1 := set_stdin (line2 :: rest)
               (set_stdout (stdout w ++ ["Which network to test? [fastly/cloudflare/bunny]: "]) w)).
  assert (Hrun : forall choice, choice = "fastly" \/ choice = "cloudflare" ->
            exists networks, select_pool choice w1 = (Ok (Some networks, None), w1)).
  { intros choice [-> | ->]; unfold select_pool; cbn [String.eqb Ascii.eqb Bool.eqb].
    - destruct (CIDR_tables_parse w1) as [(networks & Hparse & _) _].
      exists networks. now rewrite (bind_ok _ _ _ _ _ Hparse).
    - destruct (CIDR_tables_parse w1) as [_ (networks & Hparse & _)].
      exists networks. now rewrite (bind_ok _ _ _ _ _ Hparse). }
  destruct (Hrun _ Hchoice) as [networks Hpool].
  assert (Hknown : existsb (String.eqb (pystr.lower (pystr.strip line1)))
                     ["fastly"; "cloudflare"; "bunny"] = true).
  { destruct Hchoice as [-> | ->]; reflexivity. }
  assert (Hmain : main float_of_string str_of_float w =
                  (Raise (SystemExit 1),
                   set_stdout (stdout w1 ++ ["Enter number of IPs to check: ";
                                 "Please enter a positive integer for count." +:+ pystr.newline])
                              (set_stdin rest w1))).
  { unfold main. unfold bind at 1, input at 1. rewrite Hin. fold w1.
    rewrite Hknown. cbn [negb]. rewrite (bind_ok _ _ _ _ _ Hpool).
    now rewrite (bind_raise _ _ _ _ _ (read_count_refuses w1 line2 rest eq_refl Hbad)). }
  rewrite Hmain. split; [reflexivity | split; reflexivity].
Qed.

(** C4, as stated, fails: with a count of [0] the CIDR-mode sampler returns
    the empty sequence, not an error. *)
Lemma zero_count_is_not_an_error :
  small_pool <> [] /\ 0 <= 0 /\
  fst (generate_random_ips small_pool 0 sample_world) = Ok [].
Proof. split; [discriminate|]. split; [lia | reflexivity]. Qed.

(** C4, amended.  A count [<= 0] is refused before sampling, by the count
    prompt of [main], which exits with status 1; the sampler itself does not
    check the count.  CIDR mode fails on an empty pool and returns the empty
    sequence for a count [<= 0] on a non-empty pool; flat-list mode returns
    the empty sequence when the pool is empty or the count is [0], and fails
    for a negative count on a non-empty pool. *)
Theorem sampler_input_errors :
  (forall float_of_string str_of_float w line1 line2 rest count,
     stdin w = line1 :: line2 :: rest ->
     pystr.lower (pystr.strip line1) = "fastly"
     \/ pystr.lower (pystr.strip line1) = "cloudflare" ->
     pystr.int_of_string line2 = Ok count -> count <= 0 ->
     fst (main float_of_string str_of_float w) = Raise (SystemExit 1) /\
     random_state (snd (main float_of_string str_of_float w)) = random_state w) /\
  (forall w line rest count,
     stdin w = line :: rest -> pystr.int_of_string line = Ok count -> count <= 0 ->
     fst (read_count w) = Raise (SystemExit 1)) /\
  (forall count w, generate_random_ips [] count w = (Raise IndexError, w)) /\
  (forall networks count w,
     networks <> [] -> Forall wf_network networks -> count <= 0 ->
     exists w', generate_random_ips networks count w = (Ok [], w')) /\
  (forall count w, generate_random_ips_from_list (JArr []) count w = (Ok [], w)) /\
  (forall items w, generate_random_ips_from_list (JArr items) 0 w = (Ok [], w)) /\
  (forall items count w,
     items <> [] -> count < 0 ->
     generate_random_ips_from_list (JArr items) count w = (Raise ValueError, w)).
Proof.
  split; [|split; [|split; [|split; [|split; [|split]]]]].
  - intros ff sf w line1 line2 rest count Hin Hchoice Hparse Hcount.
    destruct (main_refuses_count ff sf w line1 line2 rest Hin Hchoice) as (Hexit & Hrandom & _);
      [now rewrite Hparse | auto].
  - intros w line rest count Hin Hparse Hcount.
    pose proof (read_count_spec w line rest Hin) as Hspec. rewrite Hparse in Hspec.
    destruct (Z.leb_spec count 0); [assumption | lia].
  - apply generate_random_ips_empty.
  - intros networks count w Hne Hwf Hcount.
    destruct (generate_random_ips_ok networks count w Hne Hwf)
      as (_ & ips & w' & Hrun & Hlen & _).
    exists w'. destruct ips; [assumption | simpl in Hlen; lia].
  - apply generate_random_ips_from_list_empty.
  - apply generate_random_ips_from_list_zero.
  - apply generate_random_ips_from_list_negative.
Qed.

Lemma sampler_input_errors_witness :
  (fst (main (fun _ => None) (fun _ => EmptyString) (set_stdin [" Fastly"; "-3"] sample_world))
   = Raise (SystemExit 1) /\
   random_state (snd (main (fun _ => None) (fun _ => EmptyString)
                           (set_stdin [" Fastly"; "-3"] sample_world)))
   = random_state (set_stdin [" Fastly"; "-3"] sample_world)) /\
  fst (read_count (set_stdin ["0"] sample_world)) = Raise (SystemExit 1) /\
  (exists w', generate_random_ips small_pool (-2) sample_world = (Ok [], w')) /\
  generate_random_ips_from_list (JArr two_listed) (-1) sample_world
  = (Raise ValueError, sample_world).
Proof.
  destruct sampler_input_errors as (Hmain & Hprompt & _ & Hcidr & _ & _ & Hflat).
  split; [|split; [|split]].
  - apply (Hmain (fun _ => None) (fun _ => EmptyString)
             (set_stdin [" Fastly"; "-3"] sample_world) " Fastly" "-3" [] (-3));
      [reflexivity | left; reflexivity | reflexivity | lia].
  - apply (Hprompt (set_stdin ["0"] sample_world) "0" [] 0); [reflexivity | reflexivity | lia].
  - apply (Hcidr small_pool (-2) sample_world); [discriminate | exact small_pool_wf | lia].
  - apply (Hflat two_listed (-1) sample_world); [discriminate | lia].
Defined.

(** ** Determinism of the sampler *)

Lemma random_only_deterministic {A} (m : Py A) w1 w2 :
  random_only m -> random_state w1 = random_state w2 ->
  fst (m w1) = fst (m w2) /\
  random_state (snd (m w1)) = random_state (snd (m w2)).
Proof.
  intros [f Hf] Hsame. rewrite !Hf, Hsame. split; reflexivity.
Qed.

Lemma random_only_frame {A} (m : Py A) w :
  random_only m ->
  exists g, snd (m w) = set_random_state g w.
Proof. intros [f Hf]. rewrite Hf. eauto. Qed.

(** C8.  For every pool and count, two runs of the sampler that start from
    the same state of the random generator produce the same output
    sequence, whatever else differs between the two worlds: the output is
    a function of the pool, the count and the random state, and the
    generator is left in the same state. *)
Theorem sampler_deterministic :
  (forall networks count w1 w2,
     random_state w1 = random_state w2 ->
     fst (generate_random_ips networks count w1)
     = fst (generate_random_ips networks count w2) /\
     random_state (snd (generate_random_ips networks count w1))
     = random_state (snd (generate_random_ips networks count w2))) /\
  (forall ip_list count w1 w2,
     random_state w1 = random_state w2 ->
     fst (generate_random_ips_from_list ip_list count w1)
     = fst (generate_random_ips_from_list ip_list count w2) /\
     random_state (snd (generate_random_ips_from_list ip_list count w1))
     = random_state (snd (generate_random_ips_from_list ip_list count w2))).
Proof.
  split; intros; apply random_only_deterministic;
    auto using random_only_generate_random_ips, random_only_generate_random_ips_from_list.
Qed.

Lemma sampler_deterministic_witness :
  fst (generate_random_ips small_pool 4 sample_world)
  = fst (generate_random_ips small_pool 4 late_world) /\
  fst (generate_random_ips_from_list (JArr two_listed) 1 sample_world)
  = fst (generate_random_ips_from_list (JArr two_listed) 1 late_world).
Proof.
  split.
  - apply (proj1 sampler_deterministic small_pool 4 sample_world late_world). reflexivity.
  - apply (proj2 sampler_deterministic (JArr two_listed) 1 sample_world late_world). reflexivity.
Defined.

(** ** The probe *)

Lemma test_ip_run ip timeout w :
  let url := "http://" +:+ ipaddress.str ip in
  let r := network w url timeout (monotonic_clock w) in
  let responded := Ok (Some (ipaddress.str ip,
                             (monotonic_clock w + took r - monotonic_clock w)%Q)) in
  test_ip ip timeout w =
  (if float_le_zero timeout then responded
   else match reply r with
        | NoAnswerInTime => Ok None
        | _ => responded
        end,
   set_monotonic_clock (monotonic_clock w + took r)%Q w).
Proof.
  unfold test_ip, bind, time.monotonic, try_except_else, requests.get. cbv zeta.
  destruct (float_le_zero timeout); [reflexivity|].
  destruct (reply _); reflexivity.
Qed.

(** A probe always ends, Responded or TimedOut. *)
Lemma test_ip_total ip timeout w : exists r, fst (test_ip ip timeout w) = Ok r.
Proof.
  rewrite test_ip_run. cbv zeta. cbn [fst].
  destruct (float_le_zero timeout); [eauto|]. destruct (reply _); eauto.
Qed.

Lemma test_ip_names ip timeout w r :
  fst (test_ip ip timeout w) = Ok (Some r) -> fst r = ipaddress.str ip.
Proof.
  rewrite test_ip_run. cbv zeta. cbn [fst].
  destruct (float_le_zero timeout); [now intros [= <-]|].
  destruct (reply _); intros [= <-]; reflexivity.
Qed.

(** What the probe makes of each way a request with a positive timeout
    ends: [None] when [requests] raises a [Timeout], the address and the
    time from issue to termination otherwise. *)
Lemma test_ip_classification ip timeout w :
  float_le_zero timeout = false ->
  let url := "http://" +:+ ipaddress.str ip in
  let issued := monotonic_clock w in
  let finished := (issued + took (network w url timeout issued))%Q in
  snd (test_ip ip timeout w) = set_monotonic_clock finished w /\
  (finished - issued == took (network w url timeout issued))%Q /\
  match reply (network w url timeout issued) with
  | NoAnswerInTime => fst (test_ip ip timeout w) = Ok None
  | Answered _ | StalledInBody | ConnectionRefused | ConnectionReset | Unreachable
  | ProtocolViolation | BadRequest =>
      fst (test_ip ip timeout w) = Ok (Some (ipaddress.str ip, (finished - issued)%Q))
  end.
Proof.
  intros Hpositive url issued finished. rewrite test_ip_run. cbv zeta.
  fold url issued finished. rewrite Hpositive.
  split; [reflexivity|]. split; [unfold finished; ring|].
  destruct (reply _); reflexivity.
Qed.

(** C1 fails on the code.  A host that sends the head of its response and
    then lets the body stall runs the read timeout out; [requests] raises
    a [ConnectionError] for it, which is not a [Timeout], and the probe
    reports the host as Responded, with an elapsed time beyond the timeout,
    where the claim, and the docstring of [test_ip], say TimedOut. *)
Theorem probe_reports_a_stalled_body :
  let ip := mkAddr 167772161 in
  let timeout : Q := 1 # 2 in
  let r := network stalling_world ("http://" +:+ ipaddress.str ip) timeout
                   (monotonic_clock stalling_world) in
  float_le_zero timeout = false /\
  reply r = StalledInBody /\
  (timeout < took r)%Q /\
  exists elapsed,
    fst (test_ip ip timeout stalling_world) = Ok (Some ("10.0.0.1", elapsed)) /\
    (elapsed == took r)%Q.
Proof.
  cbv zeta. split; [reflexivity|]. split; [reflexivity|]. split; [reflexivity|].
  eexists. split; [reflexivity|]. reflexivity.
Qed.

(** ** The scheduler *)

Section Scheduler.

Variable timeout : pyfloat.
Variable w : World.

Let probe (i : nat) (ip : IPv4Address) : outcome (option (string * Q)) :=
  fst (test_ip ip timeout (set_monotonic_clock (worker_start w i) w)).

Lemma submit_all_loop workers ips : forall done outs,
  length outs = length done ->
  (forall i ip, done !! i = Some ip -> outs !! i = Some (probe i ip)) ->
  exists outs',
    for_each ips
      (fun ip st =>
         bind (futures.submit (fst st) (test_ip ip timeout))
              (fun r => ret (fst r, <[snd r := ip]> (snd st))))
      (futures.mkExecutor workers outs, (map_seq 0 done : gmap nat IPv4Address)) w
    = (Ok (futures.mkExecutor workers outs', (map_seq 0 (done ++ ips) : gmap nat IPv4Address)), w) /\
    forall i ip, (done ++ ips) !! i = Some ip -> outs' !! i = Some (probe i ip).
Proof.
  induction ips as [|ip ips IH]; intros done outs Hlen Hout.
  - exists outs. rewrite app_nil_r. split; [reflexivity | assumption].
  - cbn [for_each]. unfold bind at 1 2, futures.submit at 1, ret at 1.
    cbn [fst snd futures.outcomes futures.max_workers].
    destruct (IH (done ++ [ip]) (outs ++ [probe (length outs) ip])) as (outs' & Hrun & Hout').
    + rewrite !length_app. simpl. lia.
    + intros i ip' Hi. destruct (decide (i < length done)%nat) as [Hlt|Hge].
      * rewrite lookup_app_l in Hi by assumption.
        rewrite lookup_app_l by lia. now apply Hout.
      * rewrite lookup_app_r in Hi by lia.
        destruct (i - length done)%nat as [|k] eqn:Hk;
          [|simpl in Hi; rewrite lookup_nil in Hi; discriminate].
        assert (i = length outs) by lia. subst i. injection Hi as <-.
        rewrite lookup_app_r by lia. now rewrite Nat.sub_diag.
    + exists outs'. rewrite <- app_assoc in Hrun, Hout'. simpl in Hrun, Hout'.
      split; [|assumption]. fold probe.
      rewrite map_seq_snoc in Hrun. simpl in Hrun. rewrite <- Hlen in Hrun. exact Hrun.
Qed.

Lemma completion_perm fuel : forall pending choose i,
  fuel = length pending -> futures.completion fuel pending choose i ≡ₚ pending.
Proof.
  induction fuel as [|fuel IH]; intros pending choose i Hfuel.
  - destruct pending; [reflexivity | discriminate].
  - cbn [futures.completion].
    destruct (lookup_lt_is_Some_2 pending (choose i mod length pending)) as [f Hf].
    { apply Nat.mod_upper_bound. lia. }
    rewrite Hf. etrans; [|symmetry; apply (delete_Permutation pending _ f Hf)].
    constructor. apply IH. rewrite length_delete by eauto. lia.
Qed.

Lemma elements_dom_map_seq {A} (xs : list A) :
  elements (dom (map_seq 0 xs : gmap nat A)) ≡ₚ seq 0 (length xs).
Proof.
  apply NoDup_Permutation; [apply NoDup_elements | apply NoDup_seq |].
  intros i. rewrite elem_of_elements, dom_seq_L, elem_of_set_seq, elem_of_seq. reflexivity.
Qed.

Lemma size_map_seq {A} (xs : list A) : size (map_seq 0 xs : gmap nat A) = length xs.
Proof. rewrite <- size_dom, dom_seq_L. apply size_set_seq. Qed.

Lemma check_ips_begin_ok ips workers :
  0 < workers ->
  exists ex order,
    check_ips_begin ips workers timeout w
    = (Ok (mkBatch ex (map_seq 0 ips) (tqdm.new (length ips)) order), w) /\
    order ≡ₚ seq 0 (length ips) /\
    forall f, f ∈ order -> futures.outcomes ex !! f = probe_outcome ips timeout w f /\
                           is_Some (ips !! f).
Proof.
  intros Hworkers. unfold check_ips_begin, futures.ThreadPoolExecutor.
  destruct (Z.leb_spec workers 0); [lia|]. unfold bind at 1, ret at 1.
  destruct (submit_all_loop workers ips [] []) as (outs & Hsub & Hout);
    [reflexivity | intros i ip Hi; now rewrite lookup_nil in Hi |].
  unfold submit_all. change (∅ : gmap nat IPv4Address) with (map_seq 0 [] : gmap nat IPv4Address).
  rewrite (bind_ok _ _ _ _ _ Hsub). cbn [fst snd app].
  unfold bind, futures.as_completed, ret. rewrite size_map_seq.
  eexists _, _. split; [reflexivity|].
  assert (Hperm : futures.completion (length (elements (dom (map_seq 0 ips : gmap nat IPv4Address))))
                    (elements (dom (map_seq 0 ips : gmap nat IPv4Address))) (next_completed w) 0
                  ≡ₚ seq 0 (length ips)).
  { rewrite completion_perm by reflexivity. apply elements_dom_map_seq. }
  split; [exact Hperm|].
  intros f Hf. rewrite Hperm in Hf. apply elem_of_seq in Hf.
  destruct (lookup_lt_is_Some_2 ips f) as [ip Hip]; [lia|].
  cbn [futures.outcomes]. unfold probe_outcome. rewrite Hip. split; [|eauto].
  now apply Hout.
Qed.

Lemma on_completed_run ex ips f resp bar :
  futures.outcomes ex !! f = probe_outcome ips timeout w f ->
  is_Some (ips !! f) ->
  exists bar',
    on_completed ex (map_seq 0 ips) f (resp, bar) w
    = (Ok (resp ++ option_list (responded ips timeout w f), bar'), w) /\
    tqdm.n bar' = S (tqdm.n bar) /\ tqdm.total bar' = tqdm.total bar.
Proof.
  intros Hout [ip Hip]. unfold on_completed, getitem, futures.result, responded.
  rewrite lookup_map_seq_0, Hip, Hout. unfold probe_outcome. rewrite Hip.
  unfold bind at 1, ret at 1. unfold bind at 1, lift.
  destruct (test_ip_total ip timeout (set_monotonic_clock (worker_start w f) w)) as [r ->].
  destruct r as [[ip_str elapsed]|]; unfold ret; cbn [fst snd option_list].
  - eexists. split; [reflexivity|]. split; reflexivity.
  - eexists. rewrite app_nil_r. split; [reflexivity|]. split; reflexivity.
Qed.

Lemma check_ips_loop ex ips order :
  (forall f, f ∈ order -> futures.outcomes ex !! f = probe_outcome ips timeout w f /\
                          is_Some (ips !! f)) ->
  forall resp bar,
  exists states final,
    for_each_trace order (on_completed ex (map_seq 0 ips)) (resp, bar) w = (Ok states, w) /\
    for_each order (on_completed ex (map_seq 0 ips)) (resp, bar) w = (Ok final, w) /\
    length states = S (length order) /\
    last states = Some final /\
    forall k s, states !! k = Some s ->
      fst s = resp ++ omap (responded ips timeout w) (take k order) /\
      tqdm.n (snd s) = (tqdm.n bar + k)%nat /\
      tqdm.total (snd s) = tqdm.total bar.
Proof.
  induction order as [|f order IH]; intros Hok resp bar.
  - exists [(resp, bar)], (resp, bar). do 4 (split; [reflexivity|]).
    intros k s Hk. destruct k as [|k']; [|simpl in Hk; rewrite lookup_nil in Hk; discriminate].
    injection Hk as <-. simpl. rewrite app_nil_r. repeat split. lia.
  - destruct (Hok f) as [Hout Hip]; [constructor|].
    destruct (on_completed_run ex ips f resp bar Hout Hip) as (bar' & Hrun & Hn & Htot).
    destruct (IH (fun g Hg => Hok g (list_elem_of_further _ _ _ Hg))
                 (resp ++ option_list (responded ips timeout w f)) bar')
      as (states & final & Htrace & Hloop & Hlen & Hlast & Hstates).
    exists ((resp, bar) :: states), final. cbn [for_each_trace for_each].
    split; [now rewrite (bind_ok _ _ _ _ _ Hrun), (bind_ok _ _ _ _ _ Htrace)|].
    split; [now rewrite (bind_ok _ _ _ _ _ Hrun)|]. split; [simpl; lia|]. split.
    + destruct states; [discriminate | exact Hlast].
    + intros k s Hk. destruct k as [|k'].
      * injection Hk as <-. simpl. rewrite app_nil_r. repeat split. lia.
      * destruct (Hstates k' s Hk) as (Hresp & Hn' & Htot').
        split; [|split; [lia | congruence]].
        rewrite Hresp, <- app_assoc. f_equal. cbn [take omap list_omap].
        destruct (responded ips timeout w f); reflexivity.
Qed.

End Scheduler.

Lemma omap_length_le {A B} (f : A -> option B) l : (length (omap f l) <= length l)%nat.
Proof.
  induction l as [|x l IH]; [reflexivity|]. cbn [omap list_omap].
  destruct (f x); simpl; lia.
Qed.

Lemma responded_reply ips timeout w f ip :
  ips !! f = Some ip ->
  responded ips timeout w f =
  match fst (test_ip ip timeout (set_monotonic_clock (worker_start w f) w)) with
  | Ok (Some r) => Some r
  | _ => None
  end.
Proof. intros Hip. unfold responded, probe_outcome. now rewrite Hip. Qed.

Lemma check_ips_run ips workers timeout w :
  0 < workers ->
  exists order states final,
    order ≡ₚ seq 0 (length ips) /\
    check_ips_progress ips workers timeout w = (Ok states, w) /\
    check_ips_bar ips workers timeout w = (Ok final, w) /\
    check_ips ips workers timeout w = (Ok (fst final), w) /\
    length states = S (length ips) /\
    last states = Some final /\
    fst final = omap (responded ips timeout w) order /\
    forall k s, states !! k = Some s ->
      fst s = omap (responded ips timeout w) (take k order) /\
      tqdm.n (snd s) = k /\ tqdm.total (snd s) = length ips.
Proof.
  intros Hworkers.
  destruct (check_ips_begin_ok timeout w ips workers Hworkers) as (ex & order & Hbegin & Hperm & Hok).
  destruct (check_ips_loop timeout w ex ips order Hok [] (tqdm.new (length ips)))
    as (states & final & Htrace & Hloop & Hlen & Hlast & Hstates).
  assert (Horder : length order = length ips).
  { rewrite Hperm. apply length_seq. }
  assert (Hbar : check_ips_bar ips workers timeout w = (Ok final, w)).
  { unfold check_ips_bar. now rewrite (bind_ok _ _ _ _ _ Hbegin). }
  exists order, states, final. split; [assumption|]. split.
  { unfold check_ips_progress. now rewrite (bind_ok _ _ _ _ _ Hbegin). }
  split; [assumption|]. split.
  { unfold check_ips. now rewrite (bind_ok _ _ _ _ _ Hbar). }
  split; [lia|]. split; [assumption|]. split.
  - assert (Hfin : states !! length order = Some final).
    { rewrite <- Hlast, last_lookup, Hlen. reflexivity. }
    destruct (Hstates _ _ Hfin) as [Hresp _]. now rewrite firstn_all in Hresp.
  - intros k s Hk. destruct (Hstates k s Hk) as (Hresp & Hn & Htot). auto.
Qed.

(** C5.  For every batch, the progress counter goes from [0] to the number
    of addresses, one step per completed probe whatever its outcome, and
    the scheduler returns the state reached after the last of them: every
    submitted probe has ended, Responded or TimedOut, by then. *)
Theorem progress_counts_every_probe ips workers timeout w :
  0 < workers ->
  exists states final,
    check_ips_progress ips workers timeout w = (Ok states, w) /\
    check_ips_bar ips workers timeout w = (Ok final, w) /\
    check_ips ips workers timeout w = (Ok (fst final), w) /\
    length states = S (length ips) /\
    (forall k s, states !! k = Some s ->
       tqdm.n (snd s) = k /\ tqdm.total (snd s) = length ips) /\
    last states = Some final /\
    tqdm.n (snd final) = length ips /\
    (forall f ip, ips !! f = Some ip ->
       exists r, probe_outcome ips timeout w f = Some (Ok r)).
Proof.
  intros Hworkers.
  destruct (check_ips_run ips workers timeout w Hworkers)
    as (order & states & final & Hperm & Hprog & Hbar & Hrun & Hlen & Hlast & _ & Hstates).
  exists states, final. do 4 (split; [assumption|]).
  split; [intros k s Hk; now destruct (Hstates k s Hk) as (_ & ? & ?)|].
  split; [assumption|]. split.
  - assert (Hfin : states !! length ips = Some final).
    { rewrite <- Hlast, last_lookup, Hlen. reflexivity. }
    now destruct (Hstates _ _ Hfin) as (_ & ? & _).
  - intros f ip Hip. unfold probe_outcome. rewrite Hip.
    destruct (test_ip_total ip timeout (set_monotonic_clock (worker_start w f) w)) as [r ->].
    eauto.
Qed.

Lemma progress_counts_every_probe_witness :
  exists states final,
    check_ips_progress three_addresses 2 (1 # 2) patchy_world = (Ok states, patchy_world) /\
    check_ips_bar three_addresses 2 (1 # 2) patchy_world = (Ok final, patchy_world) /\
    check_ips three_addresses 2 (1 # 2) patchy_world = (Ok (fst final), patchy_world) /\
    length states = S (length three_addresses) /\
    (forall k s, states !! k = Some s ->
       tqdm.n (snd s) = k /\ tqdm.total (snd s) = length three_addresses) /\
    last states = Some final /\
    tqdm.n (snd final) = length three_addresses /\
    (forall f ip, three_addresses !! f = Some ip ->
       exists r, probe_outcome three_addresses (1 # 2) patchy_world f = Some (Ok r)).
Proof.
  apply (progress_counts_every_probe three_addresses 2 (1 # 2) patchy_world). lia.
Defined.

(** C6.  For every batch, the result set holds exactly the Responded
    outcomes: going through the futures in completion order, a probe that
    returned its (address, elapsed) pair adds that pair and a probe that
    returned [None] adds nothing; so the result is never longer than the
    batch. *)
Theorem result_set_is_the_responded ips workers timeout w :
  0 < workers ->
  exists order,
    order ≡ₚ seq 0 (length ips) /\
    check_ips ips workers timeout w = (Ok (omap (responded ips timeout w) order), w) /\
    omap (responded ips timeout w) order
      ≡ₚ omap (responded ips timeout w) (seq 0 (length ips)) /\
    (forall f ip, ips !! f = Some ip ->
       responded ips timeout w f =
       match fst (test_ip ip timeout (set_monotonic_clock (worker_start w f) w)) with
       | Ok (Some r) => Some r
       | _ => None
       end) /\
    (length (omap (responded ips timeout w) order) <= length ips)%nat.
Proof.
  intros Hworkers.
  destruct (check_ips_run ips workers timeout w Hworkers)
    as (order & states & final & Hperm & _ & _ & Hrun & _ & _ & Hfinal & _).
  exists order. split; [assumption|]. split; [now rewrite <- Hfinal|].
  split; [now rewrite Hperm|]. split; [apply responded_reply|].
  etrans; [apply omap_length_le|]. rewrite Hperm, length_seq. reflexivity.
Qed.

Lemma result_set_is_the_responded_witness :
  exists order,
    order ≡ₚ seq 0 (length three_addresses) /\
    check_ips three_addresses 2 (1 # 2) patchy_world
    = (Ok (omap (responded three_addresses (1 # 2) patchy_world) order), patchy_world) /\
    omap (responded three_addresses (1 # 2) patchy_world) order
      ≡ₚ omap (responded three_addresses (1 # 2) patchy_world) (seq 0 (length three_addresses)) /\
    (forall f ip, three_addresses !! f = Some ip ->
       responded three_addresses (1 # 2) patchy_world f =
       match fst (test_ip ip (1 # 2)
                    (set_monotonic_clock (worker_start patchy_world f) patchy_world)) with
       | Ok (Some r) => Some r
       | _ => None
       end) /\
    (length (omap (responded three_addresses (1 # 2) patchy_world) order)
     <= length three_addresses)%nat.
Proof.
  apply (result_set_is_the_responded three_addresses 2 (1 # 2) patchy_world). lia.
Defined.

(** ** Text of numbers *)

Lemma digit_char_is_digit d : 0 <= d <= 9 -> pystr.is_digit (pystr.digit_char d) = true.
Proof.
  intros Hd. assert (Hcases : d = 0 \/ d = 1 \/ d = 2 \/ d = 3 \/ d = 4 \/ d = 5 \/ d = 6
                              \/ d = 7 \/ d = 8 \/ d = 9) by lia.
  repeat (destruct Hcases as [->|Hcases]; [reflexivity|]). now subst d.
Qed.

Lemma digits_go_digits fuel : forall n acc,
  forallb pystr.is_digit (list_ascii_of_string acc) = true ->
  forallb pystr.is_digit (list_ascii_of_string (pystr.digits_go fuel n acc)) = true.
Proof.
  induction fuel as [|fuel IH]; intros n acc Hacc; cbn [pystr.digits_go]; [assumption|].
  assert (Hstep : forallb pystr.is_digit
                    (list_ascii_of_string (String (pystr.digit_char (n mod 10)) acc)) = true).
  { cbn [list_ascii_of_string forallb]. rewrite Hacc, digit_char_is_digit; [reflexivity|].
    pose proof (Z.mod_pos_bound n 10). lia. }
  destruct (n / 10 =? 0); [assumption | now apply IH].
Qed.

Lemma digits_go_length fuel : forall n acc,
  (String.length acc <= String.length (pystr.digits_go fuel n acc))%nat.
Proof.
  induction fuel as [|fuel IH]; intros n acc; cbn [pystr.digits_go]; [lia|].
  destruct (n / 10 =? 0); [simpl; lia|].
  etrans; [|apply IH]. simpl. lia.
Qed.

Lemma isdigit_intro s :
  (0 < String.length s)%nat ->
  forallb pystr.is_digit (list_ascii_of_string s) = true -> pystr.isdigit s = true.
Proof. destruct s; simpl; [lia | auto]. Qed.

Lemma str_of_int_isdigit n : 0 <= n -> pystr.isdigit (pystr.str_of_int n) = true.
Proof.
  intros Hn. unfold pystr.str_of_int. destruct (Z.ltb_spec n 0); [lia|].
  apply isdigit_intro.
  - cbn [pystr.digits_go]. destruct (n / 10 =? 0); [simpl; lia|].
    eapply Nat.lt_le_trans; [|apply digits_go_length]. simpl. lia.
  - now apply digits_go_digits.
Qed.

Lemma list_ascii_of_string_app a b :
  list_ascii_of_string (a +:+ b) = list_ascii_of_string a ++ list_ascii_of_string b.
Proof. induction a as [|c a IH]; simpl; [reflexivity | now rewrite IH]. Qed.

Lemma string_length_app a b :
  String.length (a +:+ b) = (String.length a + String.length b)%nat.
Proof. induction a as [|c a IH]; simpl; [reflexivity | now rewrite IH]. Qed.

Lemma zeros_digits k : forallb pystr.is_digit (list_ascii_of_string (pystr.zeros k)) = true.
Proof. induction k as [|k IH]; simpl; [reflexivity | exact IH]. Qed.

Lemma zeros_length k : String.length (pystr.zeros k) = k.
Proof. induction k as [|k IH]; simpl; [reflexivity | now rewrite IH]. Qed.

Lemma zfill_isdigit width s : pystr.isdigit s = true -> pystr.isdigit (pystr.zfill width s) = true.
Proof.
  intros Hs. unfold pystr.zfill. apply isdigit_intro.
  - rewrite string_length_app. destruct s; [discriminate | simpl; lia].
  - rewrite list_ascii_of_string_app, forallb_app, zeros_digits.
    destruct s; [discriminate | exact Hs].
Qed.

Lemma zfill_length width s :
  (String.length s <= width)%nat -> String.length (pystr.zfill width s) = width.
Proof.
  intros Hle. unfold pystr.zfill. rewrite string_length_app, zeros_length. lia.
Qed.

(** The text of a number below [10^width] has at most [width] characters. *)
Lemma str_of_int_short width bound :
  forallb (fun m => (String.length (pystr.str_of_int (Z.of_nat m)) <=? width)%nat)
          (seq 0 (Z.to_nat bound)) = true ->
  forall n, 0 <= n < bound ->
            (String.length (pystr.str_of_int n) <= width)%nat.
Proof.
  intros Hall n Hn. rewrite forallb_forall in Hall.
  specialize (Hall (Z.to_nat n)). rewrite Z2Nat.id in Hall by lia.
  apply Nat.leb_le, Hall, in_seq. lia.
Qed.

Lemma str_of_int_two_digits n :
  0 <= n < 100 -> (String.length (pystr.str_of_int n) <= 2)%nat.
Proof. apply (str_of_int_short 2 100). vm_compute. reflexivity. Qed.

Lemma str_of_int_four_digits n :
  0 <= n < 10000 -> (String.length (pystr.str_of_int n) <= 4)%nat.
Proof. apply (str_of_int_short 4 10000). vm_compute. reflexivity. Qed.

Lemma round_half_even_nonneg q : (0 <= q)%Q -> 0 <= pystr.round_half_even q.
Proof.
  intros Hq. unfold pystr.round_half_even.
  assert (0 <= Qfloor q).
  { change 0 with (Qfloor 0). now apply Qfloor_resp_le. }
  destruct (_ ?= _)%Q; [destruct (Z.even _)| |]; lia.
Qed.

(** Rounding to hundredths is off by half a hundredth at most. *)
Lemma round_half_even_close q :
  (Qabs (inject_Z (pystr.round_half_even q) - q) <= 1 # 2)%Q.
Proof.
  unfold pystr.round_half_even.
  pose proof (Qfloor_le q) as Hlo. pose proof (Qlt_floor q) as Hhi.
  rewrite inject_Z_plus in Hhi. change (inject_Z 1) with 1%Q in Hhi.
  assert (Hup : inject_Z (Qfloor q + 1) == inject_Z (Qfloor q) + 1)
    by now rewrite inject_Z_plus.
  destruct (q - inject_Z (Qfloor q) ?= 1 # 2)%Q eqn:Hcmp.
  - apply Qeq_alt in Hcmp. destruct (Z.even (Qfloor q)); [|rewrite Hup];
      revert Hlo Hhi Hcmp; generalize (inject_Z (Qfloor q)); intros f Hlo Hhi Hcmp;
      apply Qabs_Qle_condition; split; lra.
  - apply Qlt_alt in Hcmp.
    revert Hlo Hhi Hcmp; generalize (inject_Z (Qfloor q)); intros f Hlo Hhi Hcmp.
    apply Qabs_Qle_condition; split; lra.
  - apply Qgt_alt in Hcmp. rewrite Hup.
    revert Hlo Hhi Hcmp; generalize (inject_Z (Qfloor q)); intros f Hlo Hhi Hcmp.
    apply Qabs_Qle_condition; split; lra.
Qed.

(** [f"{x:.2f}"] has two decimals, those of [x] rounded to hundredths. *)
Lemma format_2f_two_decimals x : two_decimals (pystr.format_2f x).
Proof.
  unfold pystr.format_2f.
  set (r := pystr.round_half_even (Qabs x * 100)).
  assert (Hr : 0 <= r).
  { apply round_half_even_nonneg. apply Qmult_le_0_compat; [apply Qabs_nonneg | discriminate]. }
  exists (if Qle_bool 0 x then EmptyString else "-"),
         (pystr.str_of_int (r / 100)), (pystr.zfill 2 (pystr.str_of_int (r mod 100))).
  pose proof (Z.mod_pos_bound r 100).
  split; [reflexivity|]. split; [destruct (Qle_bool 0 x); auto|].
  split; [apply str_of_int_isdigit, Z.div_pos; lia|].
  split; [apply zfill_isdigit, str_of_int_isdigit; lia|].
  apply zfill_length, str_of_int_two_digits. lia.
Qed.

(** ** The report *)

Lemma append_assoc a b c : (a +:+ b) +:+ c = a +:+ b +:+ c.
Proof.
  induction a as [|x a IH]; [reflexivity|].
  change (String x ((a +:+ b) +:+ c) = String x (a +:+ b +:+ c)). now rewrite IH.
Qed.

Lemma plain_digits cs :
  forallb pystr.is_digit cs = true ->
  existsb (fun c => Ascii.eqb c "," || Ascii.eqb c csv.quotechar
                    || Ascii.eqb c (ascii_of_nat 13) || Ascii.eqb c (ascii_of_nat 10)) cs
  = false.
Proof.
  induction cs as [|c cs IH]; [reflexivity|]. cbn [forallb existsb].
  intros Hc. apply andb_prop in Hc as [Hc Hcs]. rewrite (IH Hcs), orb_false_r.
  unfold pystr.is_digit in Hc. apply andb_prop in Hc as [Hlo Hhi].
  apply N.leb_le in Hlo, Hhi.
  assert (Hne : forall k, (N_of_ascii k < 48)%N -> Ascii.eqb c k = false).
  { intros k Hk. apply Ascii.eqb_neq. intros ->. lia. }
  rewrite !Hne; [reflexivity | | | |]; vm_compute; reflexivity.
Qed.

Lemma isdigit_chars s :
  pystr.isdigit s = true -> forallb pystr.is_digit (list_ascii_of_string s) = true.
Proof. destruct s; [discriminate | auto]. Qed.

Lemma two_decimals_plain s : two_decimals s -> csv.needs_quoting s = false.
Proof.
  intros (sign & int_part & frac & -> & Hsign & Hint & Hfrac & _).
  unfold csv.needs_quoting.
  rewrite !list_ascii_of_string_app, !existsb_app.
  rewrite (plain_digits _ (isdigit_chars _ Hint)), (plain_digits _ (isdigit_chars _ Hfrac)).
  destruct Hsign as [-> | ->]; reflexivity.
Qed.

Lemma writerow_plain ip text :
  csv.needs_quoting ip = false -> csv.needs_quoting text = false ->
  csv.writerow [ip; text] = ip +:+ "," +:+ text +:+ pystr.crlf.
Proof.
  intros Hip Htext. unfold csv.writerow, csv.render_field; simpl. rewrite Hip, Htext.
  now rewrite !append_assoc.
Qed.

(** The text of an address, digits and dots, is written as it is. *)
Lemma address_text_plain ip : csv.needs_quoting (ipaddress.str ip) = false.
Proof.
  assert (Hoctet : forall n, csv.needs_quoting (pystr.str_of_int (n mod 256)) = false).
  { intros n. apply plain_digits, isdigit_chars, str_of_int_isdigit.
    pose proof (Z.mod_pos_bound n 256). lia. }
  unfold ipaddress.str. cbn [map pystr.join]. unfold csv.needs_quoting in *.
  rewrite !list_ascii_of_string_app, !existsb_app, !Hoctet. reflexivity.
Qed.

Lemma responded_plain ips timeout w f r :
  responded ips timeout w f = Some r -> csv.needs_quoting (fst r) = false.
Proof.
  unfold responded, probe_outcome. destruct (ips !! f) as [ip|]; [|discriminate].
  destruct (fst (test_ip ip timeout _)) as [[r'|]|] eqn:Hrun; try discriminate.
  intros [= <-]. rewrite (test_ip_names _ _ _ _ Hrun). apply address_text_plain.
Qed.

Lemma split_without_separator sep s :
  pystr.contains sep s = false -> pystr.split sep s = [s].
Proof.
  unfold pystr.contains. induction s as [|c s IH]; [reflexivity|].
  cbn [list_ascii_of_string existsb pystr.split]. intros Hc.
  apply orb_false_elim in Hc as [Hc Hs]. rewrite Ascii.eqb_sym, Hc, (IH Hs). reflexivity.
Qed.

Lemma split_at_separator sep a b :
  pystr.contains sep a = false ->
  pystr.split sep (a +:+ String sep b) = a :: pystr.split sep b.
Proof.
  unfold pystr.contains. induction a as [|c a IH]; intros Hc.
  - change (EmptyString +:+ String sep b) with (String sep b).
    cbn [pystr.split]. now rewrite Ascii.eqb_refl.
  - cbn [list_ascii_of_string existsb] in Hc. apply orb_false_elim in Hc as [Hc Ha].
    change (String c a +:+ String sep b) with (String c (a +:+ String sep b)).
    cbn [pystr.split]. rewrite Ascii.eqb_sym, Hc, (IH Ha). reflexivity.
Qed.

Lemma split_at_dot a b :
  pystr.contains "." a = false ->
  pystr.split "." (a +:+ "." +:+ b) = a :: pystr.split "." b.
Proof. apply (split_at_separator "." a b). Qed.

Lemma digits_without c s :
  pystr.is_digit c = false -> pystr.isdigit s = true -> pystr.contains c s = false.
Proof.
  intros Hc Hs. apply isdigit_chars in Hs. unfold pystr.contains.
  induction (list_ascii_of_string s) as [|x cs IH]; [reflexivity|].
  cbn [forallb existsb] in *. apply andb_prop in Hs as [Hx Hcs]. rewrite (IH Hcs), orb_false_r.
  apply Ascii.eqb_neq. intros ->. congruence.
Qed.

Lemma digit_value_digit_char d : 0 <= d <= 9 -> pystr.digit_value (pystr.digit_char d) = d.
Proof.
  intros Hd. assert (Hcases : d = 0 \/ d = 1 \/ d = 2 \/ d = 3 \/ d = 4 \/ d = 5 \/ d = 6
                              \/ d = 7 \/ d = 8 \/ d = 9) by lia.
  repeat (destruct Hcases as [->|Hcases]; [reflexivity|]). now subst d.
Qed.

(** The digits [str] writes for a number denote that number. *)
Lemma digits_go_value fuel : forall n acc,
  0 <= n < 2 ^ Z.of_nat fuel ->
  fold_left (fun a c => 10 * a + pystr.digit_value c)
            (list_ascii_of_string (pystr.digits_go fuel n acc)) 0
  = fold_left (fun a c => 10 * a + pystr.digit_value c) (list_ascii_of_string acc) n.
Proof.
  induction fuel as [|fuel IH]; intros n acc Hn.
  - cbn [pystr.digits_go]. replace n with 0 by (simpl in Hn; lia). reflexivity.
  - cbn [pystr.digits_go].
    assert (Hdigit : 0 <= n mod 10 <= 9) by (pose proof (Z.mod_pos_bound n 10); lia).
    destruct (Z.eqb_spec (n / 10) 0) as [H0|H0].
    + cbn [list_ascii_of_string fold_left]. rewrite digit_value_digit_char by assumption.
      f_equal. pose proof (Z.div_mod n 10). lia.
    + rewrite IH.
      * cbn [list_ascii_of_string fold_left]. rewrite digit_value_digit_char by assumption.
        f_equal. pose proof (Z.div_mod n 10). lia.
      * rewrite Nat2Z.inj_succ, Z.pow_succ_r in Hn by lia.
        split; [apply Z.div_pos; lia|].
        apply Z.div_lt_upper_bound; lia.
Qed.

Lemma int_of_digits_str_of_int n : 0 <= n -> pystr.int_of_digits (pystr.str_of_int n) = n.
Proof.
  intros Hn. unfold pystr.int_of_digits, pystr.str_of_int.
  destruct (Z.ltb_spec n 0); [lia|]. rewrite digits_go_value; [reflexivity|].
  split; [assumption|]. rewrite Nat2Z.inj_succ, Z2Nat.id by apply Z.log2_nonneg.
  destruct (Z.eq_dec n 0) as [->|]; [reflexivity|]. apply Z.log2_spec. lia.
Qed.

Lemma int_of_digits_zfill width s :
  pystr.int_of_digits (pystr.zfill width s) = pystr.int_of_digits s.
Proof.
  unfold pystr.int_of_digits, pystr.zfill. rewrite list_ascii_of_string_app, fold_left_app.
  f_equal. induction (width - String.length s)%nat as [|k IH]; [reflexivity|]. exact IH.
Qed.

Lemma split_decimal a b :
  pystr.isdigit a = true -> pystr.isdigit b = true ->
  pystr.split "." (a +:+ "." +:+ b) = [a; b].
Proof.
  intros Ha Hb. change (a +:+ "." +:+ b) with (a +:+ String "." b).
  rewrite split_at_separator by (apply digits_without; [reflexivity | assumption]).
  now rewrite split_without_separator by (apply digits_without; [reflexivity | assumption]).
Qed.

Lemma decimal_value_unsigned a b :
  pystr.isdigit a = true -> pystr.isdigit b = true -> String.length b = 2%nat ->
  decimal_value (a +:+ "." +:+ b)
  = Some (inject_Z (pystr.int_of_digits a) + inject_Z (pystr.int_of_digits b) / 100)%Q.
Proof.
  intros Ha Hb Hlen. pose proof (split_decimal a b Ha Hb) as Hsplit.
  destruct a as [|c a]; [discriminate|].
  assert (Hc : Ascii.eqb c "-" = false).
  { apply Ascii.eqb_neq. intros ->. discriminate. }
  unfold decimal_value.
  change (String c a +:+ "." +:+ b) with (String c (a +:+ "." +:+ b)) in *.
  cbv beta iota. rewrite Hc, Hsplit, Ha, Hb, Hlen. reflexivity.
Qed.

Lemma decimal_value_signed a b :
  pystr.isdigit a = true -> pystr.isdigit b = true -> String.length b = 2%nat ->
  decimal_value ("-" +:+ a +:+ "." +:+ b)
  = Some (- (inject_Z (pystr.int_of_digits a) + inject_Z (pystr.int_of_digits b) / 100))%Q.
Proof.
  intros Ha Hb Hlen. unfold decimal_value.
  change ("-" +:+ a +:+ "." +:+ b) with (String "-" (a +:+ "." +:+ b)).
  cbv beta iota. change (Ascii.eqb "-" "-") with true. cbv beta iota.
  rewrite (split_decimal a b Ha Hb), Ha, Hb, Hlen. reflexivity.
Qed.

(** [f"{x:.2f}"] denotes the hundredth nearest to [x]. *)
Lemma format_2f_value x :
  exists v, decimal_value (pystr.format_2f x) = Some v /\ (Qabs (v - x) <= 1 # 200)%Q.
Proof.
  unfold pystr.format_2f.
  set (r := pystr.round_half_even (Qabs x * 100)).
  assert (Hr : 0 <= r).
  { apply round_half_even_nonneg. apply Qmult_le_0_compat; [apply Qabs_nonneg | discriminate]. }
  pose proof (Z.mod_pos_bound r 100 ltac:(lia)) as Hmod.
  assert (Hdiv : 0 <= r / 100) by (apply Z.div_pos; lia).
  assert (Hint : pystr.isdigit (pystr.str_of_int (r / 100)) = true)
    by (apply str_of_int_isdigit; assumption).
  assert (Hfrac : pystr.isdigit (pystr.zfill 2 (pystr.str_of_int (r mod 100))) = true)
    by (apply zfill_isdigit, str_of_int_isdigit; lia).
  assert (Hlen : String.length (pystr.zfill 2 (pystr.str_of_int (r mod 100))) = 2%nat)
    by (apply zfill_length, str_of_int_two_digits; lia).
  assert (Hvalue : (inject_Z (pystr.int_of_digits (pystr.str_of_int (r / 100)))
                    + inject_Z (pystr.int_of_digits
                                  (pystr.zfill 2 (pystr.str_of_int (r mod 100)))) / 100
                    == inject_Z r / 100)%Q).
  { rewrite int_of_digits_zfill, !int_of_digits_str_of_int by lia.
    rewrite (Z.div_mod r 100) at 3 by lia. rewrite inject_Z_plus, inject_Z_mult. field. }
  assert (Hclose : (Qabs (inject_Z r / 100 - Qabs x) <= 1 # 200)%Q).
  { pose proof (round_half_even_close (Qabs x * 100)) as Hc. fold r in Hc.
    apply Qabs_Qle_condition in Hc as [Hlo Hhi]. apply Qabs_Qle_condition.
    generalize dependent (inject_Z r). intros q _ Hlo Hhi.
    generalize dependent (Qabs x). intros a Hlo Hhi.
    unfold Qdiv. change (/ 100)%Q with (1 # 100)%Q. split; lra. }
  destruct (Qle_bool 0 x) eqn:Hsign.
  - change (EmptyString +:+ ?s) with s.
    eexists. split; [apply decimal_value_unsigned; assumption|]. rewrite Hvalue.
    apply Qle_bool_iff in Hsign. rewrite (Qabs_pos x Hsign) in Hclose. exact Hclose.
  - eexists. split; [apply decimal_value_signed; assumption|]. rewrite Hvalue.
    assert (Hneg : (x <= 0)%Q).
    { apply Qlt_le_weak, Qnot_le_lt. intros Hc. apply Qle_bool_iff in Hc. congruence. }
    rewrite (Qabs_neg x Hneg) in Hclose.
    assert (Heq : (- (inject_Z r / 100) - x == - (inject_Z r / 100 - - x))%Q) by ring.
    now rewrite Heq, Qabs_opp.
Qed.

Lemma read_digits_app a : forall rest acc,
  forallb pystr.is_digit (list_ascii_of_string a) = true ->
  read_digits (String.length a) (a +:+ rest) acc
  = Some (fold_left (fun v c => 10 * v + pystr.digit_value c) (list_ascii_of_string a) acc, rest).
Proof.
  induction a as [|c a IH]; intros rest acc Hdigits; [reflexivity|].
  cbn [forallb list_ascii_of_string] in Hdigits. apply andb_prop in Hdigits as [Hc Ha].
  change (String c a +:+ rest) with (String c (a +:+ rest)).
  cbn [String.length read_digits]. rewrite Hc. now rewrite IH.
Qed.

Lemma read_field width n rest :
  0 <= n -> (String.length (pystr.str_of_int n) <= width)%nat ->
  read_digits width (pystr.zfill width (pystr.str_of_int n) +:+ rest) 0 = Some (n, rest).
Proof.
  intros Hn Hshort.
  pose proof (zfill_length width _ Hshort) as Hlen.
  rewrite <- Hlen at 1. rewrite read_digits_app.
  - f_equal. f_equal. change (fold_left _ _ 0) with
      (pystr.int_of_digits (pystr.zfill width (pystr.str_of_int n))).
    now rewrite int_of_digits_zfill, int_of_digits_str_of_int.
  - apply isdigit_chars, zfill_isdigit, str_of_int_isdigit. assumption.
Qed.

Lemma append_nil_r s : s +:+ EmptyString = s.
Proof.
  induction s as [|c s IH]; [reflexivity|].
  change (String c (s +:+ EmptyString) = String c s). now rewrite IH.
Qed.

(** The stamp reads back as the clock it was made from. *)
Lemma stamp_value_strftime d : four_digit_year d -> stamp_value (strftime d) = Some d.
Proof.
  intros (Hy & Hmo & Hd & Hh & Hmi & Hs). unfold strftime, stamp_value.
  rewrite (read_field 4) by (try apply str_of_int_four_digits; lia). cbv beta iota.
  rewrite (read_field 2) by (try apply str_of_int_two_digits; lia). cbv beta iota.
  rewrite (read_field 2) by (try apply str_of_int_two_digits; lia). cbv beta iota.
  change ("_" +:+ ?x) with (String "_" x). cbv beta iota.
  rewrite (read_field 2) by (try apply str_of_int_two_digits; lia). cbv beta iota.
  rewrite (read_field 2) by (try apply str_of_int_two_digits; lia). cbv beta iota.
  rewrite <- (append_nil_r (pystr.zfill 2 (pystr.str_of_int (second d)))).
  rewrite (read_field 2) by (try apply str_of_int_two_digits; lia).
  now destruct d.
Qed.

Lemma strftime_length d : four_digit_year d -> String.length (strftime d) = 15%nat.
Proof.
  intros (Hy & Hmo & Hd & Hh & Hmi & Hs). unfold strftime.
  rewrite !string_length_app.
  rewrite (zfill_length 4) by (apply str_of_int_four_digits; lia).
  rewrite !(zfill_length 2) by (apply str_of_int_two_digits; lia).
  reflexivity.
Qed.

Lemma set_stdout_twice l l' w : set_stdout l' (set_stdout l w) = set_stdout l' w.
Proof. reflexivity. Qed.

Lemma set_stdout_same w : set_stdout (stdout w) w = w.
Proof. now destruct w. Qed.

Lemma print_each {A} (line : A -> string) (xs : list A) : forall w,
  for_each xs (fun x _ => print (line x)) tt w
  = (Ok tt, set_stdout (stdout w ++ map (fun x => line x +:+ pystr.newline) xs) w).
Proof.
  induction xs as [|x xs IH]; intros w; cbn [for_each map].
  - unfold ret. now rewrite app_nil_r, set_stdout_same.
  - unfold bind, print at 1. rewrite IH. cbn [stdout set_stdout].
    now rewrite <- app_assoc.
Qed.

Lemma report_run str_of_float choice responsive timeout w :
  let filename := output_filename choice (strftime (wall_clock w)) in
  report str_of_float choice responsive timeout w =
  (Ok tt,
   match responsive with
   | [] =>
       set_stdout (stdout w ++ [pystr.newline +:+ "No IPs responded within "
                                +:+ str_of_float timeout +:+ " second(s)." +:+ pystr.newline]) w
   | _ :: _ =>
       set_stdout
         (stdout w
          ++ [pystr.newline +:+ "Responsive IPs and timings:" +:+ pystr.newline]
          ++ map (fun r => (fst r +:+ ", " +:+ pystr.format_2f (snd r) +:+ "s") +:+ pystr.newline)
                 responsive
          ++ [pystr.newline +:+ "Saved responsive IPs to " +:+ filename +:+ pystr.newline])
         (set_files (written w ++ [(filename, csv_content responsive)])
                    (<[filename := csv_content responsive]> (files w)) w)
   end).
Proof.
  intros filename. unfold report, datetime_now. unfold bind at 1.
  fold filename. destruct responsive as [|r responsive].
  - unfold print. f_equal. f_equal. f_equal. f_equal.
    now rewrite <- !append_assoc.
  - unfold bind at 1, print at 1. unfold bind at 1. rewrite print_each.
    unfold bind, write_file, print. cbn [stdout set_stdout written files set_files].
    f_equal. unfold set_stdout, set_files; cbn.
    rewrite <- !app_assoc. cbn [app]. rewrite <- !append_assoc. reflexivity.
Qed.

(** C7.  The CSV file, named [responsive_ips_<pool>_<YYYYMMDD_HHMMSS>.csv]
    after the pool and the wall clock (the stamp reads back as the clock),
    whose first row is [ip,response_time_s] and whose elapsed times are
    written with two decimals, as the hundredth nearest to the time
    measured, is written if and only if at least one address responded;
    when none did, one console message is printed and no file is created. *)
Theorem csv_written_iff_responsive str_of_float choice responsive timeout w :
  let filename :=
    "responsive_ips_" +:+ choice +:+ "_" +:+ strftime (wall_clock w) +:+ ".csv" in
  let w' := snd (report str_of_float choice responsive timeout w) in
  fst (report str_of_float choice responsive timeout w) = Ok tt /\
  (responsive <> [] ->
   written w' = written w ++ [(filename, csv_content responsive)] /\
   files w' = <[filename := csv_content responsive]> (files w)) /\
  (responsive = [] ->
   written w' = written w /\ files w' = files w /\
   stdout w' = stdout w ++ [pystr.newline +:+ "No IPs responded within "
                            +:+ str_of_float timeout +:+ " second(s)." +:+ pystr.newline]) /\
  (written w' <> written w <-> responsive <> []) /\
  csv_content responsive
  = ("ip,response_time_s" +:+ pystr.crlf)
    +:+ String.concat EmptyString
          (map (fun r => csv.writerow [fst r; pystr.format_2f (snd r)]) responsive) /\
  (forall r, r ∈ responsive ->
     two_decimals (pystr.format_2f (snd r)) /\
     (exists v, decimal_value (pystr.format_2f (snd r)) = Some v /\
                (Qabs (v - snd r) <= 1 # 200)%Q) /\
     (csv.needs_quoting (fst r) = false ->
      csv.writerow [fst r; pystr.format_2f (snd r)]
      = fst r +:+ "," +:+ pystr.format_2f (snd r) +:+ pystr.crlf) /\
     (forall ip, fst r = ipaddress.str ip ->
      csv.writerow [fst r; pystr.format_2f (snd r)]
      = ipaddress.str ip +:+ "," +:+ pystr.format_2f (snd r) +:+ pystr.crlf)) /\
  (four_digit_year (wall_clock w) ->
   String.length (strftime (wall_clock w)) = 15%nat /\
   stamp_value (strftime (wall_clock w)) = Some (wall_clock w)).
Proof.
  intros filename w'. subst w'. rewrite report_run. cbn [fst snd].
  change (output_filename choice (strftime (wall_clock w))) with filename.
  split; [reflexivity|]. split; [|split; [|split; [|split; [|split]]]].
  - intros Hne. destruct responsive; [congruence|]. split; reflexivity.
  - intros ->. repeat split.
  - destruct responsive as [|r responsive]; cbn [written set_stdout set_files].
    + split; congruence.
    + split; [discriminate|]. intros _ Heq.
      apply (f_equal (@length _)) in Heq. rewrite length_app in Heq. simpl in Heq. lia.
  - unfold csv_content, csv_rows. cbn [map String.concat].
    destruct responsive as [|r responsive]; cbn [map String.concat].
    + reflexivity.
    + rewrite map_map. reflexivity.
  - intros r _. split; [apply format_2f_two_decimals|]. split; [apply format_2f_value|].
    split.
    + intros Hip. apply writerow_plain; [assumption|].
      apply two_decimals_plain, format_2f_two_decimals.
    + intros ip ->. apply writerow_plain; [apply address_text_plain|].
      apply two_decimals_plain, format_2f_two_decimals.
  - intros Hclock. split; [now apply strftime_length | now apply stamp_value_strftime].
Qed.

Lemma csv_written_iff_responsive_witness :
  written (snd (report (fun _ => "1.0") "fastly" [("10.0.0.1", 1 # 8)] 1 sample_world))
  = written sample_world
    ++ [("responsive_ips_" +:+ "fastly" +:+ "_" +:+ strftime (wall_clock sample_world) +:+ ".csv",
         csv_content [("10.0.0.1", 1 # 8)])] /\
  (exists v, decimal_value (pystr.format_2f (1 # 8)) = Some v /\
             (Qabs (v - (1 # 8)) <= 1 # 200)%Q) /\
  csv.writerow ["10.0.0.1"; pystr.format_2f (1 # 8)]
  = ipaddress.str (mkAddr 167772161) +:+ "," +:+ pystr.format_2f (1 # 8) +:+ pystr.crlf /\
  String.length (strftime (wall_clock sample_world)) = 15%nat /\
  stamp_value (strftime (wall_clock sample_world)) = Some (wall_clock sample_world).
Proof.
  pose proof (csv_written_iff_responsive (fun _ => "1.0") "fastly" [("10.0.0.1", 1 # 8)] 1
                sample_world) as H.
  cbv zeta in H. destruct H as (_ & Hfile & _ & _ & _ & Hrows & Hstamp).
  destruct (Hrows ("10.0.0.1", 1 # 8)) as (_ & Hvalue & _ & Hrow); [constructor|].
  split; [|split; [|split]].
  - apply Hfile. discriminate.
  - exact Hvalue.
  - apply (Hrow (mkAddr 167772161)). reflexivity.
  - apply Hstamp. unfold four_digit_year. simpl. lia.
Defined.

(** ** The provider fetch *)

Lemma fetch_bunny_ips_run w :
  let r := network w "https://bunnycdn.com/api/system/edgeserverlist" 10 (monotonic_clock w) in
  let w1 := set_monotonic_clock (monotonic_clock w + took r)%Q w in
  let failed e :=
    (Ok (JArr []),
     set_stdout (stdout w1 ++ [("Error fetching Bunny CDN IPs: " +:+ str_exn e) +:+ pystr.newline])
                w1) in
  fetch_bunny_ips w =
  match reply r with
  | Answered response =>
      if (400 <=? status_code response) && (status_code response <? 600)
      then failed HTTPError
      else match body_json response with
           | Some v => (Ok v, w1)
           | None => failed JSONDecodeError
           end
  | NoAnswerInTime => failed RequestsTimeout
  | StalledInBody | ConnectionRefused | ConnectionReset | Unreachable =>
      failed RequestsConnectionError
  | ProtocolViolation | BadRequest => failed RequestsOther
  end.
Proof.
  intros r w1 failed. subst r w1 failed.
  unfold fetch_bunny_ips, try_except, bind at 1, requests.get.
  change (float_le_zero 10) with false. cbv iota.
  destruct (reply _) as [response| | | | | | |]; try reflexivity.
  unfold bind at 1, requests.raise_for_status.
  destruct (_ && _); [reflexivity|].
  unfold ret at 1, requests.json_of. destruct (body_json response); reflexivity.
Qed.

(** The fetch contains every failure: it returns, and what it returns on a
    network error, an error status or an undecodable body is the empty
    list. *)
Lemma fetch_bunny_ips_returns w : exists v, fst (fetch_bunny_ips w) = Ok v.
Proof.
  rewrite fetch_bunny_ips_run. cbv zeta.
  destruct (reply _) as [response| | | | | | |]; simpl; eauto.
  destruct (_ && _); simpl; eauto. destruct (body_json response); simpl; eauto.
Qed.

Lemma fetch_bunny_ips_failure w :
  let r := network w "https://bunnycdn.com/api/system/edgeserverlist" 10 (monotonic_clock w) in
  match reply r with
  | Answered response =>
      400 <= status_code response < 600 \/ body_json response = None
  | _ => True
  end ->
  fst (fetch_bunny_ips w) = Ok (JArr []).
Proof.
  intros r Hfail. rewrite fetch_bunny_ips_run. cbv zeta. fold r.
  destruct (reply r) as [response| | | | | | |]; try reflexivity.
  destruct (Z.leb_spec 400 (status_code response)), (Z.ltb_spec (status_code response) 600);
    simpl; try reflexivity; (destruct Hfail as [?| ->]; [lia | reflexivity]).
Qed.

Lemma fetch_bunny_ips_body w response v :
  reply (network w "https://bunnycdn.com/api/system/edgeserverlist" 10 (monotonic_clock w))
  = Answered response ->
  ~ 400 <= status_code response < 600 ->
  body_json response = Some v ->
  fst (fetch_bunny_ips w) = Ok v.
Proof.
  intros Hreply Hstatus Hbody. rewrite fetch_bunny_ips_run. cbv zeta. rewrite Hreply, Hbody.
  destruct (Z.leb_spec 400 (status_code response)), (Z.ltb_spec (status_code response) 600);
    simpl; try reflexivity; lia.
Qed.

(** The caller decides that an empty result is fatal. *)
Lemma select_pool_empty_fetch w :
  truthy (match fst (fetch_bunny_ips (snd (print "Fetching Bunny CDN IP addresses..." w))) with
          | Ok v => v
          | Raise _ => JNull
          end) = false ->
  fst (select_pool "bunny" w) = Raise (SystemExit 1).
Proof.
  intros Hfalsy. unfold select_pool. cbn [String.eqb Ascii.eqb Bool.eqb].
  unfold bind at 1. cbn [print].
  destruct (fetch_bunny_ips_returns
              (set_stdout (stdout w ++ ["Fetching Bunny CDN IP addresses..." +:+ pystr.newline]) w))
    as [v Hv].
  cbn [print snd] in Hfalsy. rewrite Hv in Hfalsy.
  unfold bind at 1.
  destruct (fetch_bunny_ips _) as [[v'|e] w1]; cbn [fst] in Hv; [|discriminate].
  injection Hv as ->. rewrite Hfalsy. reflexivity.
Qed.

(** C9 fails on the code: when the provider answers with a JSON document
    that is not an array, the fetch returns that document, which is not a
    list, and [main] goes on with it. *)
Theorem fetch_returns_whatever_the_body_holds :
  fst (fetch_bunny_ips object_world) = Ok refusal /\
  (forall items, refusal <> JArr items) /\
  fst (main (fun _ => None) (fun _ => EmptyString) object_world) = Raise AddressValueError.
Proof.
  split; [reflexivity|]. split; [discriminate|]. vm_compute. reflexivity.
Qed.

(** * Further properties of the program *)

(** ** The prompts of [main] *)

Lemma host_unchanged_refl w : host_unchanged w w.
Proof. repeat split. Qed.

Lemma host_unchanged_trans w1 w2 w3 :
  host_unchanged w1 w2 -> host_unchanged w2 w3 -> host_unchanged w1 w3.
Proof.
  intros (H1 & H2 & H3 & H4) (K1 & K2 & K3 & K4). repeat split; congruence.
Qed.

(** X1.  An ASCII line that names none of [fastly], [cloudflare] and
    [bunny] (after trimming and lowering) ends [main] with exit status 1
    right after the first prompt: one message is printed, no further line
    is read, nothing is fetched, drawn or written. *)
Theorem main_refuses_unknown_pool float_of_string str_of_float w line rest :
  stdin w = line :: rest ->
  pystr.isascii line = true ->
  pystr.lower (pystr.strip line) <> "fastly" ->
  pystr.lower (pystr.strip line) <> "cloudflare" ->
  pystr.lower (pystr.strip line) <> "bunny" ->
  main float_of_string str_of_float w =
  (Raise (SystemExit 1),
   set_stdout (stdout w ++ ["Which network to test? [fastly/cloudflare/bunny]: ";
                            "Please enter 'fastly', 'cloudflare', or 'bunny'." +:+ pystr.newline])
              (set_stdin rest w)).
Proof.
  intros Hin _ Hf Hc Hb. unfold main. unfold bind at 1, input at 1. rewrite Hin.
  assert (Hunknown : existsb (String.eqb (pystr.lower (pystr.strip line)))
                       ["fastly"; "cloudflare"; "bunny"] = false).
  { cbn [existsb]. apply String.eqb_neq in Hf, Hc, Hb. now rewrite Hf, Hc, Hb. }
  rewrite Hunknown. cbn [negb]. unfold bind, print, sys_exit, raise.
  unfold set_stdout, set_stdin. cbn [random_state monotonic_clock network stdin stdout
    written files wall_clock cpu_count worker_start next_completed].
  now rewrite <- app_assoc.
Qed.

Lemma main_refuses_unknown_pool_witness :
  fst (main (fun _ => None) (fun _ => EmptyString) (set_stdin ["akamai"; "5"] sample_world))
  = Raise (SystemExit 1) /\
  stdin (snd (main (fun _ => None) (fun _ => EmptyString)
                   (set_stdin ["akamai"; "5"] sample_world))) = ["5"].
Proof.
  rewrite (main_refuses_unknown_pool (fun _ => None) (fun _ => EmptyString)
             (set_stdin ["akamai"; "5"] sample_world) "akamai" ["5"]);
    [split; reflexivity | reflexivity | reflexivity | discriminate | discriminate
    | discriminate].
Defined.

(** X2.  The count prompt lets nothing but a positive integer through.
    On an ASCII line, whatever [read_count] returns is what [int] reads on
    that line and is positive, the line being the only one consumed; a
    line that [int] refuses, or reads as an integer that is not positive,
    ends the run with exit status 1, that line consumed.  An end of input
    is not turned into that exit: the [EOFError] goes up. *)
Theorem read_count_positive :
  (forall w line rest count w',
     stdin w = line :: rest -> pystr.isascii line = true ->
     read_count w = (Ok count, w') ->
     0 < count /\ pystr.int_of_string line = Ok count /\ stdin w' = rest) /\
  (forall w line rest,
     stdin w = line :: rest -> pystr.isascii line = true ->
     (forall count, pystr.int_of_string line = Ok count -> count <= 0) ->
     fst (read_count w) = Raise (SystemExit 1) /\ stdin (snd (read_count w)) = rest) /\
  (forall w, stdin w = [] -> fst (read_count w) = Raise EOFError).
Proof.
  split; [|split].
  - intros w line rest count w' Hin _. unfold read_count, try_except, bind, input, lift.
    rewrite Hin. destruct (pystr.int_of_string line) as [c|e] eqn:Hparse.
    + destruct (Z.leb_spec c 0); [discriminate|].
      intros [= <- <-]. split; [assumption|]. split; reflexivity.
    + apply int_of_string_raises in Hparse. subst e. discriminate.
  - intros w line rest Hin _ Hbad. unfold read_count, try_except, bind, input, lift.
    rewrite Hin. destruct (pystr.int_of_string line) as [c|e] eqn:Hparse.
    + specialize (Hbad c eq_refl). destruct (Z.leb_spec c 0); [|lia]. split; reflexivity.
    + apply int_of_string_raises in Hparse. subst e. split; reflexivity.
  - intros w Hin. unfold read_count, try_except, bind, input. rewrite Hin. reflexivity.
Qed.

Lemma read_count_positive_witness :
  (0 < 12 /\ pystr.int_of_string " +1_2 " = Ok 12 /\
   stdin (set_stdin ["x"] (set_stdout ["Enter number of IPs to check: "] sample_world)) = ["x"]) /\
  (fst (read_count (set_stdin [separated_count; "x"] sample_world)) = Raise (SystemExit 1) /\
   stdin (snd (read_count (set_stdin [separated_count; "x"] sample_world))) = ["x"]) /\
  fst (read_count (set_stdin [] sample_world)) = Raise EOFError.
Proof.
  destruct read_count_positive as (Hok & Hbad & Heof). split; [|split].
  - apply (Hok (set_stdin [" +1_2 "; "x"] sample_world) " +1_2 " ["x"] 12
               (set_stdin ["x"] (set_stdout ["Enter number of IPs to check: "] sample_world)));
      reflexivity.
  - apply (Hbad (set_stdin [separated_count; "x"] sample_world) separated_count ["x"]);
      [reflexivity | reflexivity |].
    intros count Hcount. vm_compute in Hcount. discriminate.
  - apply (Heof (set_stdin [] sample_world)). reflexivity.
Defined.

Lemma read_count_accepts w line rest count :
  stdin w = line :: rest -> pystr.int_of_string line = Ok count -> 0 < count ->
  read_count w =
  (Ok count, set_stdin rest (set_stdout (stdout w ++ ["Enter number of IPs to check: "]) w)).
Proof.
  intros Hin Hparse Hpos. unfold read_count, try_except, bind, input, lift.
  rewrite Hin, Hparse. destruct (Z.leb_spec count 0); [lia | reflexivity].
Qed.

Lemma read_workers_run w line rest :
  stdin w = line :: rest ->
  let prompt := "Enter number of worker threads [recommended "
                +:+ pystr.str_of_int (cpu_count w) +:+ "]: " in
  let warning := "Invalid worker count; using recommended value." +:+ pystr.newline in
  let typed :=
    if String.eqb (pystr.strip line) EmptyString then None
    else Some (match pystr.int_of_string (pystr.strip line) with
               | Ok workers => if 0 <? workers then Some workers else None
               | Raise _ => None
               end) in
  read_workers w =
  (Ok (match typed with Some (Some workers) => workers | _ => cpu_count w end),
   set_stdout (stdout w ++ prompt :: match typed with Some None => [warning] | _ => [] end)
              (set_stdin rest w)).
Proof.
  intros Hin prompt warning typed. subst prompt warning typed.
  unfold read_workers, multiprocessing_cpu_count. unfold bind at 1. unfold bind at 1, input at 1.
  rewrite Hin. cbn [cpu_count set_stdin set_stdout].
  destruct (String.eqb (pystr.strip line) EmptyString); [reflexivity|].
  unfold try_except, bind, lift, print, raise, ret.
  destruct (pystr.int_of_string (pystr.strip line)) as [workers|e] eqn:Hparse.
  - destruct (Z.leb_spec workers 0), (Z.ltb_spec 0 workers); try lia.
    + cbn [is_ValueError]. unfold set_stdout, set_stdin.
      cbn [random_state monotonic_clock network stdin stdout written files wall_clock
           cpu_count worker_start next_completed].
      now rewrite <- app_assoc.
    + reflexivity.
  - apply int_of_string_raises in Hparse. subst e. cbn [is_ValueError].
    unfold set_stdout, set_stdin.
    cbn [random_state monotonic_clock network stdin stdout written files wall_clock
         cpu_count worker_start next_completed].
    now rewrite <- app_assoc.
Qed.

(** X3.  The worker prompt never fails on a typed ASCII line: a blank line
    gives the number of cores, silently; a line that [int] reads, once
    stripped, as a positive integer gives that integer; anything else
    gives the number of cores after one warning.  So with a positive
    number of cores the worker count handed to the scheduler is
    positive. *)
Theorem read_workers_falls_back w line rest :
  stdin w = line :: rest ->
  pystr.isascii line = true ->
  let prompt := "Enter number of worker threads [recommended "
                +:+ pystr.str_of_int (cpu_count w) +:+ "]: " in
  let warning := "Invalid worker count; using recommended value." +:+ pystr.newline in
  let typed :=
    if String.eqb (pystr.strip line) EmptyString then None
    else Some (match pystr.int_of_string (pystr.strip line) with
               | Ok workers => if 0 <? workers then Some workers else None
               | Raise _ => None
               end) in
  read_workers w =
  (Ok (match typed with Some (Some workers) => workers | _ => cpu_count w end),
   set_stdout (stdout w ++ prompt :: match typed with Some None => [warning] | _ => [] end)
              (set_stdin rest w)) /\
  (0 < cpu_count w ->
   0 < match typed with Some (Some workers) => workers | _ => cpu_count w end).
Proof.
  intros Hin _ prompt warning typed. split.
  - exact (read_workers_run w line rest Hin).
  - subst typed. intros Hcpu. destruct (String.eqb _ _); [assumption|].
    destruct (pystr.int_of_string _) as [workers|]; [|assumption].
    destruct (Z.ltb_spec 0 workers); assumption.
Qed.

Lemma read_workers_falls_back_witness :
  fst (read_workers (set_stdin ["-4"; "x"] sample_world)) = Ok 4 /\
  fst (read_workers (set_stdin [separated_count; "x"] sample_world)) = Ok 12 /\
  0 < 4.
Proof.
  pose proof (read_workers_falls_back (set_stdin ["-4"; "x"] sample_world) "-4" ["x"]
                eq_refl eq_refl) as [Hrun Hpos].
  pose proof (read_workers_falls_back (set_stdin [separated_count; "x"] sample_world)
                separated_count ["x"] eq_refl eq_refl) as [Hrun' _].
  split; [|split].
  - rewrite Hrun. reflexivity.
  - rewrite Hrun'. reflexivity.
  - apply Hpos. reflexivity.
Defined.

Lemma read_timeout_run float_of_string w line rest :
  stdin w = line :: rest ->
  let warning := "Invalid timeout; using default of 1 second." +:+ pystr.newline in
  let typed :=
    if String.eqb (pystr.strip line) EmptyString then None
    else Some (match float_of_string (pystr.strip line) with
               | Some timeout => if float_le_zero timeout then None else Some timeout
               | None => None
               end) in
  read_timeout float_of_string w =
  (Ok (match typed with Some (Some timeout) => timeout | _ => Finite 1 end),
   set_stdout (stdout w ++ "Enter timeout in seconds [default 1]: "
                             :: match typed with Some None => [warning] | _ => [] end)
              (set_stdin rest w)).
Proof.
  intros Hin warning typed. subst warning typed.
  unfold read_timeout. unfold bind at 1, input at 1. rewrite Hin.
  destruct (String.eqb (pystr.strip line) EmptyString); [reflexivity|].
  unfold try_except, bind, print, raise, ret.
  destruct (float_of_string (pystr.strip line)) as [timeout|].
  - destruct (float_le_zero timeout); [|reflexivity].
    cbn [is_ValueError]. unfold set_stdout, set_stdin.
    cbn [random_state monotonic_clock network stdin stdout written files wall_clock
         cpu_count worker_start next_completed].
    now rewrite <- app_assoc.
  - cbn [is_ValueError]. unfold set_stdout, set_stdin.
    cbn [random_state monotonic_clock network stdin stdout written files wall_clock
         cpu_count worker_start next_completed].
    now rewrite <- app_assoc.
Qed.

(** X4.  The timeout prompt never fails on a typed ASCII line either: a
    blank line gives one second, silently; a float that is not [<= 0]
    gives that float; a float [<= 0] or a text [float] refuses gives one
    second after one warning.  The timeout handed to the probes is
    therefore never [<= 0]: it is a positive number, or the infinity or
    the NaN that [float] reads on [inf] or [nan], which the guard lets
    through. *)
Theorem read_timeout_falls_back float_of_string w line rest :
  stdin w = line :: rest ->
  pystr.isascii line = true ->
  let warning := "Invalid timeout; using default of 1 second." +:+ pystr.newline in
  let typed :=
    if String.eqb (pystr.strip line) EmptyString then None
    else Some (match float_of_string (pystr.strip line) with
               | Some timeout => if float_le_zero timeout then None else Some timeout
               | None => None
               end) in
  let timeout := match typed with Some (Some timeout) => timeout | _ => Finite 1 end in
  read_timeout float_of_string w =
  (Ok timeout,
   set_stdout (stdout w ++ "Enter timeout in seconds [default 1]: "
                             :: match typed with Some None => [warning] | _ => [] end)
              (set_stdin rest w)) /\
  float_le_zero timeout = false /\
  match timeout with
  | Finite seconds => (0 < seconds)%Q
  | PosInf | NaN => True
  | NegInf => False
  end.
Proof.
  intros Hin _ warning typed timeout. split.
  - exact (read_timeout_run float_of_string w line rest Hin).
  - assert (Hguard : float_le_zero timeout = false).
    { subst timeout typed. destruct (String.eqb _ _); [reflexivity|].
      destruct (float_of_string _) as [t|]; [|reflexivity].
      destruct (float_le_zero t) eqn:Hle; [reflexivity | exact Hle]. }
    split; [exact Hguard|]. destruct timeout as [seconds| | |]; try exact I.
    + apply Qnot_le_lt. intros Hc. apply Qle_bool_iff in Hc.
      cbn [float_le_zero] in Hguard. congruence.
    + discriminate.
Qed.

Lemma read_timeout_falls_back_witness :
  fst (read_timeout sample_float (set_stdin [" 0.5 "] sample_world)) = Ok (Finite (1 # 2)) /\
  fst (read_timeout sample_float (set_stdin ["-2"] sample_world)) = Ok (Finite 1) /\
  fst (read_timeout sample_float (set_stdin ["soon"] sample_world)) = Ok (Finite 1) /\
  fst (read_timeout sample_float (set_stdin ["nan"] sample_world)) = Ok NaN.
Proof.
  split; [|split; [|split]].
  - rewrite (proj1 (read_timeout_falls_back sample_float (set_stdin [" 0.5 "] sample_world)
                      " 0.5 " [] eq_refl eq_refl)). reflexivity.
  - rewrite (proj1 (read_timeout_falls_back sample_float (set_stdin ["-2"] sample_world)
                      "-2" [] eq_refl eq_refl)). reflexivity.
  - rewrite (proj1 (read_timeout_falls_back sample_float (set_stdin ["soon"] sample_world)
                      "soon" [] eq_refl eq_refl)). reflexivity.
  - rewrite (proj1 (read_timeout_falls_back sample_float (set_stdin ["nan"] sample_world)
                      "nan" [] eq_refl eq_refl)). reflexivity.
Defined.

(** ** The provider fetch, and [main] when it fails *)

Lemma fetch_bunny_ips_frame w :
  host_unchanged w (snd (fetch_bunny_ips w)) /\
  stdin (snd (fetch_bunny_ips w)) = stdin w /\
  random_state (snd (fetch_bunny_ips w)) = random_state w /\
  network (snd (fetch_bunny_ips w)) = network w /\
  worker_start (snd (fetch_bunny_ips w)) = worker_start w.
Proof.
  unfold host_unchanged. rewrite fetch_bunny_ips_run. cbv zeta.
  destruct (reply _) as [response| | | | | | |]; try (repeat split; reflexivity).
  destruct ((400 <=? status_code response) && (status_code response <? 600));
    [repeat split; reflexivity|]. destruct (body_json response); repeat split; reflexivity.
Qed.

(** X5.  No failure of the provider fetch reaches the caller: whatever
    happens on the wire the function returns; on a network error, a
    time-out, a 4xx or 5xx status or a body that is not JSON it returns the
    empty list after printing one line; otherwise it returns the decoded
    body and prints nothing.  It reads no input, draws no random number
    and writes no file. *)
Theorem fetch_contains_every_failure w :
  let x := reply (network w edgeserverlist 10 (monotonic_clock w)) in
  let w' := snd (fetch_bunny_ips w) in
  (exists v, fst (fetch_bunny_ips w) = Ok v) /\
  (fetch_failed x ->
   fst (fetch_bunny_ips w) = Ok (JArr []) /\
   exists message, stdout w' = stdout w ++ [message]) /\
  (forall response v,
     x = Answered response -> ~ 400 <= status_code response < 600 ->
     body_json response = Some v ->
     fst (fetch_bunny_ips w) = Ok v /\ stdout w' = stdout w) /\
  host_unchanged w w' /\ stdin w' = stdin w /\ random_state w' = random_state w.
Proof.
  intros x w'. subst w'. pose proof (fetch_bunny_ips_run w) as Hrun. cbv zeta in Hrun.
  fold edgeserverlist in Hrun. fold x in Hrun.
  assert (Hstatus : forall response,
            (400 <=? status_code response) && (status_code response <? 600) = true
            <-> 400 <= status_code response < 600).
  { intros response. rewrite andb_true_iff, Z.leb_le, Z.ltb_lt. tauto. }
  split; [apply fetch_bunny_ips_returns|]. split; [|split].
  - intros Hfail. rewrite Hrun. destruct x as [response| | | | | | |];
      try (split; [reflexivity | eexists; reflexivity]).
    destruct ((400 <=? status_code response) && (status_code response <? 600)) eqn:Hs;
      [split; [reflexivity | eexists; reflexivity]|].
    destruct Hfail as [Hbad|Hbody].
    + apply Hstatus in Hbad. congruence.
    + rewrite Hbody. split; [reflexivity | eexists; reflexivity].
  - intros response v Hx Hgood Hbody. rewrite Hrun, Hx, Hbody.
    destruct ((400 <=? status_code response) && (status_code response <? 600)) eqn:Hs;
      [apply Hstatus in Hs; contradiction|].
    split; reflexivity.
  - destruct (fetch_bunny_ips_frame w) as (Hhost & Hstdin & Hrandom & _). auto.
Qed.

Lemma fetch_contains_every_failure_witness :
  (fst (fetch_bunny_ips patchy_world) = Ok (JArr []) /\
   exists message,
     stdout (snd (fetch_bunny_ips patchy_world)) = stdout patchy_world ++ [message]) /\
  (fst (fetch_bunny_ips listing_world) = Ok (JArr listed) /\
   stdout (snd (fetch_bunny_ips listing_world)) = stdout listing_world).
Proof.
  split.
  - apply (fetch_contains_every_failure patchy_world). simpl. left. lia.
  - apply (proj1 (proj2 (proj2 (fetch_contains_every_failure listing_world)))
             (mkResponse 200 (Some (JArr listed))) (JArr listed));
      [reflexivity | simpl; lia | reflexivity].
Defined.

Lemma fetch_bunny_ips_falsy w :
  fetch_failed (reply (network w edgeserverlist 10 (monotonic_clock w))) \/
  (exists response v,
     reply (network w edgeserverlist 10 (monotonic_clock w)) = Answered response /\
     body_json response = Some v /\ truthy v = false) ->
  exists v, fst (fetch_bunny_ips w) = Ok v /\ truthy v = false.
Proof.
  intros [Hfail | (response & v & Hx & Hbody & Hfalsy)].
  - exists (JArr []). split; [|reflexivity]. now apply fetch_bunny_ips_failure.
  - rewrite fetch_bunny_ips_run. cbv zeta. fold edgeserverlist. rewrite Hx, Hbody.
    destruct ((400 <=? status_code response) && (status_code response <? 600)).
    + exists (JArr []). split; reflexivity.
    + exists v. split; [reflexivity | assumption].
Qed.

(** X6.  With the [bunny] pool chosen, a fetch that fails, or that brings
    back an empty list (or any other empty or null value), ends [main] with
    exit status 1 before the count is asked for: the lines typed ahead are
    left unread, no random number is drawn and no file is written. *)
Theorem main_stops_on_empty_fetch float_of_string str_of_float w line rest :
  stdin w = line :: rest ->
  pystr.lower (pystr.strip line) = "bunny" ->
  fetch_failed (reply (network w edgeserverlist 10 (monotonic_clock w))) \/
  (exists response v,
     reply (network w edgeserverlist 10 (monotonic_clock w)) = Answered response /\
     body_json response = Some v /\ truthy v = false) ->
  let w' := snd (main float_of_string str_of_float w) in
  fst (main float_of_string str_of_float w) = Raise (SystemExit 1) /\
  stdin w' = rest /\
  last (stdout w') = Some ("Failed to fetch Bunny CDN IPs. Exiting." +:+ pystr.newline) /\
  random_state w' = random_state w /\
  host_unchanged w w'.
Proof.
  intros Hin Hchoice Hwire w'. subst w'.
  set (w1 := set_stdout
               (stdout w ++ ["Which network to test? [fastly/cloudflare/bunny]: ";
                             "Fetching Bunny CDN IP addresses..." +:+ pystr.newline])
               (set_stdin rest w)).
  destruct (fetch_bunny_ips_falsy w1 Hwire) as (v & Hv & Hfalsy).
  destruct (fetch_bunny_ips_frame w1) as (Hhost & Hstdin & Hrandom & _).
  destruct (fetch_bunny_ips w1) as [o w2] eqn:Hfetch. cbn [fst snd] in *. subst o.
  assert (Hmain : main float_of_string str_of_float w =
                  (Raise (SystemExit 1),
                   set_stdout (stdout w2 ++ ["Failed to fetch Bunny CDN IPs. Exiting."
                                             +:+ pystr.newline]) w2)).
  { unfold main. unfold bind at 1, input at 1. rewrite Hin, Hchoice.
    cbn [existsb String.eqb Ascii.eqb Bool.eqb orb negb].
    unfold select_pool. cbn [String.eqb Ascii.eqb Bool.eqb].
    unfold bind at 1. unfold bind at 1, print at 1.
    match goal with
    | |- context [bind fetch_bunny_ips _ ?W] =>
        replace W with w1
          by (unfold w1, set_stdout, set_stdin;
              cbn [random_state monotonic_clock network stdin stdout written files
                   wall_clock cpu_count worker_start next_completed];
              now rewrite <- app_assoc)
    end.
    unfold bind at 1. rewrite Hfetch, Hfalsy. reflexivity. }
  rewrite Hmain. cbn [fst snd]. destruct Hhost as (Hw & Hf & Hc & Hn).
  split; [reflexivity|]. split; [exact Hstdin|]. split; [apply last_snoc|].
  split; [exact Hrandom|]. repeat split; assumption.
Qed.

Lemma main_stops_on_empty_fetch_witness :
  fst (main (fun _ => None) (fun _ => EmptyString) (set_stdin ["Bunny"; "9"] patchy_world))
  = Raise (SystemExit 1) /\
  stdin (snd (main (fun _ => None) (fun _ => EmptyString)
                   (set_stdin ["Bunny"; "9"] patchy_world))) = ["9"].
Proof.
  pose proof (main_stops_on_empty_fetch (fun _ => None) (fun _ => EmptyString)
                (set_stdin ["Bunny"; "9"] patchy_world) "Bunny" ["9"] eq_refl eq_refl) as H.
  cbv zeta in H. destruct H as (Hexit & Hrest & _).
  - left. simpl. left. lia.
  - split; assumption.
Defined.

(** ** The scheduler and the order of completion *)

Lemma omap_ext_in {A B} (f g : A -> option B) (l : list A) :
  (forall x, x ∈ l -> f x = g x) -> omap f l = omap g l.
Proof.
  induction l as [|x l IH]; intros Hfg; [reflexivity|]. cbn [omap list_omap].
  rewrite (Hfg x) by constructor. rewrite IH; [reflexivity|].
  intros y Hy. apply Hfg. now constructor.
Qed.

Lemma responded_same_network ips timeout w1 w2 f :
  network w1 = network w2 -> worker_start w1 = worker_start w2 ->
  responded ips timeout w1 f = responded ips timeout w2 f.
Proof.
  intros Hnet Hstart. unfold responded, probe_outcome.
  destruct (ips !! f) as [ip|]; [|reflexivity].
  rewrite !test_ip_run. cbn [fst network monotonic_clock set_monotonic_clock].
  now rewrite Hnet, Hstart.
Qed.

(** X7.  The order in which the futures complete decides the order of the
    result and nothing else: two runs of [check_ips] on the same addresses,
    against the same network and with the same start of each probe, return
    the same entries, up to their order, whatever the completion orders. *)
Theorem results_up_to_completion_order ips workers timeout w1 w2 :
  0 < workers ->
  network w1 = network w2 -> worker_start w1 = worker_start w2 ->
  exists r1 r2,
    check_ips ips workers timeout w1 = (Ok r1, w1) /\
    check_ips ips workers timeout w2 = (Ok r2, w2) /\
    r1 ≡ₚ r2.
Proof.
  intros Hworkers Hnet Hstart.
  destruct (check_ips_run ips workers timeout w1 Hworkers)
    as (order1 & _ & final1 & Hperm1 & _ & _ & Hrun1 & _ & _ & Hfinal1 & _).
  destruct (check_ips_run ips workers timeout w2 Hworkers)
    as (order2 & _ & final2 & Hperm2 & _ & _ & Hrun2 & _ & _ & Hfinal2 & _).
  exists (fst final1), (fst final2). split; [assumption|]. split; [assumption|].
  rewrite Hfinal1, Hfinal2, Hperm1, Hperm2.
  erewrite omap_ext_in; [reflexivity|].
  intros f _. now apply responded_same_network.
Qed.

Lemma results_up_to_completion_order_witness :
  exists r1 r2,
    check_ips three_addresses 2 (1 # 2) patchy_world = (Ok r1, patchy_world) /\
    check_ips three_addresses 2 (1 # 2) reordered_world = (Ok r2, reordered_world) /\
    r1 ≡ₚ r2.
Proof.
  apply (results_up_to_completion_order three_addresses 2 (1 # 2) patchy_world reordered_world);
    [lia | reflexivity | reflexivity].
Defined.

(** ** Flat lists with entries that are not addresses *)

Lemma IPv4Address_new_raises x e :
  ipaddress.IPv4Address_new x = Raise e -> e = AddressValueError.
Proof.
  assert (Hint : forall n, ipaddress.IPv4Address_of_int n = Raise e -> e = AddressValueError).
  { intros n. unfold ipaddress.IPv4Address_of_int. destruct (_ && _); congruence. }
  destruct x as [|b|n|q|s|items|members]; cbn [ipaddress.IPv4Address_new];
    try congruence; try apply Hint.
  unfold ipaddress.IPv4Address_of_string, ipaddress.ip_int_from_string.
  destruct (pystr.contains _ _); [congruence|].
  destruct s as [|c0 s0]; [congruence|].
  destruct (pystr.split "." (String c0 s0)) as [|o1 [|o2 [|o3 [|o4 [|? ?]]]]]; try congruence.
  destruct (ipaddress.parse_octet o1); [|congruence].
  destruct (ipaddress.parse_octet o2); [|congruence].
  destruct (ipaddress.parse_octet o3); [|congruence].
  destruct (ipaddress.parse_octet o4); congruence.
Qed.

Lemma comprehension_lift_world {A B} (f : A -> outcome B) xs w :
  snd (comprehension (fun x => lift (f x)) xs w) = w.
Proof.
  induction xs as [|x xs IH]; [reflexivity|]. cbn [comprehension].
  unfold bind at 1, lift at 1. destruct (f x); [|reflexivity].
  unfold bind at 1. destruct (comprehension _ xs w) as [[ys|e] w1]; exact IH.
Qed.

Lemma conversion_raises xs w e :
  fst (comprehension (fun x => lift (ipaddress.IPv4Address_new x)) xs w) = Raise e ->
  e = AddressValueError.
Proof.
  induction xs as [|x xs IH]; [discriminate|]. cbn [comprehension].
  unfold bind at 1, lift at 1.
  destruct (ipaddress.IPv4Address_new x) as [a|e0] eqn:Hx.
  - unfold bind at 1. destruct (comprehension _ xs w) as [[ys|e1] w1]; [discriminate|].
    cbn [fst] in *. intros [= <-]. now apply IH.
  - cbn [fst]. intros [= <-]. eapply IPv4Address_new_raises; eauto.
Qed.

Lemma conversion_fails xs w :
  Exists unconvertible xs ->
  fst (comprehension (fun x => lift (ipaddress.IPv4Address_new x)) xs w)
  = Raise AddressValueError.
Proof.
  intros Hbad.
  destruct (comprehension _ xs w) as [[ys|e] w1] eqn:Hrun; cbn [fst].
  - exfalso. revert ys w1 Hrun. induction Hbad as [x xs Hx|x xs _ IH]; intros ys w1;
      cbn [comprehension]; unfold bind at 1, lift at 1;
      destruct (ipaddress.IPv4Address_new x) as [a|e0] eqn:Hnew; try discriminate.
    + now apply Hx in Hnew.
    + unfold bind at 1. destruct (comprehension _ xs w) as [[zs|e1] w2] eqn:Hrest;
        [|discriminate]. intros _. eapply IH; reflexivity.
  - f_equal. apply (conversion_raises xs w). now rewrite Hrun.
Qed.

(** X8.  The flat-list sampler converts entry by entry and keeps nothing of
    a conversion that fails: when the whole pool is taken ([count] at least
    its size) a single entry that is not an IPv4 literal makes the call
    raise [AddressValueError], and no random number has been drawn; and for
    any count that is not negative, [AddressValueError] is the only
    exception a list can make the sampler raise. *)
Theorem flat_sampler_rejects_bad_entries :
  (forall items count w,
     Z.of_nat (length items) <= count -> Exists unconvertible items ->
     generate_random_ips_from_list (JArr items) count w = (Raise AddressValueError, w)) /\
  (forall items count w,
     Z.of_nat (length items) <= count ->
     snd (generate_random_ips_from_list (JArr items) count w) = w) /\
  (forall items count w e,
     0 <= count ->
     fst (generate_random_ips_from_list (JArr items) count w) = Raise e ->
     e = AddressValueError).
Proof.
  split; [|split].
  - intros items count w Hall Hbad.
    unfold generate_random_ips_from_list. cbn [py_len py_iter]. unfold bind at 1, lift at 1.
    destruct (Nat.eqb_spec (length items) 0) as [H0|_].
    { destruct items; [inversion Hbad | discriminate]. }
    destruct (Z.leb_spec (Z.of_nat (length items)) count); [|lia].
    unfold bind at 1, lift at 1.
    rewrite (surjective_pairing (comprehension _ items w)).
    now rewrite conversion_fails, comprehension_lift_world.
  - intros items count w Hall.
    unfold generate_random_ips_from_list. cbn [py_len py_iter]. unfold bind at 1, lift at 1.
    destruct (Nat.eqb_spec (length items) 0); [reflexivity|].
    destruct (Z.leb_spec (Z.of_nat (length items)) count); [|lia].
    unfold bind at 1, lift at 1. apply comprehension_lift_world.
  - intros items count w e Hcount.
    unfold generate_random_ips_from_list. cbn [py_len py_iter sample_of].
    unfold bind at 1, lift at 1.
    destruct (Nat.eqb_spec (length items) 0); [discriminate|].
    destruct (Z.leb_spec (Z.of_nat (length items)) count).
    + unfold bind at 1, lift at 1. apply conversion_raises.
    + destruct (sample_ok items count w) as (chosen & w' & Hs & _); [lia|].
      rewrite (bind_ok _ _ _ _ _ Hs). apply conversion_raises.
Qed.

Lemma mixed_listing_unconvertible : Exists unconvertible mixed_listing.
Proof. apply Exists_cons_tl, Exists_cons_hd. intros a. discriminate. Qed.

Lemma flat_sampler_rejects_bad_entries_witness :
  generate_random_ips_from_list (JArr mixed_listing) 2 sample_world
  = (Raise AddressValueError, sample_world) /\
  snd (generate_random_ips_from_list (JArr two_listed) 7 sample_world) = sample_world.
Proof.
  destruct flat_sampler_rejects_bad_entries as (Hbad & Hworld & _). split.
  - apply (Hbad mixed_listing 2 sample_world); [simpl; lia | exact mixed_listing_unconvertible].
  - apply (Hworld two_listed 7 sample_world). simpl. lia.
Defined.

(** ** The text of an address names the address *)

(** The text of an octet reads back as the octet. *)
Lemma parse_octet_str_of_int o :
  0 <= o < 256 -> ipaddress.parse_octet (pystr.str_of_int o) = Ok o.
Proof.
  intros Ho.
  assert (Hall : forallb (fun m => match ipaddress.parse_octet (pystr.str_of_int (Z.of_nat m)) with
                                   | Ok v => v =? Z.of_nat m
                                   | Raise _ => false
                                   end) (seq 0 256) = true) by (vm_compute; reflexivity).
  rewrite forallb_forall in Hall. specialize (Hall (Z.to_nat o)).
  rewrite Z2Nat.id in Hall by lia.
  destruct (ipaddress.parse_octet (pystr.str_of_int o)) as [v|].
  - f_equal. apply Z.eqb_eq, Hall, in_seq. lia.
  - discriminate Hall. apply in_seq. lia.
Qed.

(** [IPv4Address(str(addr))] is [addr]. *)
Lemma IPv4Address_of_string_str addr :
  0 <= ip_int addr <= ipaddress.ALL_ONES ->
  ipaddress.IPv4Address_of_string (ipaddress.str addr) = Ok addr.
Proof.
  intros Hrange. destruct addr as [n]. cbn [ip_int] in Hrange. unfold ipaddress.ALL_ONES in Hrange.
  unfold ipaddress.str. cbn [ip_int map pystr.join].
  set (o1 := Z.shiftr n 24 mod 256). set (o2 := Z.shiftr n 16 mod 256).
  set (o3 := Z.shiftr n 8 mod 256). set (o4 := n mod 256).
  assert (Hbound : forall k, 0 <= k mod 256 < 256) by (intros k; apply Z.mod_pos_bound; lia).
  assert (Hdig : forall k, pystr.isdigit (pystr.str_of_int (k mod 256)) = true)
    by (intros k; apply str_of_int_isdigit, Hbound).
  assert (Hdot : forall k, pystr.contains "." (pystr.str_of_int (k mod 256)) = false)
    by (intros k; apply digits_without; [reflexivity | apply Hdig]).
  assert (Hslash : forall k, pystr.contains "/" (pystr.str_of_int (k mod 256)) = false)
    by (intros k; apply digits_without; [reflexivity | apply Hdig]).
  unfold ipaddress.IPv4Address_of_string.
  assert (Hnoslash : pystr.contains "/"
            (pystr.str_of_int o1 +:+ "." +:+ pystr.str_of_int o2 +:+ "."
             +:+ pystr.str_of_int o3 +:+ "." +:+ pystr.str_of_int o4) = false).
  { unfold pystr.contains in *. rewrite !list_ascii_of_string_app, !existsb_app.
    subst o1 o2 o3 o4. rewrite !Hslash. reflexivity. }
  rewrite Hnoslash. unfold ipaddress.ip_int_from_string.
  assert (Hsplit : pystr.split "."
            (pystr.str_of_int o1 +:+ "." +:+ pystr.str_of_int o2 +:+ "."
             +:+ pystr.str_of_int o3 +:+ "." +:+ pystr.str_of_int o4)
          = [pystr.str_of_int o1; pystr.str_of_int o2; pystr.str_of_int o3; pystr.str_of_int o4]).
  { subst o1 o2 o3 o4.
    rewrite 3!split_at_dot by apply Hdot. now rewrite split_without_separator by apply Hdot. }
  destruct (pystr.str_of_int o1 +:+ "." +:+ pystr.str_of_int o2 +:+ "."
            +:+ pystr.str_of_int o3 +:+ "." +:+ pystr.str_of_int o4) as [|c0 s0] eqn:Htext.
  { discriminate Hsplit. }
  rewrite Hsplit. subst o1 o2 o3 o4. rewrite !parse_octet_str_of_int by apply Hbound.
  f_equal. f_equal. rewrite !Z.shiftr_div_pow2 by lia.
  change (2 ^ 24) with 16777216. change (2 ^ 16) with 65536. change (2 ^ 8) with 256.
  change (2 ^ 32 - 1) with 4294967295 in Hrange.
  Z.to_euclidean_division_equations. lia.
Qed.

Lemma responded_names ips timeout w f r :
  responded ips timeout w f = Some r ->
  exists ip, ips !! f = Some ip /\ fst r = ipaddress.str ip.
Proof.
  unfold responded, probe_outcome. destruct (ips !! f) as [ip|]; [|discriminate].
  destruct (fst (test_ip ip timeout _)) as [[r'|]|] eqn:Hrun; try discriminate.
  intros [= <-]. exists ip. split; [reflexivity|]. exact (test_ip_names _ _ _ _ Hrun).
Qed.

Lemma check_ips_entries ips workers timeout w :
  0 < workers ->
  exists result,
    check_ips ips workers timeout w = (Ok result, w) /\
    (length result <= length ips)%nat /\
    Forall (fun r => exists ip, ip ∈ ips /\ fst r = ipaddress.str ip) result.
Proof.
  intros Hworkers.
  destruct (check_ips_run ips workers timeout w Hworkers)
    as (order & _ & final & Hperm & _ & _ & Hrun & _ & _ & Hfinal & _).
  exists (fst final). split; [assumption|]. rewrite Hfinal. split.
  - etrans; [apply omap_length_le|]. rewrite Hperm, length_seq. reflexivity.
  - apply Forall_forall. intros r Hr.
    apply list_elem_of_omap in Hr as (f & _ & Hf).
    destruct (responded_names _ _ _ _ _ Hf) as (ip & Hip & Htext).
    exists ip. split; [|assumption]. eapply list_elem_of_lookup_2; eauto.
Qed.

(** X9.  The text [check_ips] reports for a responsive address names that
    address: every entry of the result carries [str(ip)] for one of the
    submitted addresses, and that text reads back, through [IPv4Address],
    as the very same address; so two different addresses are never
    reported under one text. *)
Theorem result_entries_name_their_address ips workers timeout w :
  0 < workers ->
  Forall (fun ip => 0 <= ip_int ip <= ipaddress.ALL_ONES) ips ->
  exists result,
    check_ips ips workers timeout w = (Ok result, w) /\
    Forall (fun r => exists ip,
                ip ∈ ips /\ fst r = ipaddress.str ip /\
                ipaddress.IPv4Address_of_string (fst r) = Ok ip) result /\
    (forall ip ip', ip ∈ ips -> ip' ∈ ips ->
                    ipaddress.str ip = ipaddress.str ip' -> ip = ip').
Proof.
  intros Hworkers Hvalid. rewrite Forall_forall in Hvalid.
  destruct (check_ips_entries ips workers timeout w Hworkers) as (result & Hrun & _ & Hnames).
  exists result. split; [assumption|]. split.
  - eapply Forall_impl; [exact Hnames|]. intros r (ip & Hin & Htext).
    exists ip. split; [assumption|]. split; [assumption|].
    rewrite Htext. apply IPv4Address_of_string_str. now apply Hvalid.
  - intros ip ip' Hin Hin' Htext.
    pose proof (IPv4Address_of_string_str ip (Hvalid ip Hin)) as Hback.
    rewrite Htext, IPv4Address_of_string_str in Hback by now apply Hvalid.
    congruence.
Qed.

Lemma result_entries_name_their_address_witness :
  exists result,
    check_ips three_addresses 2 (1 # 2) patchy_world = (Ok result, patchy_world) /\
    Forall (fun r => exists ip,
                ip ∈ three_addresses /\ fst r = ipaddress.str ip /\
                ipaddress.IPv4Address_of_string (fst r) = Ok ip) result /\
    (forall ip ip', ip ∈ three_addresses -> ip' ∈ three_addresses ->
                    ipaddress.str ip = ipaddress.str ip' -> ip = ip').
Proof.
  apply (result_entries_name_their_address three_addresses 2 (1 # 2) patchy_world); [lia|].
  repeat constructor; vm_compute; congruence.
Defined.

(** ** The whole run *)

(** [main] is its first prompt and the choice of the pool, followed by
    [run_with] on the sampler of that pool. *)
Lemma main_unfold float_of_string str_of_float :
  main float_of_string str_of_float =
  bind (input "Which network to test? [fastly/cloudflare/bunny]: ")
       (fun line =>
          let choice := pystr.lower (pystr.strip line) in
          if negb (existsb (String.eqb choice) ["fastly"; "cloudflare"; "bunny"])
          then bind (print "Please enter 'fastly', 'cloudflare', or 'bunny'.")
                    (fun _ => sys_exit 1)
          else bind (select_pool choice)
                    (fun pool => run_with float_of_string str_of_float choice
                                          (sampler_of choice pool))).
Proof. reflexivity. Qed.

Lemma input_run prompt w line rest :
  stdin w = line :: rest ->
  input prompt w = (Ok line, set_stdin rest (set_stdout (stdout w ++ [prompt]) w)).
Proof. intros Hin. unfold input. now rewrite Hin. Qed.

Lemma outside_unchanged_trans w1 w2 w3 :
  outside_unchanged w1 w2 -> outside_unchanged w2 w3 -> outside_unchanged w1 w3.
Proof.
  intros (H1 & R1 & N1 & S1) (H2 & R2 & N2 & S2).
  split; [eapply host_unchanged_trans; eauto|]. repeat split; congruence.
Qed.

Lemma read_workers_ok w line rest :
  stdin w = line :: rest ->
  exists workers w',
    read_workers w = (Ok workers, w') /\ stdin w' = rest /\ outside_unchanged w w' /\
    (0 < cpu_count w -> 0 < workers).
Proof.
  intros Hin. eexists _, _. split; [exact (read_workers_run w line rest Hin)|].
  split; [reflexivity|]. split; [repeat split|].
  intros Hcpu. destruct (String.eqb _ _); [assumption|].
  destruct (pystr.int_of_string _) as [workers|]; [|assumption].
  destruct (Z.ltb_spec 0 workers); assumption.
Qed.

Lemma read_timeout_ok float_of_string w line rest :
  stdin w = line :: rest ->
  exists w',
    read_timeout float_of_string w = (Ok (typed_timeout float_of_string line), w') /\
    stdin w' = rest /\ outside_unchanged w w'.
Proof.
  intros Hin. eexists. split.
  - rewrite (read_timeout_run float_of_string w line rest Hin). cbv zeta.
    f_equal. f_equal. unfold typed_timeout.
    destruct (String.eqb _ _); [reflexivity|].
    destruct (float_of_string _) as [t|]; [|reflexivity].
    destruct (float_le_zero t); reflexivity.
  - split; [reflexivity|]. repeat split.
Qed.

Lemma omap_responded_same ips timeout w1 w2 (order : list nat) :
  network w1 = network w2 -> worker_start w1 = worker_start w2 ->
  omap (responded ips timeout w1) order = omap (responded ips timeout w2) order.
Proof.
  intros Hnet Hstart. apply omap_ext_in. intros f _. now apply responded_same_network.
Qed.

Lemma responded_in_range ips timeout w f r :
  responded ips timeout w f = Some r -> (f < length ips)%nat.
Proof.
  unfold responded, probe_outcome. destruct (ips !! f) as [ip|] eqn:Hf; [|discriminate].
  intros _. eapply lookup_lt_Some; eauto.
Qed.

(** A file is written exactly when some probe responded. *)
Lemma output_iff_responded ips timeout w (order : list nat) choice now
    (files : list (string * string)) :
  order ≡ₚ seq 0 (length ips) ->
  files ++ output_of choice now (omap (responded ips timeout w) order) <> files
  <-> exists f r, responded ips timeout w f = Some r.
Proof.
  intros Hperm. split.
  - intros Hwritten. destruct (omap (responded ips timeout w) order) as [|r result] eqn:Hres.
    + cbn [output_of] in Hwritten. rewrite app_nil_r in Hwritten. congruence.
    + assert (Hr : r ∈ omap (responded ips timeout w) order) by (rewrite Hres; constructor).
      apply list_elem_of_omap in Hr as (f & _ & Hf). eauto.
  - intros (f & r & Hf) Hsame.
    assert (Hin : r ∈ omap (responded ips timeout w) order).
    { apply list_elem_of_omap. exists f. split; [|assumption].
      rewrite Hperm. apply elem_of_seq. pose proof (responded_in_range _ _ _ _ _ Hf). lia. }
    destruct (omap (responded ips timeout w) order) as [|r' result]; [inversion Hin|].
    cbn [output_of] in Hsame. apply (f_equal (@length _)) in Hsame.
    rewrite length_app in Hsame. cbn [length] in Hsame. lia.
Qed.

(** From the count prompt on: the addresses the sampler draws from the
    generator as it stands are all probed, with the workers and the timeout
    typed, and the entries reported are those of the probes that
    responded, in the order of completion. *)
Lemma run_with_ok float_of_string str_of_float choice sampler w line2 line3 line4 rest count ips :
  stdin w = line2 :: line3 :: line4 :: rest ->
  pystr.int_of_string line2 = Ok count -> 0 < count -> 0 < cpu_count w ->
  random_only (sampler count) ->
  fst (sampler count w) = Ok ips ->
  exists order,
    order ≡ₚ seq 0 (length ips) /\
    fst (run_with float_of_string str_of_float choice sampler w) = Ok tt /\
    written (snd (run_with float_of_string str_of_float choice sampler w))
    = written w ++ output_of choice (wall_clock w)
                     (omap (responded ips (typed_timeout float_of_string line4) w) order) /\
    stdin (snd (run_with float_of_string str_of_float choice sampler w)) = rest.
Proof.
  intros Hin Hparse Hcount Hcpu Honly Hips.
  pose proof (read_count_accepts w line2 (line3 :: line4 :: rest) count Hin Hparse Hcount) as H1.
  set (w1 := set_stdin (line3 :: line4 :: rest) _) in H1.
  assert (Hout1 : outside_unchanged w w1) by (repeat split).
  destruct (read_workers_ok w1 line3 (line4 :: rest) eq_refl)
    as (workers & w2 & H2 & Hin2 & Hout2 & Hworkers).
  destruct (read_timeout_ok float_of_string w2 line4 rest Hin2) as (w3 & H3 & Hin3 & Hout3).
  pose proof (outside_unchanged_trans _ _ _ (outside_unchanged_trans _ _ _ Hout1 Hout2) Hout3)
    as ((Hw & _ & Hc & _) & Hr & Hn & Hs).
  set (timeout := typed_timeout float_of_string line4) in *.
  destruct (random_only_deterministic (sampler count) w3 w Honly Hr) as [Hsame _].
  destruct (random_only_frame (sampler count) w3 Honly) as [g Hg].
  destruct (sampler count w3) as [o w4] eqn:H4. cbn [fst snd] in Hsame, Hg.
  rewrite Hips in Hsame. subst o.
  destruct (check_ips_run ips workers timeout w4 (Hworkers Hcpu))
    as (order & _ & final & Hperm & _ & _ & H5 & _ & _ & Hfinal & _).
  exists order. split; [assumption|].
  assert (Hrun : run_with float_of_string str_of_float choice sampler w
                 = report str_of_float choice (fst final) timeout w4).
  { unfold run_with. rewrite (bind_ok _ _ _ _ _ H1), (bind_ok _ _ _ _ _ H2),
      (bind_ok _ _ _ _ _ H3), (bind_ok _ _ _ _ _ H4), (bind_ok _ _ _ _ _ H5). reflexivity. }
  assert (Hresult : fst final = omap (responded ips timeout w) order).
  { rewrite Hfinal. apply omap_responded_same; subst w4; assumption. }
  assert (Hwritten : written w4 = written w) by (subst w4; exact Hw).
  assert (Hclock : wall_clock w4 = wall_clock w) by (subst w4; exact Hc).
  assert (Hstdin : stdin w4 = rest) by (subst w4; exact Hin3).
  rewrite Hrun, report_run. cbv zeta. cbn [fst snd]. rewrite Hresult.
  split; [reflexivity|].
  unfold output_of. rewrite <- Hclock, <- Hwritten, <- Hstdin.
  clear Hfinal Hresult Hrun H5.
  destruct (omap (responded ips timeout w) order);
    cbn [written stdin set_stdout set_files]; [|split; reflexivity].
  rewrite app_nil_r. split; reflexivity.
Qed.

Lemma comprehension_lift_inv {A B} (f : A -> outcome B) xs : forall ys w w',
  comprehension (fun x => lift (f x)) xs w = (Ok ys, w') ->
  Forall2 (fun x y => f x = Ok y) xs ys.
Proof.
  induction xs as [|x xs IH]; intros ys w w'.
  - intros [= <- _]. constructor.
  - cbn [comprehension]. unfold bind at 1, lift at 1.
    destruct (f x) as [y|] eqn:Hx; [|discriminate].
    unfold bind at 1. destruct (comprehension _ xs w) as [[zs|] w1] eqn:Hrest; [|discriminate].
    intros [= <- _]. constructor; [assumption|]. eapply IH; eauto.
Qed.

Lemma generate_random_ips_members networks count w :
  networks <> [] -> Forall wf_network networks -> 0 <= count ->
  exists ips w',
    generate_random_ips networks count w = (Ok ips, w') /\
    Z.of_nat (length ips) = count /\
    Forall (fun ip => exists net, net ∈ networks /\ drawn_from net ip) ips.
Proof.
  intros Hne Hwf Hcount.
  destruct (generate_random_ips_ok networks count w Hne Hwf)
    as (chosen & ips & w' & Hrun & Hlen & Hin & Hdrawn).
  exists ips, w'. split; [assumption|]. split; [lia|].
  clear Hrun Hlen. induction Hdrawn as [|net ip chosen ips Hd _ IH]; [constructor|].
  inversion Hin as [|? ? Hnet Hin']; subst. constructor; [|now apply IH].
  exists net. split; assumption.
Qed.

(** Every block of the two tables has room for hosts: more than two
    addresses. *)
Lemma CIDR_tables_roomy cidr net :
  cidr ∈ FASTLY_CIDRS \/ cidr ∈ CLOUDFLARE_CIDRS ->
  ipaddress.IPv4Network_of_string cidr = Ok net -> 2 < num_addresses net.
Proof.
  assert (Hall : Forall (fun c => forall n, ipaddress.IPv4Network_of_string c = Ok n ->
                                            2 < num_addresses n)
                        (FASTLY_CIDRS ++ CLOUDFLARE_CIDRS)).
  { repeat constructor; intros n Hn; vm_compute in Hn; injection Hn as <-; reflexivity. }
  rewrite Forall_forall in Hall. intros Hin. apply Hall.
  apply elem_of_app. exact Hin.
Qed.

(** X10.  A whole run on a CIDR pool.  When the first line names [fastly]
    or [cloudflare], the second is read by [int] as a positive count, the
    two others are ASCII lines and the machine has a core, [main] ends
    normally.  The pool is the chosen table, parsed entry by entry; the
    addresses probed are those [generate_random_ips] draws for that pool
    and count from the generator as [main] found it: exactly [count] of
    them, each inside a network of the pool and neither its network nor
    its broadcast address.  Each of them is probed with the timeout typed
    on the fourth line; the entries reported are those of the probes that
    responded, in the order of completion.  Exactly the four lines are
    read, and the run adds one file, named after the choice and the time
    and holding these entries, exactly when some probe responded. *)
Theorem main_on_a_cidr_pool float_of_string str_of_float w line1 line2 line3 line4 rest count :
  stdin w = line1 :: line2 :: line3 :: line4 :: rest ->
  pystr.isascii line3 = true -> pystr.isascii line4 = true ->
  let choice := pystr.lower (pystr.strip line1) in
  let table := if String.eqb choice "fastly" then FASTLY_CIDRS else CLOUDFLARE_CIDRS in
  let timeout := typed_timeout float_of_string line4 in
  choice = "fastly" \/ choice = "cloudflare" ->
  pystr.int_of_string line2 = Ok count -> 0 < count -> 0 < cpu_count w ->
  exists networks ips order,
    Forall2 (fun cidr net => ipaddress.IPv4Network_of_string cidr = Ok net) table networks /\
    fst (generate_random_ips networks count w) = Ok ips /\
    Z.of_nat (length ips) = count /\
    Forall (fun ip => exists net,
                net ∈ networks /\ ipaddress.contains net ip = true /\
                ip_int (network_address net) < ip_int ip < ip_int (broadcast_address net))
           ips /\
    order ≡ₚ seq 0 (length ips) /\
    fst (main float_of_string str_of_float w) = Ok tt /\
    written (snd (main float_of_string str_of_float w))
    = written w ++ output_of choice (wall_clock w) (omap (responded ips timeout w) order) /\
    (written (snd (main float_of_string str_of_float w)) <> written w
     <-> exists f r, responded ips timeout w f = Some r) /\
    stdin (snd (main float_of_string str_of_float w)) = rest.
Proof.
  intros Hin _ _ choice table timeout Hchoice Hparse Hcount Hcpu.
  set (w0 := set_stdin (line2 :: line3 :: line4 :: rest)
               (set_stdout (stdout w ++ ["Which network to test? [fastly/cloudflare/bunny]: "]) w)).
  assert (Hpool : exists networks,
            select_pool choice w0 = (Ok (Some networks, None), w0) /\
            Forall2 (fun c net => ipaddress.IPv4Network_of_string c = Ok net) table networks /\
            networks <> [] /\ Forall wf_network networks /\
            String.eqb choice "bunny" = false).
  { destruct (CIDR_tables_parse w0) as [(nets1 & Hp1 & Hl1) (nets2 & Hp2 & Hl2)].
    subst table. destruct Hchoice as [-> | ->]; unfold select_pool;
      cbn [String.eqb Ascii.eqb Bool.eqb].
    - exists nets1. rewrite (bind_ok _ _ _ _ _ Hp1). split; [reflexivity|].
      split; [eapply comprehension_lift_inv; eauto|].
      split; [intros ->; discriminate|]. split; [|reflexivity].
      eapply comprehension_networks; eauto.
    - exists nets2. rewrite (bind_ok _ _ _ _ _ Hp2). split; [reflexivity|].
      split; [eapply comprehension_lift_inv; eauto|].
      split; [intros ->; discriminate|]. split; [|reflexivity].
      eapply comprehension_networks; eauto. }
  destruct Hpool as (networks & Hselect & Htable & Hne & Hwf & Hnotbunny).
  assert (Hknown : existsb (String.eqb choice) ["fastly"; "cloudflare"; "bunny"] = true).
  { destruct Hchoice as [-> | ->]; reflexivity. }
  destruct (generate_random_ips_members networks count w Hne Hwf)
    as (ips & w' & Hsample & Hlen & Hmembers); [lia|].
  assert (Hsampler : sampler_of choice (Some networks, None) count
                     = generate_random_ips networks count).
  { unfold sampler_of. now rewrite Hnotbunny. }
  destruct (run_with_ok float_of_string str_of_float choice
              (sampler_of choice (Some networks, None)) w0 line2 line3 line4 rest count ips)
    as (order & Hperm & Hok & Hwritten & Hrest);
    [reflexivity | assumption | assumption | assumption | | |].
  { rewrite Hsampler. apply random_only_generate_random_ips. }
  { rewrite Hsampler.
    destruct (random_only_deterministic (generate_random_ips networks count) w0 w
                (random_only_generate_random_ips networks count) eq_refl) as [-> _].
    now rewrite Hsample. }
  assert (Hmain : main float_of_string str_of_float w
                  = run_with float_of_string str_of_float choice
                             (sampler_of choice (Some networks, None)) w0).
  { rewrite main_unfold. unfold bind at 1. rewrite (input_run _ w line1 _ Hin).
    cbv zeta. fold choice. rewrite Hknown. cbn [negb]. fold w0.
    now rewrite (bind_ok _ _ _ _ _ Hselect). }
  assert (Hresult : omap (responded ips timeout w0) order = omap (responded ips timeout w) order)
    by (now apply omap_responded_same).
  fold timeout in Hwritten. rewrite Hresult in Hwritten.
  change (written w0) with (written w) in Hwritten.
  change (wall_clock w0) with (wall_clock w) in Hwritten.
  exists networks, ips, order. rewrite Hmain.
  split; [assumption|]. split; [now rewrite Hsample|]. split; [assumption|].
  split.
  { eapply Forall_impl; [exact Hmembers|]. intros ip (net & Hnet & Hdrawn).
    assert (Hwfnet : wf_network net) by (rewrite Forall_forall in Hwf; now apply Hwf).
    exists net. split; [assumption|]. split; [now apply drawn_from_contains|].
    apply list_elem_of_lookup in Hnet as [i Hi].
    destruct (Forall2_lookup_r _ _ _ _ _ Htable Hi) as (cidr & Hcidr & Hparsed).
    assert (Hroom : 2 < num_addresses net).
    { apply (CIDR_tables_roomy cidr); [|assumption].
      apply list_elem_of_lookup_2 in Hcidr. subst table.
      destruct (String.eqb choice "fastly"); [left | right]; assumption. }
    apply drawn_from_sampled in Hdrawn. unfold sampled_from in Hdrawn.
    destruct (Z.ltb_spec 2 (num_addresses net)); [assumption | lia]. }
  split; [assumption|]. split; [assumption|]. split; [assumption|].
  split; [|assumption].
  rewrite Hwritten. now apply output_iff_responded.
Qed.

Lemma main_on_a_cidr_pool_witness :
  exists networks ips order,
    Forall2 (fun cidr net => ipaddress.IPv4Network_of_string cidr = Ok net)
            FASTLY_CIDRS networks /\
    fst (generate_random_ips networks 3 fastly_world) = Ok ips /\
    Z.of_nat (length ips) = 3 /\
    Forall (fun ip => exists net,
                net ∈ networks /\ ipaddress.contains net ip = true /\
                ip_int (network_address net) < ip_int ip < ip_int (broadcast_address net))
           ips /\
    order ≡ₚ seq 0 (length ips) /\
    fst (main sample_float (fun _ => EmptyString) fastly_world) = Ok tt /\
    written (snd (main sample_float (fun _ => EmptyString) fastly_world))
    = written fastly_world
      ++ output_of "fastly" (wall_clock fastly_world)
           (omap (responded ips (Finite (1 # 2)) fastly_world) order) /\
    (written (snd (main sample_float (fun _ => EmptyString) fastly_world))
     <> written fastly_world
     <-> exists f r, responded ips (Finite (1 # 2)) fastly_world f = Some r) /\
    stdin (snd (main sample_float (fun _ => EmptyString) fastly_world)) = [].
Proof.
  apply (main_on_a_cidr_pool sample_float (fun _ => EmptyString) fastly_world
           "FASTLY" " 3 " "0" "0.5" [] 3);
    [reflexivity | reflexivity | reflexivity | left; reflexivity | reflexivity | lia
    | reflexivity].
Defined.

Lemma select_pool_fetched w response items :
  reply (network w edgeserverlist 10 (monotonic_clock w)) = Answered response ->
  ~ 400 <= status_code response < 600 ->
  body_json response = Some (JArr items) -> items <> [] ->
  exists w',
    select_pool "bunny" w = (Ok (None, Some (JArr items)), w') /\
    stdin w' = stdin w /\ outside_unchanged w w'.
Proof.
  intros Hreply Hstatus Hbody Hne.
  set (w1 := set_stdout (stdout w ++ ["Fetching Bunny CDN IP addresses..." +:+ pystr.newline]) w).
  pose proof (fetch_bunny_ips_body w1 response (JArr items) Hreply Hstatus Hbody) as Hv.
  destruct (fetch_bunny_ips_frame w1) as (Hhost & Hstdin & Hrandom & Hnet & Hstart).
  destruct (fetch_bunny_ips w1) as [o w2] eqn:Hfetch. cbn [fst snd] in *. subst o.
  eexists. split.
  - unfold select_pool. cbn [String.eqb Ascii.eqb Bool.eqb].
    unfold bind at 1, print at 1. fold w1. unfold bind at 1. rewrite Hfetch.
    destruct items as [|item items]; [congruence|].
    cbn [truthy negb py_len]. unfold bind at 1, lift at 1. unfold bind at 1, print at 1.
    reflexivity.
  - cbn [stdin set_stdout]. split; [assumption|].
    apply (outside_unchanged_trans w w1); repeat split; try assumption; apply Hhost.
Qed.

(** X11.  A whole run on the fetched pool.  When the first line names
    [bunny], the provider answers without an error status with a
    non-empty JSON array of IPv4 address literals, the second line is read
    by [int] as a positive count, the two others are ASCII lines and the
    machine has a core, [main] ends normally.  The addresses probed are
    those [generate_random_ips_from_list] draws from the fetched list for
    that count, from the generator as [main] found it:
    [min(count, len(list))] of them, taken from the list, the whole list
    in its order when the count reaches its length.  Each of them is
    probed with the timeout typed on the fourth line; the entries reported
    are those of the probes that responded, in the order of completion.
    Exactly the four lines are read, and the run adds one file, holding
    these entries, exactly when some probe responded. *)
Theorem main_on_the_fetched_pool float_of_string str_of_float w
    line1 line2 line3 line4 rest count response items addrs :
  stdin w = line1 :: line2 :: line3 :: line4 :: rest ->
  pystr.isascii line3 = true -> pystr.isascii line4 = true ->
  pystr.lower (pystr.strip line1) = "bunny" ->
  reply (network w edgeserverlist 10 (monotonic_clock w)) = Answered response ->
  ~ 400 <= status_code response < 600 ->
  body_json response = Some (JArr items) -> items <> [] ->
  typed_addresses items addrs ->
  pystr.int_of_string line2 = Ok count -> 0 < count -> 0 < cpu_count w ->
  let timeout := typed_timeout float_of_string line4 in
  exists ips order,
    fst (generate_random_ips_from_list (JArr items) count w) = Ok ips /\
    Z.of_nat (length ips) = Z.min count (Z.of_nat (length items)) /\
    ips ⊆+ addrs /\
    (Z.of_nat (length items) <= count -> ips = addrs) /\
    order ≡ₚ seq 0 (length ips) /\
    fst (main float_of_string str_of_float w) = Ok tt /\
    written (snd (main float_of_string str_of_float w))
    = written w ++ output_of "bunny" (wall_clock w) (omap (responded ips timeout w) order) /\
    (written (snd (main float_of_string str_of_float w)) <> written w
     <-> exists f r, responded ips timeout w f = Some r) /\
    stdin (snd (main float_of_string str_of_float w)) = rest.
Proof.
  intros Hin _ _ Hchoice Hreply Hstatus Hbody Hne Htyped Hparse Hcount Hcpu timeout.
  set (w0 := set_stdin (line2 :: line3 :: line4 :: rest)
               (set_stdout (stdout w ++ ["Which network to test? [fastly/cloudflare/bunny]: "]) w)).
  destruct (select_pool_fetched w0 response items Hreply Hstatus Hbody Hne)
    as (wp & Hselect & Hstdin & (Hfiles & _ & Hclock & Hcores) & Hrandom & Hnet & Hstart).
  destruct (generate_random_ips_from_list_ok items addrs count w Htyped)
    as (ips & w' & Hsample & Hlen & Hsub & Hall); [lia|].
  destruct (run_with_ok float_of_string str_of_float "bunny"
              (sampler_of "bunny" (None, Some (JArr items))) wp line2 line3 line4 rest count ips)
    as (order & Hperm & Hok & Hwritten & Hrest);
    [rewrite Hstdin; reflexivity | assumption | assumption | rewrite Hcores; assumption | | |].
  { apply random_only_generate_random_ips_from_list. }
  { cbn [sampler_of String.eqb Ascii.eqb Bool.eqb snd].
    destruct (random_only_deterministic (generate_random_ips_from_list (JArr items) count) wp w
                (random_only_generate_random_ips_from_list (JArr items) count) Hrandom)
      as [-> _].
    now rewrite Hsample. }
  assert (Hmain : main float_of_string str_of_float w
                  = run_with float_of_string str_of_float "bunny"
                             (sampler_of "bunny" (None, Some (JArr items))) wp).
  { rewrite main_unfold. unfold bind at 1. rewrite (input_run _ w line1 _ Hin).
    cbv zeta. rewrite Hchoice. cbn [existsb String.eqb Ascii.eqb Bool.eqb orb negb].
    fold w0. now rewrite (bind_ok _ _ _ _ _ Hselect). }
  assert (Hresult : omap (responded ips timeout wp) order = omap (responded ips timeout w) order)
    by (apply omap_responded_same; assumption).
  fold timeout in Hwritten. rewrite Hresult, Hfiles, Hclock in Hwritten.
  change (written w0) with (written w) in Hwritten.
  change (wall_clock w0) with (wall_clock w) in Hwritten.
  exists ips, order. rewrite Hmain.
  split; [now rewrite Hsample|]. split; [assumption|]. split; [assumption|].
  split; [assumption|]. split; [assumption|]. split; [assumption|].
  split; [assumption|]. split; [|assumption].
  rewrite Hwritten. now apply output_iff_responded.
Qed.

Lemma main_on_the_fetched_pool_witness :
  exists ips order,
    fst (generate_random_ips_from_list (JArr listed) 2 listing_world) = Ok ips /\
    Z.of_nat (length ips) = Z.min 2 (Z.of_nat (length listed)) /\
    ips ⊆+ [mkAddr 167772161; mkAddr 167772162; mkAddr 167772163] /\
    (Z.of_nat (length listed) <= 2 -> ips = [mkAddr 167772161; mkAddr 167772162; mkAddr 167772163]) /\
    order ≡ₚ seq 0 (length ips) /\
    fst (main sample_float (fun _ => EmptyString) listing_world) = Ok tt /\
    written (snd (main sample_float (fun _ => EmptyString) listing_world))
    = written listing_world
      ++ output_of "bunny" (wall_clock listing_world)
           (omap (responded ips (Finite 1) listing_world) order) /\
    (written (snd (main sample_float (fun _ => EmptyString) listing_world))
     <> written listing_world
     <-> exists f r, responded ips (Finite 1) listing_world f = Some r) /\
    stdin (snd (main sample_float (fun _ => EmptyString) listing_world)) = [].
Proof.
  apply (main_on_the_fetched_pool sample_float (fun _ => EmptyString) listing_world
           " Bunny " "2" "" "abc" [] 2 (mkResponse 200 (Some (JArr listed))) listed
           [mkAddr 167772161; mkAddr 167772162; mkAddr 167772163]);
    [reflexivity | reflexivity | reflexivity | reflexivity | reflexivity | simpl; lia
    | reflexivity | discriminate | repeat constructor | reflexivity | lia | reflexivity].
Defined.

(** ** The rows of the file *)

Lemma plain_without_comma s : csv.needs_quoting s = false -> pystr.contains "," s = false.
Proof.
  unfold csv.needs_quoting, pystr.contains.
  induction (list_ascii_of_string s) as [|c l IH]; [reflexivity|].
  cbn [existsb]. intros Hc. apply orb_false_elim in Hc as [Hc Hl].
  rewrite (IH Hl), orb_false_r.
  apply orb_false_elim in Hc as [Hc _]. apply orb_false_elim in Hc as [Hc _].
  apply orb_false_elim in Hc as [Hc _]. now rewrite Ascii.eqb_sym.
Qed.

Lemma split_row a b :
  pystr.contains "," a = false -> pystr.contains "," b = false ->
  pystr.split "," (a +:+ "," +:+ b) = [a; b].
Proof.
  intros Ha Hb. change (a +:+ "," +:+ b) with (a +:+ String "," b).
  rewrite split_at_separator by assumption. now rewrite split_without_separator.
Qed.

(** X12.  The file of a batch needs no quoting.  Whatever the addresses
    probed and however the probes end, every row that [main] writes for
    the result of [check_ips] is the text of a probed address, one comma
    and a time with two decimals, with no quote character: the file is
    the header line followed by these rows, and splitting a row at its
    comma gives back exactly the two fields. *)
Theorem batch_rows_read_back ips workers timeout w :
  0 < workers ->
  exists result,
    check_ips ips workers timeout w = (Ok result, w) /\
    csv_content result
    = ("ip,response_time_s" +:+ pystr.crlf)
      +:+ String.concat EmptyString
            (map (fun r => fst r +:+ "," +:+ pystr.format_2f (snd r) +:+ pystr.crlf) result) /\
    Forall (fun r => exists ip,
                ip ∈ ips /\
                pystr.split "," (fst r +:+ "," +:+ pystr.format_2f (snd r))
                = [ipaddress.str ip; pystr.format_2f (snd r)] /\
                two_decimals (pystr.format_2f (snd r))) result.
Proof.
  intros Hworkers.
  destruct (check_ips_entries ips workers timeout w Hworkers) as (result & Hrun & _ & Hnames).
  exists result. split; [assumption|].
  assert (Hplain : Forall (fun r => csv.needs_quoting (fst r) = false) result).
  { eapply Forall_impl; [exact Hnames|]. intros r (ip & _ & ->). apply address_text_plain. }
  split.
  - unfold csv_content, csv_rows. cbn [map]. rewrite map_map.
    assert (Hrows : map (fun r => csv.writerow [fst r; pystr.format_2f (snd r)]) result
                    = map (fun r => fst r +:+ "," +:+ pystr.format_2f (snd r) +:+ pystr.crlf)
                          result).
    { clear Hrun Hnames. induction Hplain as [|r result Hr _ IH]; [reflexivity|].
      cbn [map]. rewrite IH. f_equal. apply writerow_plain; [assumption|].
      apply two_decimals_plain, format_2f_two_decimals. }
    rewrite Hrows. destruct result; reflexivity.
  - apply Forall_forall. intros r Hr. rewrite Forall_forall in Hnames, Hplain.
    destruct (Hnames r Hr) as (ip & Hin & Htext). exists ip. split; [assumption|].
    split; [|apply format_2f_two_decimals].
    rewrite <- Htext. apply split_row.
    + apply plain_without_comma, Hplain, Hr.
    + apply plain_without_comma, two_decimals_plain, format_2f_two_decimals.
Qed.

Lemma batch_rows_read_back_witness :
  exists result,
    check_ips three_addresses 2 (1 # 2) patchy_world = (Ok result, patchy_world) /\
    csv_content result
    = ("ip,response_time_s" +:+ pystr.crlf)
      +:+ String.concat EmptyString
            (map (fun r => fst r +:+ "," +:+ pystr.format_2f (snd r) +:+ pystr.crlf) result) /\
    Forall (fun r => exists ip,
                ip ∈ three_addresses /\
                pystr.split "," (fst r +:+ "," +:+ pystr.format_2f (snd r))
                = [ipaddress.str ip; pystr.format_2f (snd r)] /\
                two_decimals (pystr.format_2f (snd r))) result.
Proof.
  apply (batch_rows_read_back three_addresses 2 (1 # 2) patchy_world). lia.
Defined.
